(** * eessh: channel engine (channel.c) and packet buffers (packet.c)

    A shallow embedding of the C sources into Rocq.  C integers are [Z]
    with their wrap-around written out, arrays with a live-element count
    (`watch_fds`/`num_watch_fds`, `channels`/`num_channels`) are lists whose
    length is the count, and an out-parameter `T *ret` is a function
    argument holding the old pointee ([None] for a NULL pointer) together
    with a result component holding the new one. *)

From Stdlib Require Import ZArith Lia String.
From stdpp Require Import base list.

Local Open Scope Z_scope.

(* ===================================================================== *)
(** * packet.c *)
(* ===================================================================== *)

Module Packet.

(** `size_t` of the LP64 targets of the poll-based engine. *)
Definition SIZE_BITS : Z := 64.
Definition SIZE_MAX : Z := 2 ^ SIZE_BITS - 1.
Definition size_wrap (x : Z) : Z := x mod 2 ^ SIZE_BITS.

(** `static int checked_add(size_t *ret, size_t a, size_t b)`:
    `a + b` is computed in `size_t`, so it wraps. *)
Definition checked_add (ret : Z) (a b : Z) : Z * Z :=
  if size_wrap (a + b) <? a then (-1, ret)
  else (0, size_wrap (a + b)).

(** `static int check_advance(size_t pos, size_t adv, size_t len)`;
    the local `new_pos` starts out indeterminate (modelled as 0). *)
Definition check_advance (pos adv len : Z) : Z :=
  let '(rc, new_pos) := checked_add 0 pos adv in
  if rc <? 0 then -1
  else if new_pos >? len then -1
  else 0.

(** `struct SSH_STRING { uint8_t *str; size_t len; }`.  The pointer is
    modelled by the bytes that start at it. *)
Record SSH_STRING := mkString {
  str_ptr : list Z;
  str_len : Z
}.

(** The bytes a string view denotes. *)
Definition ssh_str_bytes (s : SSH_STRING) : list Z :=
  take (Z.to_nat (str_len s)) (str_ptr s).

(** `struct SSH_BUF_READER { uint8_t *data; size_t pos; size_t len; }` *)
Record SSH_BUF_READER := mkReader {
  rd_data : list Z;
  rd_pos : Z;
  rd_len : Z
}.

Definition ssh_buf_reader_new (data : list Z) (len : Z) : SSH_BUF_READER :=
  {| rd_data := data; rd_pos := 0; rd_len := len |}.

(** `buf->data[i]` *)
Definition byte_at (data : list Z) (i : Z) : Z :=
  default 0 (data !! Z.to_nat i).

Definition set_pos (buf : SSH_BUF_READER) (p : Z) : SSH_BUF_READER :=
  {| rd_data := rd_data buf; rd_pos := p; rd_len := rd_len buf |}.

(** `int ssh_buf_read_u8(struct SSH_BUF_READER *buf, uint8_t *ret_val)` *)
Definition ssh_buf_read_u8 (buf : SSH_BUF_READER) (ret_val : option Z)
  : Z * SSH_BUF_READER * option Z :=
  if check_advance (rd_pos buf) 1 (rd_len buf) <? 0 then (-1, buf, ret_val)
  else
    (0,
     set_pos buf (size_wrap (rd_pos buf + 1)),
     (fun _ => byte_at (rd_data buf) (rd_pos buf)) <$> ret_val).

(** The big-endian composition of `ssh_buf_read_u32`; the operands are
    `uint8_t` values cast to `uint32_t`, so the shifts lose no bit. *)
Definition be32_at (data : list Z) (p : Z) : Z :=
  Z.lor (Z.lor (Z.lor (Z.shiftl (byte_at data p) 24)
                      (Z.shiftl (byte_at data (p + 1)) 16))
               (Z.shiftl (byte_at data (p + 2)) 8))
        (byte_at data (p + 3)).

(** `int ssh_buf_read_u32(struct SSH_BUF_READER *buf, uint32_t *ret_val)`;
    the source tests `check_advance(...)` for non-zero here. *)
Definition ssh_buf_read_u32 (buf : SSH_BUF_READER) (ret_val : option Z)
  : Z * SSH_BUF_READER * option Z :=
  if negb (check_advance (rd_pos buf) 4 (rd_len buf) =? 0) then (-1, buf, ret_val)
  else
    (0,
     set_pos buf (size_wrap (rd_pos buf + 4)),
     (fun _ => be32_at (rd_data buf) (rd_pos buf)) <$> ret_val).

(** `int ssh_buf_read_string(struct SSH_BUF_READER *buf, struct SSH_STRING *ret_val)` *)
Definition ssh_buf_read_string (buf : SSH_BUF_READER) (ret_val : option SSH_STRING)
  : Z * SSH_BUF_READER * option SSH_STRING :=
  let '(rc, buf1, len) := ssh_buf_read_u32 buf (Some 0) in
  if rc <? 0 then (-1, buf1, ret_val)
  else
    let len := default 0 len in
    if check_advance (rd_pos buf1) len (rd_len buf1) <? 0 then (-1, buf1, ret_val)
    else
      (0,
       set_pos buf1 (size_wrap (rd_pos buf1 + len)),
       (fun _ => {| str_ptr := drop (Z.to_nat (rd_pos buf1)) (rd_data buf1);
                    str_len := len |}) <$> ret_val).

(** `int ssh_buf_read_skip(struct SSH_BUF_READER *buf, size_t len)` *)
Definition ssh_buf_read_skip (buf : SSH_BUF_READER) (len : Z) : Z * SSH_BUF_READER :=
  if check_advance (rd_pos buf) len (rd_len buf) <? 0 then (-1, buf)
  else (0, set_pos buf (size_wrap (rd_pos buf + len))).

(** `void ssh_buf_reader_rewind` and `int ssh_buf_reader_seek` *)
Definition ssh_buf_reader_rewind (buf : SSH_BUF_READER) : SSH_BUF_READER :=
  set_pos buf 0.

Definition ssh_buf_reader_seek (buf : SSH_BUF_READER) (new_pos : Z) : Z * SSH_BUF_READER :=
  if new_pos >? rd_len buf then (-1, buf)
  else (0, set_pos buf new_pos).

(** The writers, on the contents `data[0 .. len)` of the `struct SSH_BUFFER`
    they extend.  A store into a `uint8_t` slot keeps the low 8 bits.  The
    capacity and its growth (`ssh_buf_grow`, which fails when `ssh_realloc`
    does) are not part of this model: a packet that cannot be built is a
    packet the transport does not accept, see [Channel.conn_send_packet]. *)
Definition ssh_buf_write_u8 (buf : list Z) (val : Z) : list Z :=
  buf ++ [val mod 256].

Definition ssh_buf_write_u32 (buf : list Z) (val : Z) : list Z :=
  buf ++ [Z.shiftr val 24 mod 256; Z.shiftr val 16 mod 256;
          Z.shiftr val 8 mod 256; val mod 256].

(** `ssh_buf_write_data(buf, val, len)`: the `size_t len` is passed to
    `ssh_buf_write_u32` as a `uint32_t`. *)
Definition ssh_buf_write_data (buf : list Z) (val : list Z) (len : Z) : list Z :=
  ssh_buf_write_u32 buf (len mod 2 ^ 32) ++ take (Z.to_nat len) val.

(** `ssh_buf_write_cstring(buf, val)`, with `strlen(val)` the length of the
    bytes before the terminator. *)
Definition ssh_buf_write_cstring (buf : list Z) (val : list Z) : list Z :=
  ssh_buf_write_data buf val (Z.of_nat (length val)).

(** What the C types give: the elements of `data` are `uint8_t`, `len` is a
    `size_t`. *)
Definition is_byte (b : Z) : Prop := 0 <= b < 256.

Definition reader_wf (buf : SSH_BUF_READER) : Prop :=
  Forall is_byte (rd_data buf) /\ 0 <= rd_len buf <= SIZE_MAX.

(** The reader invariant of the data model. *)
Definition reader_inv (buf : SSH_BUF_READER) : Prop :=
  0 <= rd_pos buf <= rd_len buf.

(** A bounds-checked read of [need] bytes that took [buf] to [buf'] and
    returned [rc]: it advances by [need] when `pos + need <= len` holds for
    the mathematical sum, and fails in place otherwise; the bytes and the
    length are those of [buf], and [buf'] satisfies the invariant. *)
Definition checked_read (need : Z) (buf : SSH_BUF_READER) (rc : Z)
    (buf' : SSH_BUF_READER) : Prop :=
  rd_data buf' = rd_data buf /\ rd_len buf' = rd_len buf /\ reader_inv buf' /\
  if rd_pos buf + need <=? rd_len buf
  then rc = 0 /\ rd_pos buf' = rd_pos buf + need
  else rc = -1 /\ rd_pos buf' = rd_pos buf.

(** A reader for the examples: the string "hi" announced with length 5. *)
Definition truncated_reader : SSH_BUF_READER :=
  {| rd_data := [0; 0; 0; 5; 104; 105]; rd_pos := 0; rd_len := 6 |}.

End Packet.

(* ===================================================================== *)
(** * channel.c *)
(* ===================================================================== *)

Module Channel.
Import Packet.

Definition MAX_POLL_FDS : Z := 8.

(** <poll.h> (Linux values). *)
Definition POLLIN : Z := 1.
Definition POLLPRI : Z := 2.
Definition POLLOUT : Z := 4.
Definition POLLHUP : Z := 16.
Definition POLLWRBAND : Z := 512.

(** ssh/channel.h: `SSH_CHAN_FD_READ (1<<0)`, `SSH_CHAN_FD_WRITE (1<<1)`. *)
Definition SSH_CHAN_FD_READ : Z := 1.
Definition SSH_CHAN_FD_WRITE : Z := 2.

(** Modelled from the spec: `SSH_CHAN_FD_CLOSE`, the third interest flag
    {READ, WRITE, CLOSE}; the header that declares it is missing, the next
    free bit after READ and WRITE is taken. *)
Definition SSH_CHAN_FD_CLOSE : Z := 4.

(** Modelled from the spec: the message numbers of ssh/ssh_constants.h,
    which is missing (section 6, wire formats, RFC 4254). *)
Definition SSH_MSG_GLOBAL_REQUEST : Z := 80.
Definition SSH_MSG_REQUEST_FAILURE : Z := 82.
Definition SSH_MSG_CHANNEL_OPEN : Z := 90.
Definition SSH_MSG_CHANNEL_OPEN_CONFIRMATION : Z := 91.
Definition SSH_MSG_CHANNEL_OPEN_FAILURE : Z := 92.
Definition SSH_MSG_CHANNEL_WINDOW_ADJUST : Z := 93.
Definition SSH_MSG_CHANNEL_DATA : Z := 94.
Definition SSH_MSG_CHANNEL_EXTENDED_DATA : Z := 95.
Definition SSH_MSG_CHANNEL_EOF : Z := 96.
Definition SSH_MSG_CHANNEL_CLOSE : Z := 97.
Definition SSH_MSG_CHANNEL_REQUEST : Z := 98.
Definition SSH_MSG_CHANNEL_SUCCESS : Z := 99.

Definition wrap32 (x : Z) : Z := x mod 2 ^ 32.

Inductive CHAN_STATUS :=
  | CHAN_STATUS_CREATED
  | CHAN_STATUS_REQUESTED
  | CHAN_STATUS_OPEN
  | CHAN_STATUS_CLOSED.

#[global] Instance CHAN_STATUS_eq_dec : EqDecision CHAN_STATUS.
Proof. solve_decision. Defined.

(** `enum SSH_CHAN_TYPE`, of which the source uses `SSH_CHAN_TYPE_SESSION`
    (ssh/channel.h has it as `SSH_CHAN_SESSION`); the field can hold any
    `int`. *)
Inductive SSH_CHAN_TYPE :=
  | SSH_CHAN_TYPE_SESSION
  | SSH_CHAN_TYPE_OTHER (n : Z).

(** `struct SSH_CHAN_SESSION_CONFIG` (ssh/channel.h); C strings are the
    bytes before the terminator. *)
Record SSH_CHAN_SESSION_CONFIG := mkSessionConfig {
  run_command : option (list Z);
  alloc_pty : Z;
  term : list Z;
  term_width : Z;
  term_height : Z
}.

(** `struct pollfd` *)
Record pollfd := mkPollfd {
  fd : Z;
  events : Z;
  revents : Z
}.

Definition set_events (p : pollfd) (e : Z) : pollfd :=
  {| fd := fd p; events := e; revents := revents p |}.
Definition set_revents (p : pollfd) (r : Z) : pollfd :=
  {| fd := fd p; events := events p; revents := r |}.

(** What the host observes, in order.  The callbacks are host code: a call
    is recorded with the channel it is made on (local number and userdata)
    and its arguments; a callback that returns `int` has its result given
    by a function stored in the channel, and the call is recorded with the
    value it returned.  What a callback does to the engine, it does through
    the channel API (`ssh_chan_close`, `ssh_chan_watch_fd`); such a call is
    an operation of its own here ([host_chan_close], [host_chan_watch_fd]),
    not a part of the callback.  `dump_packet_reader` calls are recorded
    with their label; `ssh_log` and `ssh_set_error` messages are not kept. *)
Inductive event :=
  | EvOpen (local_num userdata : Z) (ret : Z)
  | EvOpenFailed (local_num userdata : Z)
  | EvClosed (local_num userdata : Z)
  | EvFdReady (local_num userdata : Z) (fd flags : Z) (ret : Z)
  | EvReceived (local_num userdata : Z) (data : list Z) (data_len : Z)
  | EvDump (label : string).

(** `struct SSH_CHAN`.  `num_watch_fds` is the length of [watch_fds]; the
    `conn` back pointer is the table the channel is stored in.  The
    typedefs of the six callbacks are in a header that is missing; by the
    host contract of the spec `open` and `fd_ready` return `int` and the
    other four return nothing.  The two that return a value are kept as the
    function that gives it: [notify_open local_num userdata] and
    [notify_fd_ready local_num userdata fd flags]. *)
Record SSH_CHAN := mkChan {
  userdata : Z;
  status : CHAN_STATUS;
  watch_fds : list pollfd;
  local_num : Z;
  remote_num : Z;
  local_max_packet_size : Z;
  local_window_size : Z;
  remote_max_packet_size : Z;
  remote_window_size : Z;
  type : SSH_CHAN_TYPE;
  type_config : SSH_CHAN_SESSION_CONFIG;
  notify_open : Z -> Z -> Z;
  notify_fd_ready : Z -> Z -> Z -> Z -> Z
}.

(** Modelled from the spec: `struct SSH_CHAN_CONFIG`, the channel config
    record of the host contract (the header that declares it is missing),
    with the fields `chan_new` reads. *)
Record SSH_CHAN_CONFIG := mkChanConfig {
  cfg_type : SSH_CHAN_TYPE;
  cfg_type_config : SSH_CHAN_SESSION_CONFIG;
  cfg_userdata : Z;
  cfg_notify_open : Z -> Z -> Z;
  cfg_notify_fd_ready : Z -> Z -> Z -> Z -> Z
}.

Definition set_status (c : SSH_CHAN) (s : CHAN_STATUS) : SSH_CHAN :=
  mkChan (userdata c) s (watch_fds c) (local_num c) (remote_num c)
    (local_max_packet_size c) (local_window_size c) (remote_max_packet_size c)
    (remote_window_size c) (type c) (type_config c) (notify_open c) (notify_fd_ready c).

Definition set_watch_fds (c : SSH_CHAN) (w : list pollfd) : SSH_CHAN :=
  mkChan (userdata c) (status c) w (local_num c) (remote_num c)
    (local_max_packet_size c) (local_window_size c) (remote_max_packet_size c)
    (remote_window_size c) (type c) (type_config c) (notify_open c) (notify_fd_ready c).

Definition set_remote_num (c : SSH_CHAN) (v : Z) : SSH_CHAN :=
  mkChan (userdata c) (status c) (watch_fds c) (local_num c) v
    (local_max_packet_size c) (local_window_size c) (remote_max_packet_size c)
    (remote_window_size c) (type c) (type_config c) (notify_open c) (notify_fd_ready c).

Definition set_remote_window_size (c : SSH_CHAN) (v : Z) : SSH_CHAN :=
  mkChan (userdata c) (status c) (watch_fds c) (local_num c) (remote_num c)
    (local_max_packet_size c) (local_window_size c) (remote_max_packet_size c)
    v (type c) (type_config c) (notify_open c) (notify_fd_ready c).

Definition set_remote_max_packet_size (c : SSH_CHAN) (v : Z) : SSH_CHAN :=
  mkChan (userdata c) (status c) (watch_fds c) (local_num c) (remote_num c)
    (local_max_packet_size c) (local_window_size c) v
    (remote_window_size c) (type c) (type_config c) (notify_open c) (notify_fd_ready c).

(** Modelled from the spec: `struct SSH_CONN` (its declaration is missing),
    with the two members channel.c uses, the socket and the channel table
    (`num_channels` is the length of [channels]), and the transport behind
    `ssh_conn_new_packet` and `ssh_conn_send_packet` as the mock transport
    of the end-to-end scenarios: [tx_up] tells whether a packet can be
    allocated, written and enqueued, [tx_sent] holds the payloads enqueued
    so far.  [trace] is the record of what the host observed. *)
Record SSH_CONN := mkConn {
  sock : Z;
  channels : list SSH_CHAN;
  tx_up : bool;
  tx_sent : list (list Z);
  trace : list event
}.

Definition set_channels (conn : SSH_CONN) (chs : list SSH_CHAN) : SSH_CONN :=
  mkConn (sock conn) chs (tx_up conn) (tx_sent conn) (trace conn).

Definition add_trace (conn : SSH_CONN) (evs : list event) : SSH_CONN :=
  mkConn (sock conn) (channels conn) (tx_up conn) (tx_sent conn) (trace conn ++ evs).

(** `conn->channels[i] = c` for the channel a `struct SSH_CHAN *` points to. *)
Definition set_chan (conn : SSH_CONN) (i : nat) (c : SSH_CHAN) : SSH_CONN :=
  set_channels conn (<[i := c]> (channels conn)).

(** `static short chan_flags_to_pollfd_events(int chan_fd_flags)` *)
Definition chan_flags_to_pollfd_events (chan_fd_flags : Z) : Z :=
  let events := 0 in
  let events :=
    if negb (Z.land chan_fd_flags (Z.lor SSH_CHAN_FD_READ SSH_CHAN_FD_CLOSE) =? 0)
    then Z.lor events (Z.lor POLLIN POLLHUP) else events in
  let events :=
    if negb (Z.land chan_fd_flags SSH_CHAN_FD_WRITE =? 0)
    then Z.lor events POLLOUT else events in
  events.

(** `static int pollfd_events_to_chan_flags(short pollfd_events)` *)
Definition pollfd_events_to_chan_flags (pollfd_events : Z) : Z :=
  let flags := 0 in
  let flags :=
    if negb (Z.land pollfd_events (Z.lor POLLIN POLLPRI) =? 0)
    then Z.lor flags SSH_CHAN_FD_READ else flags in
  let flags :=
    if negb (Z.land pollfd_events POLLHUP =? 0)
    then Z.lor flags SSH_CHAN_FD_CLOSE else flags in
  let flags :=
    if negb (Z.land pollfd_events (Z.lor POLLOUT POLLWRBAND) =? 0)
    then Z.lor flags SSH_CHAN_FD_WRITE else flags in
  flags.

(** `static int update_poll_fd_events(struct pollfd *poll_fds,
    nfds_t *num_poll_fds, int fd, short add_events, short remove_events)`:
    the first entry with this fd is updated in place, else an entry is
    appended while there is room.  A slot's `revents` is not written here
    (it is read only after `poll` has filled it); a new entry has 0. *)
Definition update_poll_fd_events (poll_fds : list pollfd) (fd0 : Z)
    (add_events remove_events : Z) : Z * list pollfd :=
  match list_find (fun p => fd p = fd0) poll_fds with
  | Some (i, p) =>
      (0, <[i := set_events p (Z.land (Z.lor (events p) add_events)
                                      (Z.lnot remove_events))]> poll_fds)
  | None =>
      if Z.of_nat (length poll_fds) <? MAX_POLL_FDS
      then (0, poll_fds ++ [ {| fd := fd0;
                                events := Z.land add_events (Z.lnot remove_events);
                                revents := 0 |} ])
      else (-1, poll_fds)
  end.

(** The allocation loop of `chan_new`:
    `for (i = 0; i < n; i++) if (channels[i]->local_num == local_num)
       { local_num++; i = 0; }`
    one iteration per unit of fuel; after a match the body sets `i = 0` and
    the loop's own `i++` makes it 1 before the next test. *)
Fixpoint chan_new_local_num (fuel : nat) (chs : list SSH_CHAN) (i : nat) (local_num : Z)
  : option Z :=
  match fuel with
  | O => None
  | S fuel' =>
      match chs !! i with
      | None => Some local_num
      | Some c =>
          if Channel.local_num c =? local_num
          then chan_new_local_num fuel' chs (0 + 1)%nat (wrap32 (local_num + 1))
          else chan_new_local_num fuel' chs (i + 1)%nat local_num
      end
  end.

(** Iterations after which the allocation loop has returned whenever the
    table has fewer than 2^32 entries (lemma [chan_new_local_num_returns]). *)
Definition chan_new_fuel (chs : list SSH_CHAN) : nat :=
  (S (length chs) * S (length chs))%nat.

(** Result of `chan_new`: the allocation loop is still running when the
    fuel is spent, `ssh_alloc` returned NULL, or the new channel is stored
    at index [i] of the table. *)
Inductive chan_new_result :=
  | ChanNewLoops
  | ChanNewNull
  | ChanNew (conn : SSH_CONN) (i : nat).

(** `static struct SSH_CHAN *chan_new(struct SSH_CONN *conn,
    const struct SSH_CHAN_CONFIG *cfg)`; [alloc_ok] tells whether
    `ssh_alloc` succeeds. *)
Definition chan_new (alloc_ok : bool) (conn : SSH_CONN) (cfg : SSH_CHAN_CONFIG)
  : chan_new_result :=
  match chan_new_local_num (chan_new_fuel (channels conn)) (channels conn) 0%nat 0 with
  | None => ChanNewLoops
  | Some local_num =>
      if negb alloc_ok then ChanNewNull
      else
        let chan :=
          {| userdata := cfg_userdata cfg;
             status := CHAN_STATUS_REQUESTED;
             watch_fds := [];
             local_num := local_num;
             remote_num := 0;
             local_max_packet_size := 65536;
             local_window_size := 256 * 1024;
             remote_max_packet_size := 0;
             remote_window_size := 0;
             type := cfg_type cfg;
             type_config := cfg_type_config cfg;
             notify_open := cfg_notify_open cfg;
             notify_fd_ready := cfg_notify_fd_ready cfg |} in
        ChanNew (set_channels conn (channels conn ++ [chan])) (length (channels conn))
  end.

(** `static struct SSH_CHAN *chan_get_by_num(struct SSH_CONN *conn,
    uint32_t local_num)`: the first channel with this number, with its
    index in the table; [None] is NULL. *)
Definition chan_get_by_num (conn : SSH_CONN) (local_num : Z) : option (nat * SSH_CHAN) :=
  list_find (fun c => Channel.local_num c = local_num) (channels conn).

(** `uint32_t ssh_chan_get_num(struct SSH_CHAN *chan)` *)
Definition ssh_chan_get_num (chan : SSH_CHAN) : Z := local_num chan.

(** `void ssh_chan_close(struct SSH_CHAN *chan)`: the calls it makes to the
    host and the channel afterwards. *)
Definition ssh_chan_close (chan : SSH_CHAN) : list event * SSH_CHAN :=
  if decide (status chan = CHAN_STATUS_OPEN)
  then ([EvClosed (local_num chan) (userdata chan)], set_status chan CHAN_STATUS_CLOSED)
  else ([], chan).

(** `static void chan_remove_closed_channels(struct SSH_CONN *conn)`: each
    CLOSED entry is cut out by the `memmove` of the tail, the others keep
    their order. *)
Definition chan_remove_closed_channels (conn : SSH_CONN) : SSH_CONN :=
  set_channels conn (filter (fun c => status c <> CHAN_STATUS_CLOSED) (channels conn)).

(** `int ssh_chan_send(...)` and `int ssh_chan_send_ext(...)`: stubs that
    log a warning and return 0. *)
Definition ssh_chan_send (chan : SSH_CHAN) (data : list Z) (data_len : Z) : Z := 0.
Definition ssh_chan_send_ext (chan : SSH_CHAN) (data_type_code : Z)
    (data : list Z) (data_len : Z) : Z := 0.

(** `int ssh_chan_watch_fd(struct SSH_CHAN *chan, int fd,
    uint8_t enable_fd_flags, uint8_t disable_fd_flags)` *)
Definition ssh_chan_watch_fd (chan : SSH_CHAN) (fd0 : Z)
    (enable_fd_flags disable_fd_flags : Z) : Z * SSH_CHAN :=
  let enable_events := chan_flags_to_pollfd_events enable_fd_flags in
  let disable_events := chan_flags_to_pollfd_events disable_fd_flags in
  let '(rc, fds) :=
    update_poll_fd_events (watch_fds chan) fd0 enable_events disable_events in
  if (rc <? 0) && negb (enable_events =? 0) then (-1, set_watch_fds chan fds)
  else (0, set_watch_fds chan (filter (fun p => events p <> 0) fds)).

(** The inner loop of `chan_notify_channels_watch_fds` for one channel: one
    `notify_fd_ready` call per watch entry on the polled fd.  The value the
    callback returns is not used by the source. *)
Definition chan_notify_watch_fds (chan : SSH_CHAN) (poll_fd : pollfd) : list event :=
  flat_map
    (fun w =>
       if negb (revents poll_fd =? 0) && (fd poll_fd =? fd w)
       then
         let flags := pollfd_events_to_chan_flags (revents poll_fd) in
         let ret := notify_fd_ready chan (local_num chan) (userdata chan) (fd poll_fd) flags in
         [EvFdReady (local_num chan) (userdata chan) (fd poll_fd) flags ret]
       else [])
    (watch_fds chan).

(** `static void chan_notify_channels_watch_fds(struct SSH_CONN *conn,
    struct pollfd *poll_fd)` *)
Definition chan_notify_channels_watch_fds (conn : SSH_CONN) (poll_fd : pollfd) : SSH_CONN :=
  add_trace conn (flat_map (fun chan => chan_notify_watch_fds chan poll_fd) (channels conn)).

(** Modelled from the spec: `ssh_conn_new_packet` followed by the writes
    and `ssh_conn_send_packet` (connection.c is missing).  The source
    returns -1 as soon as one link of the chain fails; the mock transport
    accepts the whole packet or none ([None]). *)
Definition conn_send_packet (conn : SSH_CONN) (payload : list Z) : option SSH_CONN :=
  if tx_up conn
  then Some (mkConn (sock conn) (channels conn) (tx_up conn)
                    (tx_sent conn ++ [payload]) (trace conn))
  else None.

(** The bytes of a C string literal. *)
Definition cstr (s : string) : list Z :=
  map (fun a => Z.of_N (Ascii.N_of_ascii a)) (list_ascii_of_string s).

(** `static int chan_handle_global_request(struct SSH_CONN *conn,
    struct SSH_BUF_READER *pack)` *)
Definition chan_handle_global_request (conn : SSH_CONN) (pack : SSH_BUF_READER)
  : Z * SSH_CONN :=
  let '(rc, pack) := ssh_buf_read_skip pack 1 in
  if rc <? 0 then (-1, conn) else
  let '(rc, pack, req_name) := ssh_buf_read_string pack (Some (mkString [] 0)) in
  if rc <? 0 then (-1, conn) else
  let '(rc, pack, want_reply) := ssh_buf_read_u8 pack (Some 0) in
  if rc <? 0 then (-1, conn) else
  if negb (default 0 want_reply =? 0) then
    let reply := [] in
    let reply := ssh_buf_write_u8 reply SSH_MSG_REQUEST_FAILURE in
    match conn_send_packet conn reply with
    | None => (-1, conn)
    | Some conn => (0, conn)
    end
  else (0, conn).

(** `chan_get_type_data(type)->name`; [None] is NULL. *)
Definition chan_get_type_data (t : SSH_CHAN_TYPE) : option (list Z) :=
  match t with
  | SSH_CHAN_TYPE_SESSION => Some (cstr "session")
  | SSH_CHAN_TYPE_OTHER _ => None
  end.

(** `static int chan_send_channel_open(struct SSH_CONN *conn,
    struct SSH_CHAN *chan)` *)
Definition chan_send_channel_open (conn : SSH_CONN) (chan : SSH_CHAN) : Z * SSH_CONN :=
  match chan_get_type_data (type chan) with
  | None => (-1, conn)
  | Some name =>
      let pack := [] in
      let pack := ssh_buf_write_u8 pack SSH_MSG_CHANNEL_OPEN in
      let pack := ssh_buf_write_cstring pack name in
      let pack := ssh_buf_write_u32 pack (local_num chan) in
      let pack := ssh_buf_write_u32 pack (local_window_size chan) in
      let pack := ssh_buf_write_u32 pack (local_max_packet_size chan) in
      match conn_send_packet conn pack with
      | None => (-1, conn)
      | Some conn => (0, conn)
      end
  end.

(** The `SSH_CHAN_TYPE_SESSION` case of CHANNEL_OPEN_CONFIRMATION: the
    `pty-req` request, then the `shell` request. *)
Definition chan_send_session_requests (conn : SSH_CONN) (chan : SSH_CHAN) : Z * SSH_CONN :=
  let cfg := type_config chan in
  let wpack := [] in
  let wpack := ssh_buf_write_u8 wpack SSH_MSG_CHANNEL_REQUEST in
  let wpack := ssh_buf_write_u32 wpack (remote_num chan) in
  let wpack := ssh_buf_write_cstring wpack (cstr "pty-req") in
  let wpack := ssh_buf_write_u8 wpack 0 in
  let wpack := ssh_buf_write_cstring wpack (term cfg) in
  let wpack := ssh_buf_write_u32 wpack (term_width cfg) in
  let wpack := ssh_buf_write_u32 wpack (term_height cfg) in
  let wpack := ssh_buf_write_u32 wpack 0 in
  let wpack := ssh_buf_write_u32 wpack 0 in
  let wpack := ssh_buf_write_cstring wpack (cstr EmptyString) in
  match conn_send_packet conn wpack with
  | None => (-1, conn)
  | Some conn =>
      let wpack := [] in
      let wpack := ssh_buf_write_u8 wpack SSH_MSG_CHANNEL_REQUEST in
      let wpack := ssh_buf_write_u32 wpack (remote_num chan) in
      let wpack := ssh_buf_write_cstring wpack (cstr "shell") in
      let wpack := ssh_buf_write_u8 wpack 1 in
      match conn_send_packet conn wpack with
      | None => (-1, conn)
      | Some conn => (0, conn)
      end
  end.

(** `static int chan_process_channel_packet(struct SSH_CONN *conn,
    struct SSH_BUF_READER *pack)`.  `chan` points into the table: a store
    through it is [set_chan] at the index [chan_get_by_num] found.  The
    three reads of CHANNEL_OPEN_CONFIRMATION store into the channel one
    after the other, so the earlier stores stay when a later read fails. *)
Definition chan_process_channel_packet (conn : SSH_CONN) (pack : SSH_BUF_READER)
  : Z * SSH_CONN :=
  let '(rc, pack, pack_type) := ssh_buf_read_u8 pack (Some 0) in
  if rc <? 0 then (-1, conn) else
  let pack_type := default 0 pack_type in
  let '(rc, pack, local_num) := ssh_buf_read_u32 pack (Some 0) in
  if rc <? 0 then (-1, conn) else
  let local_num := default 0 local_num in
  match chan_get_by_num conn local_num with
  | None => (-1, conn)
  | Some (i, chan) =>
      if pack_type =? SSH_MSG_CHANNEL_OPEN_CONFIRMATION then
        let '(rc, pack, v) := ssh_buf_read_u32 pack (Some (remote_num chan)) in
        let chan := set_remote_num chan (default 0 v) in
        let conn := set_chan conn i chan in
        if rc <? 0 then (-1, conn) else
        let '(rc, pack, v) := ssh_buf_read_u32 pack (Some (remote_window_size chan)) in
        let chan := set_remote_window_size chan (default 0 v) in
        let conn := set_chan conn i chan in
        if rc <? 0 then (-1, conn) else
        let '(rc, pack, v) := ssh_buf_read_u32 pack (Some (remote_max_packet_size chan)) in
        let chan := set_remote_max_packet_size chan (default 0 v) in
        let conn := set_chan conn i chan in
        if rc <? 0 then (-1, conn) else
        match type chan with
        | SSH_CHAN_TYPE_SESSION => chan_send_session_requests conn chan
        | SSH_CHAN_TYPE_OTHER _ => (0, conn)
        end
      else if pack_type =? SSH_MSG_CHANNEL_OPEN_FAILURE then
        (0, add_trace conn [EvOpenFailed (Channel.local_num chan) (userdata chan)])
      else if pack_type =? SSH_MSG_CHANNEL_SUCCESS then
        let chan := set_status chan CHAN_STATUS_OPEN in
        let ret := notify_open chan (Channel.local_num chan) (userdata chan) in
        let conn :=
          add_trace (set_chan conn i chan)
                    [EvOpen (Channel.local_num chan) (userdata chan) ret] in
        if ret <? 0 then
          let '(evs, chan) := ssh_chan_close chan in
          (0, add_trace (set_chan conn i chan) evs)
        else (0, conn)
      else if pack_type =? SSH_MSG_CHANNEL_DATA then
        let '(rc, pack, data) := ssh_buf_read_string pack (Some (mkString [] 0)) in
        if rc <? 0 then (-1, conn) else
        let data := default (mkString [] 0) data in
        (0, add_trace conn [EvReceived (Channel.local_num chan) (userdata chan)
                                       (ssh_str_bytes data) (str_len data)])
      else
        (0, add_trace conn [EvDump "unhandled channel packet"])
  end.

(** Modelled from the spec: `ssh_packet_get_type` (missing), the first
    byte of the packet, read without moving the cursor. *)
Definition ssh_packet_get_type (pack : SSH_BUF_READER) : Z :=
  byte_at (rd_data pack) 0.

(** The `switch` in the body of the loop of `chan_process_packets`, for one
    received packet. *)
Definition chan_process_packet (conn : SSH_CONN) (pack : SSH_BUF_READER) : Z * SSH_CONN :=
  let t := ssh_packet_get_type pack in
  if t =? SSH_MSG_GLOBAL_REQUEST then
    chan_handle_global_request conn pack
  else if (t =? SSH_MSG_CHANNEL_OPEN_CONFIRMATION)
          || (t =? SSH_MSG_CHANNEL_OPEN_FAILURE)
          || (t =? SSH_MSG_CHANNEL_SUCCESS)
          || (t =? SSH_MSG_CHANNEL_WINDOW_ADJUST)
          || (t =? SSH_MSG_CHANNEL_DATA) then
    chan_process_channel_packet conn pack
  else
    (0, add_trace conn [EvDump "received unknown packet"]).

(** What one call of `ssh_conn_recv_packet` gives: a decrypted packet, or
    NULL with an errno other than EWOULDBLOCK.  A list of them is what the
    successive calls give; at its end the call gives NULL with EWOULDBLOCK. *)
Inductive rx_item :=
  | RxPacket (payload : list Z)
  | RxError.

(** `static int chan_process_packets(struct SSH_CONN *conn)` *)
Fixpoint chan_process_packets (rx : list rx_item) (conn : SSH_CONN) : Z * SSH_CONN :=
  match rx with
  | [] => (0, conn)
  | RxError :: _ => (-1, conn)
  | RxPacket payload :: rx' =>
      let pack := ssh_buf_reader_new payload (Z.of_nat (length payload)) in
      let '(rc, conn) := chan_process_packet conn pack in
      if rc <? 0 then (-1, conn)
      else chan_process_packets rx' conn
  end.

(** What the environment does during one iteration of `chan_loop`. *)
Record poll_outcome := mkPoll {
  po_send_pending : bool;        (* ssh_conn_send_is_pending(conn) *)
  po_rc : Z;                     (* the value poll() returns *)
  po_eintr : bool;               (* errno == EINTR after a failed poll() *)
  po_revents : Z -> Z;           (* the revents poll() reports for an fd *)
  po_rx : list rx_item;          (* what ssh_conn_recv_packet gives *)
  po_flush_rc : Z;               (* the value ssh_conn_send_flush() returns *)
  po_flush_ewouldblock : bool    (* errno == EWOULDBLOCK after a failed flush *)
}.

(** How a run of the engine ends: it returns, it waits in `poll` for an
    event the environment does not deliver, or the allocation loop of
    `chan_new` is still running when its fuel is spent. *)
Inductive outcome :=
  | Returns (rc : Z) (conn : SSH_CONN)
  | Blocked (conn : SSH_CONN)
  | Loops.

(** The poll set of one iteration: the socket, then every watch of every
    channel merged in (the result of `update_poll_fd_events` is not
    looked at, a watch that does not fit is left out). *)
Definition chan_loop_poll_fds (conn : SSH_CONN) (send_pending : bool) : list pollfd :=
  let poll_fds :=
    [ {| fd := sock conn;
         events := if send_pending then Z.lor POLLIN POLLOUT else POLLIN;
         revents := 0 |} ] in
  fold_left
    (fun poll_fds chan =>
       fold_left
         (fun poll_fds w => snd (update_poll_fd_events poll_fds (fd w) (events w) 0))
         (watch_fds chan) poll_fds)
    (channels conn) poll_fds.

(** `static int chan_loop(struct SSH_CONN *conn)`, one iteration per
    element of the environment's script. *)
Fixpoint chan_loop (script : list poll_outcome) (conn : SSH_CONN) : outcome :=
  let conn := chan_remove_closed_channels conn in
  if Z.of_nat (length (channels conn)) =? 0 then Returns 0 conn
  else
    match script with
    | [] => Blocked conn
    | po :: script' =>
        let poll_fds := chan_loop_poll_fds conn (po_send_pending po) in
        if po_rc po <? 0 then
          if po_eintr po then chan_loop script' conn
          else Returns (-1) conn
        else
          let poll_fds := map (fun p => set_revents p (po_revents po (fd p))) poll_fds in
          let revents0 := default 0 (revents <$> poll_fds !! 0%nat) in
          let '(rc, conn) :=
            if negb (Z.land revents0 POLLIN =? 0)
            then chan_process_packets (po_rx po) conn
            else (0, conn) in
          if rc <? 0 then Returns (-1) conn
          else
            if negb (Z.land revents0 POLLOUT =? 0)
               && (po_flush_rc po <? 0) && negb (po_flush_ewouldblock po)
            then Returns (-1) conn
            else
              let conn := fold_left chan_notify_channels_watch_fds (drop 1 poll_fds) conn in
              chan_loop script' conn
    end.

(** `static void chan_close_all_channels(struct SSH_CONN *conn)` *)
Definition chan_close_all_channels (conn : SSH_CONN) : SSH_CONN :=
  let closed := map ssh_chan_close (channels conn) in
  let conn := add_trace (set_channels conn (map snd closed)) (concat (map fst closed)) in
  chan_remove_closed_channels conn.

(** The registration loop of `ssh_chan_run_connection`. *)
Fixpoint chan_open_channels (alloc_ok : bool) (conn : SSH_CONN)
    (channel_cfgs : list SSH_CHAN_CONFIG) : outcome :=
  match channel_cfgs with
  | [] => Returns 0 conn
  | cfg :: cfgs =>
      match chan_new alloc_ok conn cfg with
      | ChanNewLoops => Loops
      | ChanNewNull => Returns (-1) conn
      | ChanNew conn i =>
          match channels conn !! i with
          | None => Returns (-1) conn
          | Some chan =>
              let '(rc, conn) := chan_send_channel_open conn chan in
              if rc <? 0 then Returns (-1) conn
              else
                let conn := set_chan conn i (set_status chan CHAN_STATUS_REQUESTED) in
                chan_open_channels alloc_ok conn cfgs
          end
      end
  end.

(** `int ssh_chan_run_connection(struct SSH_CONN *conn, int num_channels,
    const struct SSH_CHAN_CONFIG *channel_cfgs)`; [set_blocking_rc] is the
    value `ssh_net_set_sock_blocking` returns, `num_channels` the length
    of [channel_cfgs]. *)
Definition ssh_chan_run_connection (set_blocking_rc : Z) (alloc_ok : bool)
    (script : list poll_outcome) (conn : SSH_CONN)
    (channel_cfgs : list SSH_CHAN_CONFIG) : outcome :=
  if set_blocking_rc <? 0 then Returns (-1) conn
  else
    match chan_open_channels alloc_ok conn channel_cfgs with
    | Returns rc conn =>
        if rc <? 0 then Returns (-1) conn
        else
          match chan_loop script conn with
          | Returns rc conn =>
              if rc <? 0 then Returns (-1) (chan_close_all_channels conn)
              else Returns 0 (chan_close_all_channels conn)
          | other => other
          end
    | other => other
    end.

(** The interest a poll set has in an fd: the `events` of the first entry
    for it, the one `update_poll_fd_events` works on, and 0 when it has no
    entry. *)
Fixpoint watch_interest (poll_fds : list pollfd) (fd0 : Z) : Z :=
  match poll_fds with
  | [] => 0
  | p :: rest => if fd p =? fd0 then events p else watch_interest rest fd0
  end.

(** What holds of the watch set of a channel between two calls: one entry
    per fd, no entry without interest, at most MAX_POLL_FDS entries. *)
Definition watch_set_ok (fds : list pollfd) : Prop :=
  NoDup (fd <$> fds) /\ Forall (fun p => events p <> 0) fds /\
  Z.of_nat (length fds) <= MAX_POLL_FDS.

(** ** The host and the peer of the scenarios *)

(** A call the host makes on a channel of the table through its
    `struct SSH_CHAN *`. *)
Definition host_chan_close (conn : SSH_CONN) (i : nat) : SSH_CONN :=
  match channels conn !! i with
  | None => conn
  | Some chan =>
      let '(evs, chan) := ssh_chan_close chan in
      add_trace (set_chan conn i chan) evs
  end.

Definition host_chan_watch_fd (conn : SSH_CONN) (i : nat) (fd0 : Z)
    (enable_fd_flags disable_fd_flags : Z) : Z * SSH_CONN :=
  match channels conn !! i with
  | None => (-1, conn)
  | Some chan =>
      let '(rc, chan) := ssh_chan_watch_fd chan fd0 enable_fd_flags disable_fd_flags in
      (rc, set_chan conn i chan)
  end.

(** [n] successive calls of `ssh_chan_close` on one channel. *)
Fixpoint ssh_chan_close_times (n : nat) (chan : SSH_CHAN) : list event * SSH_CHAN :=
  match n with
  | O => ([], chan)
  | S n' =>
      let '(evs, chan) := ssh_chan_close chan in
      let '(evs', chan) := ssh_chan_close_times n' chan in
      (evs ++ evs', chan)
  end.

Definition is_closed_event (e : event) : bool :=
  match e with
  | EvClosed _ _ => true
  | _ => false
  end.

(** The packets of the peer, in the wire formats of section 6. *)
Definition pkt_channel_open_confirmation (recipient sender window max_packet : Z) : list Z :=
  ssh_buf_write_u32 (ssh_buf_write_u32 (ssh_buf_write_u32 (ssh_buf_write_u32
    (ssh_buf_write_u8 [] SSH_MSG_CHANNEL_OPEN_CONFIRMATION)
    recipient) sender) window) max_packet.

Definition pkt_channel_open_failure (recipient reason : Z) (desc lang : list Z) : list Z :=
  ssh_buf_write_cstring (ssh_buf_write_cstring (ssh_buf_write_u32 (ssh_buf_write_u32
    (ssh_buf_write_u8 [] SSH_MSG_CHANNEL_OPEN_FAILURE)
    recipient) reason) desc) lang.

Definition pkt_channel_window_adjust (recipient bytes : Z) : list Z :=
  ssh_buf_write_u32 (ssh_buf_write_u32
    (ssh_buf_write_u8 [] SSH_MSG_CHANNEL_WINDOW_ADJUST) recipient) bytes.

Definition pkt_channel_data (recipient : Z) (data : list Z) : list Z :=
  ssh_buf_write_data (ssh_buf_write_u32
    (ssh_buf_write_u8 [] SSH_MSG_CHANNEL_DATA) recipient)
    data (Z.of_nat (length data)).

Definition pkt_channel_eof (recipient : Z) : list Z :=
  ssh_buf_write_u32 (ssh_buf_write_u8 [] SSH_MSG_CHANNEL_EOF) recipient.

Definition pkt_channel_close (recipient : Z) : list Z :=
  ssh_buf_write_u32 (ssh_buf_write_u8 [] SSH_MSG_CHANNEL_CLOSE) recipient.

Definition pkt_channel_success (recipient : Z) : list Z :=
  ssh_buf_write_u32 (ssh_buf_write_u8 [] SSH_MSG_CHANNEL_SUCCESS) recipient.

(** A session on an 80x24 xterm, and a host whose `open` and `fd_ready`
    callbacks return [open_ret] and [fd_ret]. *)
Definition xterm_session : SSH_CHAN_SESSION_CONFIG :=
  {| run_command := None; alloc_pty := 1; term := cstr "xterm";
     term_width := 80; term_height := 24 |}.

Definition host_cfg (ud open_ret fd_ret : Z) : SSH_CHAN_CONFIG :=
  {| cfg_type := SSH_CHAN_TYPE_SESSION;
     cfg_type_config := xterm_session;
     cfg_userdata := ud;
     cfg_notify_open := fun _ _ => open_ret;
     cfg_notify_fd_ready := fun _ _ _ _ => fd_ret |}.

(** A fresh connection on socket 3 over a working transport. *)
Definition fresh_conn : SSH_CONN :=
  {| sock := 3; channels := []; tx_up := true; tx_sent := []; trace := [] |}.

(** One iteration in which `poll` reports [revents_of] and the transport
    delivers [rx]. *)
Definition poll_with (revents_of : Z -> Z) (rx : list rx_item) : poll_outcome :=
  {| po_send_pending := false; po_rc := 1; po_eintr := false;
     po_revents := revents_of; po_rx := rx;
     po_flush_rc := 0; po_flush_ewouldblock := false |}.

Definition socket_readable (fd0 : Z) : Z := if fd0 =? 3 then POLLIN else 0.

(** The table after the registration of [cfgs] on [conn]. *)
Definition registered (conn : SSH_CONN) (cfgs : list SSH_CHAN_CONFIG) : SSH_CONN :=
  match chan_open_channels true conn cfgs with
  | Returns _ conn => conn
  | _ => conn
  end.

(** The connection an outcome ends with. *)
Definition outcome_conn (o : outcome) : option SSH_CONN :=
  match o with
  | Returns _ conn => Some conn
  | Blocked conn => Some conn
  | Loops => None
  end.

(** One registered session (REQUESTED), and the same after the peer's
    CHANNEL_OPEN_CONFIRMATION (remote 7, window 131072, max packet 32768)
    and CHANNEL_SUCCESS (OPEN). *)
Definition one_requested : SSH_CONN := registered fresh_conn [host_cfg 100 0 0].

Definition one_open : SSH_CONN :=
  (chan_process_packets
     [RxPacket (pkt_channel_open_confirmation 0 7 131072 32768);
      RxPacket (pkt_channel_success 0)] one_requested).2.

(** Two OPEN sessions; the `fd_ready` callback of the first returns -1.
    The first watches fd 5 and the second fd 6, both for reading. *)
Definition two_open : SSH_CONN :=
  (chan_process_packets
     [RxPacket (pkt_channel_open_confirmation 0 7 131072 32768);
      RxPacket (pkt_channel_success 0);
      RxPacket (pkt_channel_open_confirmation 1 8 131072 32768);
      RxPacket (pkt_channel_success 1)]
     (registered fresh_conn [host_cfg 100 0 (-1); host_cfg 101 0 0])).2.

Definition two_watching : SSH_CONN :=
  (host_chan_watch_fd
     (host_chan_watch_fd two_open 0 5 SSH_CHAN_FD_READ 0).2
     1 6 SSH_CHAN_FD_READ 0).2.

Definition fd5_readable (fd0 : Z) : Z := if fd0 =? 5 then POLLIN else 0.

(** The first run of the engine on a fresh connection: two sessions are
    registered, the peer confirms and opens channel 0, then the transport
    fails.  The second run registers two more sessions on the connection
    the first run leaves behind. *)
Definition first_run : outcome :=
  ssh_chan_run_connection 0 true
    [poll_with socket_readable
       [RxPacket (pkt_channel_open_confirmation 0 7 131072 32768);
        RxPacket (pkt_channel_success 0);
        RxError]]
    fresh_conn [host_cfg 100 0 0; host_cfg 101 0 0].

Definition second_run : outcome :=
  match outcome_conn first_run with
  | Some conn =>
      ssh_chan_run_connection 0 true [] conn [host_cfg 102 0 0; host_cfg 103 0 0]
  | None => Loops
  end.

(** The numbers and the userdata of the channels of the table. *)
Definition table_nums (conn : SSH_CONN) : list (Z * Z) :=
  map (fun c => (local_num c, userdata c)) (channels conn).

(** An OPEN channel outside any table. *)
Definition open_chan : SSH_CHAN :=
  {| userdata := 100; status := CHAN_STATUS_OPEN; watch_fds := [];
     local_num := 0; remote_num := 7;
     local_max_packet_size := 65536; local_window_size := 256 * 1024;
     remote_max_packet_size := 32768; remote_window_size := 131072;
     type := SSH_CHAN_TYPE_SESSION; type_config := xterm_session;
     notify_open := fun _ _ => 0; notify_fd_ready := fun _ _ _ _ => 0 |}.

End Channel.

(* ===================================================================== *)
(** * packet.c: the buffer, the strings and the rest of the reader *)
(* ===================================================================== *)

Module Buffer.
Import Packet.

Definition BUFFER_GROW_SIZE : Z := 256.

(** `struct SSH_BUFFER { uint8_t *data; size_t len; size_t cap; }`.
    [buf_data] holds the bytes `data[0 .. len)`, `len` is its length; the
    bytes between `len` and `cap` have no defined content. *)
Record SSH_BUFFER := mkBuffer {
  buf_data : list Z;
  buf_cap : Z
}.

Definition buf_len (buf : SSH_BUFFER) : Z := Z.of_nat (length (buf_data buf)).

Definition set_buf_data (buf : SSH_BUFFER) (data : list Z) : SSH_BUFFER :=
  {| buf_data := data; buf_cap := buf_cap buf |}.

(** `struct SSH_BUFFER ssh_buf_new(void)` and `void ssh_buf_free(...)` *)
Definition ssh_buf_new : SSH_BUFFER := {| buf_data := []; buf_cap := 0 |}.

Definition ssh_buf_free (buf : SSH_BUFFER) : SSH_BUFFER :=
  {| buf_data := []; buf_cap := 0 |}.

(** `struct SSH_BUFFER ssh_buf_new_from_data(uint8_t *data, size_t len)` *)
Definition ssh_buf_new_from_data (data : list Z) (len : Z) : SSH_BUFFER :=
  {| buf_data := take (Z.to_nat len) data; buf_cap := len |}.

(** `void ssh_buf_clear(struct SSH_BUFFER *buf)`: `len = 0`, the storage
    stays. *)
Definition ssh_buf_clear (buf : SSH_BUFFER) : SSH_BUFFER :=
  set_buf_data buf [].

(** `int ssh_buf_grow(struct SSH_BUFFER *buf, size_t add_len)`.
    [alloc n] tells whether `ssh_realloc(buf->data, n)` succeeds; a
    successful `realloc` keeps the bytes. *)
Definition ssh_buf_grow (alloc : Z -> bool) (buf : SSH_BUFFER) (add_len : Z)
  : Z * SSH_BUFFER :=
  let '(rc, new_cap) := checked_add 0 (buf_len buf) add_len in
  if rc <? 0 then (-1, buf)
  else if buf_cap buf >=? new_cap then (0, buf)
  else
    let '(rc, new_cap) := checked_add new_cap new_cap (BUFFER_GROW_SIZE + 1) in
    if rc <? 0 then (-1, buf)
    else
      let new_cap := new_cap / BUFFER_GROW_SIZE * BUFFER_GROW_SIZE in
      if negb (alloc new_cap) then (-1, buf)
      else (0, {| buf_data := buf_data buf; buf_cap := new_cap |}).

(** `int ssh_buf_ensure_size(struct SSH_BUFFER *buf, size_t new_len)`;
    `new_len - buf->len` is a `size_t` difference. *)
Definition ssh_buf_ensure_size (alloc : Z -> bool) (buf : SSH_BUFFER) (new_len : Z)
  : Z * SSH_BUFFER :=
  if buf_cap buf >=? new_len then (0, buf)
  else ssh_buf_grow alloc buf (size_wrap (new_len - buf_len buf)).

(** `uint8_t *ssh_buf_get_write_pointer(struct SSH_BUFFER *buf, size_t len)`:
    the offset of the returned pointer in `data` ([None] is NULL).  The
    [len] bytes it makes part of the buffer are not written yet (0 here). *)
Definition ssh_buf_get_write_pointer (alloc : Z -> bool) (buf : SSH_BUFFER) (len : Z)
  : option Z * SSH_BUFFER :=
  let '(rc, buf) := ssh_buf_grow alloc buf len in
  if rc <? 0 then (None, buf)
  else (Some (buf_len buf),
        set_buf_data buf (buf_data buf ++ replicate (Z.to_nat len) 0)).

(** `memcpy(data + off, src, n)` on the bytes of the buffer. *)
Definition memcpy_at (data : list Z) (off : Z) (src : list Z) (n : Z) : list Z :=
  take (Z.to_nat off) data ++ take (Z.to_nat n) src ++ drop (Z.to_nat (off + n)) data.

(** `int ssh_buf_write_u8(struct SSH_BUFFER *buf, uint8_t val)` *)
Definition ssh_buf_write_u8 (alloc : Z -> bool) (buf : SSH_BUFFER) (val : Z)
  : Z * SSH_BUFFER :=
  let '(rc, buf) := ssh_buf_grow alloc buf 1 in
  if rc <? 0 then (-1, buf)
  else (0, set_buf_data buf (buf_data buf ++ [val mod 256])).

(** `int ssh_buf_write_u32(struct SSH_BUFFER *buf, uint32_t val)` *)
Definition ssh_buf_write_u32 (alloc : Z -> bool) (buf : SSH_BUFFER) (val : Z)
  : Z * SSH_BUFFER :=
  let '(rc, buf) := ssh_buf_grow alloc buf 4 in
  if rc <? 0 then (-1, buf)
  else
    let data := buf_data buf in
    let data := data ++ [Z.shiftr val 24 mod 256] in
    let data := data ++ [Z.shiftr val 16 mod 256] in
    let data := data ++ [Z.shiftr val 8 mod 256] in
    let data := data ++ [val mod 256] in
    (0, set_buf_data buf data).

(** `int ssh_buf_write_data(struct SSH_BUFFER *buf, const uint8_t *val,
    size_t len)`; `ssh_buf_write_u32(buf, len)` converts the `size_t` to
    `uint32_t`. *)
Definition ssh_buf_write_data (alloc : Z -> bool) (buf : SSH_BUFFER)
    (val : list Z) (len : Z) : Z * SSH_BUFFER :=
  let '(rc, buf) := ssh_buf_write_u32 alloc buf (len mod 2 ^ 32) in
  if rc <? 0 then (-1, buf)
  else
    let '(p, buf) := ssh_buf_get_write_pointer alloc buf len in
    match p with
    | None => (-1, buf)
    | Some p => (0, set_buf_data buf (memcpy_at (buf_data buf) p val len))
    end.

(** `int ssh_buf_write_cstring(struct SSH_BUFFER *buf, const char *val)` *)
Definition ssh_buf_write_cstring (alloc : Z -> bool) (buf : SSH_BUFFER) (val : list Z)
  : Z * SSH_BUFFER :=
  ssh_buf_write_data alloc buf val (Z.of_nat (length val)).

(** `int ssh_buf_write_string(struct SSH_BUFFER *buf, const struct SSH_STRING *val)` *)
Definition ssh_buf_write_string (alloc : Z -> bool) (buf : SSH_BUFFER) (val : SSH_STRING)
  : Z * SSH_BUFFER :=
  ssh_buf_write_data alloc buf (str_ptr val) (str_len val).

(** `int ssh_buf_write_buffer(struct SSH_BUFFER *buf, const struct SSH_BUFFER *val)` *)
Definition ssh_buf_write_buffer (alloc : Z -> bool) (buf val : SSH_BUFFER)
  : Z * SSH_BUFFER :=
  ssh_buf_write_data alloc buf (buf_data val) (buf_len val).

(** `int ssh_buf_write_buf_reader(...)`: all of `val->data[0 .. val->len)`,
    whatever the position of the reader. *)
Definition ssh_buf_write_buf_reader (alloc : Z -> bool) (buf : SSH_BUFFER)
    (val : SSH_BUF_READER) : Z * SSH_BUFFER :=
  ssh_buf_write_data alloc buf (rd_data val) (rd_len val).

(** `int ssh_buf_append_data(struct SSH_BUFFER *buf, const uint8_t *data,
    size_t len)` *)
Definition ssh_buf_append_data (alloc : Z -> bool) (buf : SSH_BUFFER)
    (data : list Z) (len : Z) : Z * SSH_BUFFER :=
  let '(p, buf) := ssh_buf_get_write_pointer alloc buf len in
  match p with
  | None => (-1, buf)
  | Some p => (0, set_buf_data buf (memcpy_at (buf_data buf) p data len))
  end.

Definition ssh_buf_append_cstring (alloc : Z -> bool) (buf : SSH_BUFFER) (val : list Z)
  : Z * SSH_BUFFER :=
  ssh_buf_append_data alloc buf val (Z.of_nat (length val)).

Definition ssh_buf_append_string (alloc : Z -> bool) (buf : SSH_BUFFER) (val : SSH_STRING)
  : Z * SSH_BUFFER :=
  ssh_buf_append_data alloc buf (str_ptr val) (str_len val).

Definition ssh_buf_append_buffer (alloc : Z -> bool) (buf val : SSH_BUFFER)
  : Z * SSH_BUFFER :=
  ssh_buf_append_data alloc buf (buf_data val) (buf_len val).

Definition ssh_buf_append_buf_reader (alloc : Z -> bool) (buf : SSH_BUFFER)
    (val : SSH_BUF_READER) : Z * SSH_BUFFER :=
  ssh_buf_append_data alloc buf (rd_data val) (rd_len val).

(** `int ssh_buf_remove_data(struct SSH_BUFFER *buf, size_t offset,
    size_t len)`: the `memmove` of the tail over the removed bytes, then
    `buf->len -= len`. *)
Definition ssh_buf_remove_data (buf : SSH_BUFFER) (offset len : Z) : Z * SSH_BUFFER :=
  let '(rc, end_) := checked_add 0 offset len in
  if (rc <? 0) || (buf_len buf <? end_) then (-1, buf)
  else
    let data :=
      if buf_len buf >? end_
      then memcpy_at (buf_data buf) offset
                     (drop (Z.to_nat end_) (buf_data buf)) (buf_len buf - end_)
      else buf_data buf in
    (0, set_buf_data buf (take (Z.to_nat (size_wrap (buf_len buf - len))) data)).

(** `uint32_t ssh_buf_get_u32(uint8_t *data)` *)
Definition ssh_buf_get_u32 (data : list Z) : Z := be32_at data 0.

(** `void ssh_buf_set_u32(uint8_t *data, uint32_t v)`: four stores through
    the pointer; a store outside the array is not modelled ([<[i:=x]>]
    leaves the list as it is). *)
Definition ssh_buf_set_u32 (data : list Z) (v : Z) : list Z :=
  let data := <[0%nat := Z.shiftr v 24 mod 256]> data in
  let data := <[1%nat := Z.shiftr v 16 mod 256]> data in
  let data := <[2%nat := Z.shiftr v 8 mod 256]> data in
  let data := <[3%nat := v mod 256]> data in
  data.

(** `struct SSH_STRING ssh_str_new_from_buffer(struct SSH_BUFFER *buf)`,
    `ssh_str_new` and `ssh_str_new_empty` (a NULL pointer). *)
Definition ssh_str_new_from_buffer (buf : SSH_BUFFER) : SSH_STRING :=
  {| str_ptr := buf_data buf; str_len := buf_len buf |}.

Definition ssh_str_new (data : list Z) (len : Z) : SSH_STRING :=
  {| str_ptr := data; str_len := len |}.

Definition ssh_str_new_empty : SSH_STRING := {| str_ptr := []; str_len := 0 |}.

(** The C library's `memcmp(a, b, n)` on `unsigned char`: 0 when the first
    [n] bytes agree, else the difference of the first two that differ (the
    standard fixes its sign only). *)
Fixpoint memcmp (a b : list Z) (n : nat) {struct n} : Z :=
  match n with
  | O => 0
  | S n' =>
      match a, b with
      | x :: a', y :: b' => if x =? y then memcmp a' b' n' else x - y
      | _, _ => 0
      end
  end.

(** `int ssh_str_cmp_data(const struct SSH_STRING *str, const uint8_t *data,
    size_t data_len)` *)
Definition ssh_str_cmp_data (str : SSH_STRING) (data : list Z) (data_len : Z) : Z :=
  let cmp_len := if str_len str <? data_len then str_len str else data_len in
  let ret := memcmp (str_ptr str) data (Z.to_nat cmp_len) in
  if negb (ret =? 0) then ret
  else if str_len str <? data_len then -1
  else if str_len str >? data_len then 1
  else 0.

(** `int ssh_str_cmp_string(...)` and `int ssh_str_cmp_cstring(...)` *)
Definition ssh_str_cmp_string (str1 str2 : SSH_STRING) : Z :=
  ssh_str_cmp_data str1 (str_ptr str2) (str_len str2).

Definition ssh_str_cmp_cstring (str1 : SSH_STRING) (str2 : list Z) : Z :=
  ssh_str_cmp_data str1 str2 (Z.of_nat (length str2)).

(** `struct SSH_BUF_READER ssh_buf_reader_new_from_buffer(...)` and
    `ssh_buf_reader_new_from_string(...)` *)
Definition ssh_buf_reader_new_from_buffer (buf : SSH_BUFFER) : SSH_BUF_READER :=
  {| rd_data := buf_data buf; rd_pos := 0; rd_len := buf_len buf |}.

Definition ssh_buf_reader_new_from_string (str : SSH_STRING) : SSH_BUF_READER :=
  {| rd_data := str_ptr str; rd_pos := 0; rd_len := str_len str |}.

(** The loop of `ssh_buf_read_until`:
    `while ((buf->pos < buf->len) && (buf->data[buf->pos] != sentinel)) buf->pos++;`
    one iteration per unit of fuel.  The position goes up by one in each
    iteration and stops at `len`, so `len - pos` units let it finish. *)
Fixpoint read_until_scan (fuel : nat) (data : list Z) (pos len sentinel : Z) : Z :=
  match fuel with
  | O => pos
  | S fuel' =>
      if (pos <? len) && negb (byte_at data pos =? sentinel)
      then read_until_scan fuel' data (size_wrap (pos + 1)) len sentinel
      else pos
  end.

(** `int ssh_buf_read_until(struct SSH_BUF_READER *buf, uint8_t sentinel,
    struct SSH_STRING *ret_val)` *)
Definition ssh_buf_read_until (buf : SSH_BUF_READER) (sentinel : Z)
    (ret_val : option SSH_STRING) : Z * SSH_BUF_READER * option SSH_STRING :=
  let start_pos := rd_pos buf in
  let pos := read_until_scan (Z.to_nat (rd_len buf - rd_pos buf))
                             (rd_data buf) (rd_pos buf) (rd_len buf) sentinel in
  let ret_val :=
    (fun _ => {| str_ptr := drop (Z.to_nat start_pos) (rd_data buf);
                 str_len := size_wrap (pos - start_pos) |}) <$> ret_val in
  let pos := if pos <? rd_len buf then size_wrap (pos + 1) else pos in
  (0, set_pos buf pos, ret_val).

(** What the C types and the allocation give of a buffer: the bytes are
    `uint8_t`, `len <= cap` and `cap` is a `size_t`. *)
Definition buffer_ok (buf : SSH_BUFFER) : Prop :=
  Forall is_byte (buf_data buf) /\ buf_len buf <= buf_cap buf <= SIZE_MAX.

(** An allocator that never gives memory, and one that always does. *)
Definition alloc_never (n : Z) : bool := false.
Definition alloc_always (n : Z) : bool := true.

(** A reader for the examples: a version line and one byte behind it. *)
Definition banner_reader : SSH_BUF_READER :=
  {| rd_data := [83; 83; 72; 45; 50; 10; 1]; rd_pos := 0; rd_len := 7 |}.

End Buffer.

(* ===================================================================== *)
(** * Properties of the readers (packet.c) *)
(* ===================================================================== *)

Import Packet Channel.

(** Tactics for the case analyses on the tests of the source. *)
Ltac leb_true :=
  match goal with
  | |- context [?a <=? ?b] =>
      let H := fresh in
      destruct (Z.leb_spec a b) as [H | H]; [| exfalso; cbn in *; lia]
  end.

(** Decide the tests between constants that the goal contains. *)
Ltac closed_tests :=
  repeat match goal with
  | |- context [?a =? ?b] =>
      let r := eval vm_compute in (a =? b) in
      lazymatch r with
      | true => change (a =? b) with true
      | false => change (a =? b) with false
      end
  | |- context [?a <? ?b] =>
      let r := eval vm_compute in (a <? b) in
      lazymatch r with
      | true => change (a <? b) with true
      | false => change (a <? b) with false
      end
  end.

(** Runs `chan_process_channel_packet` on a payload of five bytes or more
    up to the lookup of the channel; [Hhdr] is what the two reads of the
    header give. *)
Ltac channel_header Hhdr payload :=
  unfold chan_process_channel_packet;
  let Hu8 := fresh "Hu8" in
  let Hu32 := fresh "Hu32" in
  destruct Hhdr as [Hu8 Hu32];
  cbv zeta in Hu8, Hu32; rewrite Hu8;
  destruct (Z.leb_spec 1 (Z.of_nat (length payload))); [| lia];
  change (0 <? 0) with false; cbv iota; cbn [default]; rewrite Hu32;
  destruct (Z.leb_spec 5 (Z.of_nat (length payload))); [| lia];
  change (0 <? 0) with false; cbv iota; cbn [default]; unfold id;
  clear Hu8 Hu32.

(** The bytes of a closed list are bytes; a closed buffer has `len <= cap`. *)
Ltac closed_bytes :=
  vm_compute;
  repeat (apply Forall_cons_2; [vm_compute; split; [discriminate | reflexivity] |]);
  apply Forall_nil_2.

Ltac closed_buffer_ok :=
  split; [closed_bytes | vm_compute; split; discriminate].


Lemma size_wrap_small x : 0 <= x <= SIZE_MAX -> size_wrap x = x.
Proof.
  unfold size_wrap, SIZE_MAX, SIZE_BITS. intros H.
  apply Z.mod_small. lia.
Qed.

(** `checked_add` on `size_t` operands: it fails exactly when the
    mathematical sum leaves the range, and stores the sum otherwise. *)
Lemma checked_add_spec ret a b :
  0 <= a <= SIZE_MAX -> 0 <= b <= SIZE_MAX ->
  checked_add ret a b = if a + b <=? SIZE_MAX then (0, a + b) else (-1, ret).
Proof.
  intros Ha Hb. unfold checked_add.
  destruct (Z.leb_spec (a + b) SIZE_MAX) as [Hle | Hgt].
  - rewrite size_wrap_small by lia.
    destruct (Z.ltb_spec (a + b) a); [lia | reflexivity].
  - assert (Hw : size_wrap (a + b) = a + b - 2 ^ SIZE_BITS).
    { unfold size_wrap, SIZE_MAX, SIZE_BITS in *.
      symmetry. apply Z.mod_unique with (q := 1); lia. }
    rewrite Hw. unfold SIZE_MAX in *.
    destruct (Z.ltb_spec (a + b - 2 ^ SIZE_BITS) a); [reflexivity | lia].
Qed.

(** `check_advance` accepts exactly the advances that stay inside the
    reader, whatever the size of `adv`. *)
Lemma check_advance_spec pos adv len :
  0 <= pos <= SIZE_MAX -> 0 <= adv <= SIZE_MAX -> len <= SIZE_MAX ->
  check_advance pos adv len = if pos + adv <=? len then 0 else -1.
Proof.
  intros Hp Ha Hl. unfold check_advance.
  rewrite checked_add_spec by assumption.
  destruct (Z.leb_spec (pos + adv) SIZE_MAX) as [Hle | Hgt]; cbn.
  - destruct (Z.leb_spec (pos + adv) len), (Z.gtb_spec (pos + adv) len);
      first [reflexivity | lia].
  - destruct (Z.leb_spec (pos + adv) len); [lia | reflexivity].
Qed.

Lemma byte_at_is_byte data i : Forall is_byte data -> is_byte (byte_at data i).
Proof.
  intros Hd. unfold byte_at.
  destruct (data !! Z.to_nat i) as [b |] eqn:Hb; cbn.
  - eapply Forall_lookup_1; eassumption.
  - unfold is_byte. lia.
Qed.

Lemma lor_below_pow2 a b n :
  0 <= n -> 0 <= a < 2 ^ n -> 0 <= b < 2 ^ n -> 0 <= Z.lor a b < 2 ^ n.
Proof.
  intros Hn Ha Hb. split.
  - apply Z.lor_nonneg. lia.
  - destruct (Z.eq_dec (Z.lor a b) 0) as [-> | Hnz].
    + apply Z.pow_pos_nonneg; lia.
    + assert (Hpos : 0 < n).
      { destruct (Z.eq_dec n 0) as [-> | ?]; [| lia].
        assert (a = 0) as -> by (cbn in Ha; lia).
        assert (b = 0) as -> by (cbn in Hb; lia).
        contradiction. }
      apply Z.log2_lt_pow2.
      * assert (0 <= Z.lor a b) by (apply Z.lor_nonneg; lia). lia.
      * rewrite Z.log2_lor by lia.
        apply Z.max_lub_lt.
        -- destruct (Z.eq_dec a 0) as [-> | ?]; [cbn; lia |].
           apply Z.log2_lt_pow2; lia.
        -- destruct (Z.eq_dec b 0) as [-> | ?]; [cbn; lia |].
           apply Z.log2_lt_pow2; lia.
Qed.

(** The value `ssh_buf_read_u32` composes is a `uint32_t`. *)
Lemma be32_at_range data p :
  Forall is_byte data -> 0 <= be32_at data p < 2 ^ 32.
Proof.
  intros Hd. unfold be32_at.
  pose proof (byte_at_is_byte data p Hd) as H0.
  pose proof (byte_at_is_byte data (p + 1) Hd) as H1.
  pose proof (byte_at_is_byte data (p + 2) Hd) as H2.
  pose proof (byte_at_is_byte data (p + 3) Hd) as H3.
  unfold is_byte in *.
  rewrite !Z.shiftl_mul_pow2 by lia.
  repeat apply lor_below_pow2; lia.
Qed.

(** ** The four reader operations, one by one *)

Lemma ssh_buf_read_u8_spec buf ret_val :
  reader_wf buf -> reader_inv buf ->
  ssh_buf_read_u8 buf ret_val =
    if rd_pos buf + 1 <=? rd_len buf
    then (0, set_pos buf (rd_pos buf + 1),
          (fun _ => byte_at (rd_data buf) (rd_pos buf)) <$> ret_val)
    else (-1, buf, ret_val).
Proof.
  intros [_ Hl] Hi. unfold reader_inv in Hi. unfold ssh_buf_read_u8.
  rewrite check_advance_spec by (unfold SIZE_MAX, SIZE_BITS in *; lia).
  destruct (Z.leb_spec (rd_pos buf + 1) (rd_len buf)); cbn; [| reflexivity].
  rewrite size_wrap_small by lia. reflexivity.
Qed.

Lemma ssh_buf_read_u32_spec buf ret_val :
  reader_wf buf -> reader_inv buf ->
  ssh_buf_read_u32 buf ret_val =
    if rd_pos buf + 4 <=? rd_len buf
    then (0, set_pos buf (rd_pos buf + 4),
          (fun _ => be32_at (rd_data buf) (rd_pos buf)) <$> ret_val)
    else (-1, buf, ret_val).
Proof.
  intros [_ Hl] Hi. unfold reader_inv in Hi. unfold ssh_buf_read_u32.
  rewrite check_advance_spec by (unfold SIZE_MAX, SIZE_BITS in *; lia).
  destruct (Z.leb_spec (rd_pos buf + 4) (rd_len buf)); cbn; [| reflexivity].
  rewrite size_wrap_small by lia. reflexivity.
Qed.

Lemma ssh_buf_read_skip_spec buf n :
  reader_wf buf -> reader_inv buf -> 0 <= n <= SIZE_MAX ->
  ssh_buf_read_skip buf n =
    if rd_pos buf + n <=? rd_len buf
    then (0, set_pos buf (rd_pos buf + n))
    else (-1, buf).
Proof.
  intros [_ Hl] Hi Hn. unfold reader_inv in Hi. unfold ssh_buf_read_skip.
  rewrite check_advance_spec by lia.
  destruct (Z.leb_spec (rd_pos buf + n) (rd_len buf)); cbn; [| reflexivity].
  rewrite size_wrap_small by lia. reflexivity.
Qed.

Lemma ssh_buf_read_string_spec buf ret_val :
  reader_wf buf -> reader_inv buf ->
  ssh_buf_read_string buf ret_val =
    if rd_pos buf + 4 <=? rd_len buf
    then
      let len := be32_at (rd_data buf) (rd_pos buf) in
      if rd_pos buf + 4 + len <=? rd_len buf
      then (0, set_pos buf (rd_pos buf + 4 + len),
            (fun _ => {| str_ptr := drop (Z.to_nat (rd_pos buf + 4)) (rd_data buf);
                         str_len := len |}) <$> ret_val)
      else (-1, set_pos buf (rd_pos buf + 4), ret_val)
    else (-1, buf, ret_val).
Proof.
  intros Hwf Hi. unfold ssh_buf_read_string.
  rewrite ssh_buf_read_u32_spec by assumption.
  destruct Hwf as [Hd Hl]. unfold reader_inv in Hi.
  destruct (Z.leb_spec (rd_pos buf + 4) (rd_len buf)); cbn; [| reflexivity].
  pose proof (be32_at_range (rd_data buf) (rd_pos buf) Hd) as Hr.
  rewrite check_advance_spec
    by (unfold SIZE_MAX, SIZE_BITS in *; lia).
  destruct (Z.leb_spec (rd_pos buf + 4 + be32_at (rd_data buf) (rd_pos buf))
                       (rd_len buf)); cbn; [| reflexivity].
  rewrite size_wrap_small by lia. reflexivity.
Qed.

Lemma checked_read_intro need buf :
  reader_wf buf -> reader_inv buf -> 0 <= need ->
  checked_read need buf
    (if rd_pos buf + need <=? rd_len buf then 0 else -1)
    (if rd_pos buf + need <=? rd_len buf then set_pos buf (rd_pos buf + need) else buf).
Proof.
  intros _ Hi Hn. unfold checked_read, reader_inv in *.
  destruct (Z.leb_spec (rd_pos buf + need) (rd_len buf)); cbn; repeat split; lia.
Qed.

(** C8. Every reader operation (`ssh_buf_read_u8`, `ssh_buf_read_u32`,
    `ssh_buf_read_string`, `ssh_buf_read_skip`) checks `pos + need <= len`
    on the mathematical sum (no wrap-around, also for a `need` up to
    SIZE_MAX), fails without passing the end when the input is too short,
    and leaves `0 <= pos <= len` true: `ssh_buf_read_string` is a checked
    read of the 4-byte length followed by a checked read of that many
    bytes. *)
Theorem reader_ops_checked (buf : SSH_BUF_READER) :
  reader_wf buf -> reader_inv buf ->
  (forall ret, checked_read 1 buf (ssh_buf_read_u8 buf ret).1.1
                                  (ssh_buf_read_u8 buf ret).1.2) /\
  (forall ret, checked_read 4 buf (ssh_buf_read_u32 buf ret).1.1
                                  (ssh_buf_read_u32 buf ret).1.2) /\
  (forall n, 0 <= n <= SIZE_MAX ->
             checked_read n buf (ssh_buf_read_skip buf n).1
                                (ssh_buf_read_skip buf n).2) /\
  (forall ret,
     reader_inv (ssh_buf_read_string buf ret).1.2 /\
     if rd_pos buf + 4 <=? rd_len buf
     then checked_read (be32_at (rd_data buf) (rd_pos buf))
                       (set_pos buf (rd_pos buf + 4))
                       (ssh_buf_read_string buf ret).1.1
                       (ssh_buf_read_string buf ret).1.2
     else (ssh_buf_read_string buf ret).1.1 = -1 /\
          (ssh_buf_read_string buf ret).1.2 = buf).
Proof.
  intros Hwf Hi.
  repeat apply conj.
  - intros ret. rewrite ssh_buf_read_u8_spec by assumption.
    pose proof (checked_read_intro 1 buf Hwf Hi ltac:(lia)) as H.
    destruct (rd_pos buf + 1 <=? rd_len buf); exact H.
  - intros ret. rewrite ssh_buf_read_u32_spec by assumption.
    pose proof (checked_read_intro 4 buf Hwf Hi ltac:(lia)) as H.
    destruct (rd_pos buf + 4 <=? rd_len buf); exact H.
  - intros n Hn. rewrite ssh_buf_read_skip_spec by assumption.
    pose proof (checked_read_intro n buf Hwf Hi ltac:(lia)) as H.
    destruct (rd_pos buf + n <=? rd_len buf); exact H.
  - intros ret. rewrite ssh_buf_read_string_spec by assumption.
    pose proof (be32_at_range (rd_data buf) (rd_pos buf) (proj1 Hwf)) as Hr.
    unfold reader_inv in Hi.
    destruct (Z.leb_spec (rd_pos buf + 4) (rd_len buf)) as [H4 | H4]; cbn.
    + assert (Hwf' : reader_wf (set_pos buf (rd_pos buf + 4))) by exact Hwf.
      assert (Hi' : reader_inv (set_pos buf (rd_pos buf + 4)))
        by (unfold reader_inv; cbn; lia).
      pose proof (checked_read_intro (be32_at (rd_data buf) (rd_pos buf))
                    (set_pos buf (rd_pos buf + 4)) Hwf' Hi' ltac:(lia)) as H.
      cbn in H.
      destruct (rd_pos buf + 4 + be32_at (rd_data buf) (rd_pos buf) <=? rd_len buf);
        cbn; (split; [apply H | exact H]).
    + repeat split; lia.
Qed.

(** The reader operations on a reader whose string is cut short: the
    length field is read, the 5 announced bytes are not there. *)
Lemma reader_ops_checked_witness :
  reader_inv (ssh_buf_read_string truncated_reader None).1.2 /\
  checked_read 5 (set_pos truncated_reader 4)
    (ssh_buf_read_string truncated_reader None).1.1
    (ssh_buf_read_string truncated_reader None).1.2.
Proof.
  assert (Hwf : reader_wf truncated_reader).
  { split; [| vm_compute; split; discriminate].
    repeat (constructor; [vm_compute; split; [discriminate | reflexivity] |]).
    constructor. }
  assert (Hinv : reader_inv truncated_reader)
    by (vm_compute; split; discriminate).
  pose proof (reader_ops_checked truncated_reader Hwf Hinv) as (_ & _ & _ & Hs).
  exact (Hs None).
Defined.

(** C10. When `ssh_buf_read_string` has read the length field L (the
    `ssh_buf_read_u32` call returned 0 and stored L) and fewer than L bytes
    remain, it returns -1, the reader stays where the length field ends, 4
    bytes after the position at the call, and `*ret_val` is as it was. *)
Theorem read_string_fails_past_length (buf buf1 : SSH_BUF_READER) (L : Z)
    (ret_val : option SSH_STRING) :
  reader_wf buf -> reader_inv buf ->
  ssh_buf_read_u32 buf (Some 0) = (0, buf1, Some L) ->
  rd_len buf1 - rd_pos buf1 < L ->
  ssh_buf_read_string buf ret_val = (-1, buf1, ret_val) /\
  rd_pos buf1 = rd_pos buf + 4 /\
  buf1 <> buf.
Proof.
  intros Hwf Hi Hu32 Hshort.
  rewrite ssh_buf_read_string_spec by assumption.
  rewrite ssh_buf_read_u32_spec in Hu32 by assumption.
  destruct (Z.leb_spec (rd_pos buf + 4) (rd_len buf)) as [H4 | H4];
    [| discriminate].
  cbn in Hu32. injection Hu32 as Hb HL. subst buf1 L. cbn in *.
  destruct (Z.leb_spec (rd_pos buf + 4 + be32_at (rd_data buf) (rd_pos buf))
                       (rd_len buf)); [lia |].
  repeat split.
  intros Heq. apply (f_equal rd_pos) in Heq. cbn in Heq. lia.
Qed.

Lemma read_string_fails_past_length_witness :
  ssh_buf_read_string truncated_reader (Some (mkString [7] 1))
    = (-1, set_pos truncated_reader 4, Some (mkString [7] 1)) /\
  rd_pos (set_pos truncated_reader 4) = rd_pos truncated_reader + 4 /\
  set_pos truncated_reader 4 <> truncated_reader.
Proof.
  apply (read_string_fails_past_length truncated_reader (set_pos truncated_reader 4) 5).
  - split; [| vm_compute; split; discriminate].
    repeat (constructor; [vm_compute; split; [discriminate | reflexivity] |]).
    constructor.
  - vm_compute; split; discriminate.
  - reflexivity.
  - vm_compute. reflexivity.
Defined.

(* ===================================================================== *)
(** * Properties of the channel engine (channel.c) *)
(* ===================================================================== *)


(** ** Big-endian fields: what `ssh_buf_write_u32` writes,
    `ssh_buf_read_u32` reads back *)

Lemma testbit_byte_field v k j :
  0 <= k -> 0 <= j ->
  Z.testbit (Z.shiftl (Z.shiftr v k mod 256) k) j
  = if (k <=? j) && (j <? k + 8) then Z.testbit v j else false.
Proof.
  intros Hk Hj. change 256 with (2 ^ 8).
  rewrite Z.shiftl_spec by lia.
  destruct (Z.leb_spec k j) as [Hkj | Hkj]; cbn.
  - destruct (Z.ltb_spec j (k + 8)) as [Hj8 | Hj8].
    + rewrite Z.mod_pow2_bits_low by lia.
      rewrite Z.shiftr_spec by lia. f_equal. lia.
    + apply Z.mod_pow2_bits_high. lia.
  - apply Z.testbit_neg_r. lia.
Qed.

Lemma be32_compose v :
  0 <= v < 2 ^ 32 ->
  Z.lor (Z.lor (Z.lor (Z.shiftl (Z.shiftr v 24 mod 256) 24)
                      (Z.shiftl (Z.shiftr v 16 mod 256) 16))
               (Z.shiftl (Z.shiftr v 8 mod 256) 8))
        (v mod 256) = v.
Proof.
  intros Hv.
  replace (v mod 256) with (Z.shiftl (Z.shiftr v 0 mod 256) 0)
    by (rewrite Z.shiftr_0_r, Z.shiftl_0_r; reflexivity).
  apply Z.bits_inj'. intros j Hj.
  rewrite !Z.lor_spec, !testbit_byte_field by lia.
  destruct (Z.ltb_spec j 32) as [H32 | H32].
  - destruct (Z.leb_spec 24 j), (Z.leb_spec 16 j), (Z.leb_spec 8 j), (Z.leb_spec 0 j);
      destruct (Z.ltb_spec j (24 + 8)), (Z.ltb_spec j (16 + 8)),
               (Z.ltb_spec j (8 + 8)), (Z.ltb_spec j (0 + 8));
      try lia; cbn; rewrite ?orb_false_r; reflexivity.
  - assert (Hf : Z.testbit v j = false).
    { rewrite <- (Z.mod_small v (2 ^ 32)) by lia.
      apply Z.mod_pow2_bits_high. lia. }
    rewrite Hf.
    repeat match goal with |- context [if ?b then false else false] =>
      replace (if b then false else false) with false by (destruct b; reflexivity) end.
    reflexivity.
Qed.

Lemma byte_at_0 x l : byte_at (x :: l) 0 = x.
Proof. reflexivity. Qed.

Lemma byte_at_drop l k i :
  0 <= i -> byte_at l (Z.of_nat k + i) = byte_at (drop k l) i.
Proof.
  intros Hi. unfold byte_at. rewrite lookup_drop.
  replace (Z.to_nat (Z.of_nat k + i)) with (k + Z.to_nat i)%nat by lia.
  reflexivity.
Qed.

Lemma be32_at_drop l k i :
  0 <= i -> be32_at l (Z.of_nat k + i) = be32_at (drop k l) i.
Proof.
  intros Hi. unfold be32_at.
  rewrite <- !Z.add_assoc, !byte_at_drop by lia. reflexivity.
Qed.

Lemma be32_at_written v l :
  0 <= v < 2 ^ 32 ->
  be32_at (Z.shiftr v 24 mod 256 :: Z.shiftr v 16 mod 256
           :: Z.shiftr v 8 mod 256 :: v mod 256 :: l) 0 = v.
Proof.
  intros Hv. unfold be32_at. cbn [Z.add].
  change (byte_at ?l (0 + 1)) with (byte_at l 1).
  unfold byte_at. cbn. apply be32_compose. exact Hv.
Qed.
Lemma pkt_channel_data_layout n p :
  pkt_channel_data n p =
    94 :: Z.shiftr n 24 mod 256 :: Z.shiftr n 16 mod 256
       :: Z.shiftr n 8 mod 256 :: n mod 256
       :: Z.shiftr (Z.of_nat (length p) mod 2 ^ 32) 24 mod 256
       :: Z.shiftr (Z.of_nat (length p) mod 2 ^ 32) 16 mod 256
       :: Z.shiftr (Z.of_nat (length p) mod 2 ^ 32) 8 mod 256
       :: (Z.of_nat (length p) mod 2 ^ 32) mod 256
       :: p.
Proof.
  unfold pkt_channel_data, ssh_buf_write_data, ssh_buf_write_u32, ssh_buf_write_u8.
  rewrite Nat2Z.id, firstn_all. reflexivity.
Qed.

Lemma mod256_is_byte x : is_byte (x mod 256).
Proof. unfold is_byte. apply Z.mod_pos_bound. lia. Qed.

Lemma chan_get_by_num_local_num conn n i chan :
  chan_get_by_num conn n = Some (i, chan) ->
  channels conn !! i = Some chan /\ local_num chan = n.
Proof.
  unfold chan_get_by_num. intros H.
  apply list_find_Some in H. tauto.
Qed.

(** ** CHANNEL_DATA *)

Lemma chan_process_data_packet conn n p i chan :
  0 <= n < 2 ^ 32 -> Forall is_byte p -> Z.of_nat (length p) < 2 ^ 32 ->
  chan_get_by_num conn n = Some (i, chan) ->
  chan_process_packet conn
    (ssh_buf_reader_new (pkt_channel_data n p)
                        (Z.of_nat (length (pkt_channel_data n p))))
  = (0, add_trace conn [EvReceived n (userdata chan) p (Z.of_nat (length p))]).
Proof.
  intros Hn Hp Hlen Hget.
  destruct (chan_get_by_num_local_num _ _ _ _ Hget) as [_ Hnum].
  rewrite pkt_channel_data_layout.
  rewrite (Z.mod_small (Z.of_nat (length p))) by lia.
  match goal with |- context [ssh_buf_reader_new ?d _] => set (data := d) end.
  assert (Hl : Z.of_nat (length data) = 9 + Z.of_nat (length p))
    by (unfold data; cbn [length]; lia).
  rewrite Hl. unfold ssh_buf_reader_new.
  assert (Hd : Forall is_byte data).
  { unfold data.
    repeat (constructor; [first [apply mod256_is_byte | unfold is_byte; lia] |]).
    exact Hp. }
  assert (Hwf : forall q, reader_wf (mkReader data q (9 + Z.of_nat (length p)))).
  { intros q. split; [exact Hd |]. cbn. unfold SIZE_MAX, SIZE_BITS. lia. }
  assert (Hnum32 : be32_at data 1 = n).
  { change 1 with (Z.of_nat 1 + 0). rewrite be32_at_drop by lia.
    apply be32_at_written. lia. }
  assert (Hlen32 : be32_at data 5 = Z.of_nat (length p)).
  { change 5 with (Z.of_nat 5 + 0). rewrite be32_at_drop by lia.
    apply be32_at_written. lia. }
  unfold chan_process_packet, ssh_packet_get_type. cbn [rd_data].
  unfold data at 1. rewrite byte_at_0.
  unfold SSH_MSG_GLOBAL_REQUEST, SSH_MSG_CHANNEL_OPEN_CONFIRMATION,
    SSH_MSG_CHANNEL_OPEN_FAILURE, SSH_MSG_CHANNEL_SUCCESS,
    SSH_MSG_CHANNEL_WINDOW_ADJUST, SSH_MSG_CHANNEL_DATA.
  closed_tests. cbn [orb].
  unfold chan_process_channel_packet.
  rewrite ssh_buf_read_u8_spec by (try apply Hwf; unfold reader_inv; cbn; lia).
  cbn [rd_pos rd_len rd_data]. leb_true. cbn [fmap option_fmap option_map].
  closed_tests. unfold set_pos; cbn [rd_pos rd_len rd_data].
  rewrite ssh_buf_read_u32_spec by (try apply Hwf; unfold reader_inv; cbn; lia).
  cbn [rd_pos rd_len rd_data]. leb_true. cbn [fmap option_fmap option_map].
  closed_tests. unfold set_pos; cbn [rd_pos rd_len rd_data default].
  change (0 + 1 + 4) with 5. change (0 + 1) with 1. unfold id.
  rewrite Hnum32, Hget.
  rewrite ssh_buf_read_string_spec by (try apply Hwf; unfold reader_inv; cbn; lia).
  cbn [rd_pos rd_len rd_data]. rewrite Hlen32.
  leb_true. cbn zeta. leb_true.
  cbn [fmap option_fmap option_map default str_len].
  closed_tests.
  unfold ssh_str_bytes. cbn [str_len str_ptr].
  change (Z.to_nat (5 + 4)) with 9%nat. unfold data. cbn [drop].
  rewrite Nat2Z.id, firstn_all, Hnum. reflexivity.
Qed.


(** C4, as amended. A CHANNEL_DATA packet with payload [p] for an existing
    channel is accepted, and `notify_received` is called once, on that
    channel, with exactly the bytes of [p] and their number; the engine
    goes on with the next packet.  Nothing else changes: no channel is
    modified (every `local_window_size` is what it was) and no packet is
    sent (no WINDOW_ADJUST). *)
Theorem channel_data_delivered conn n p i chan :
  0 <= n < 2 ^ 32 -> Forall is_byte p -> Z.of_nat (length p) < 2 ^ 32 ->
  chan_get_by_num conn n = Some (i, chan) ->
  let received := EvReceived n (userdata chan) p (Z.of_nat (length p)) in
  (forall rx,
     chan_process_packets (RxPacket (pkt_channel_data n p) :: rx) conn
     = chan_process_packets rx (add_trace conn [received])) /\
  let r := chan_process_packets [RxPacket (pkt_channel_data n p)] conn in
  r.1 = 0 /\
  trace r.2 = trace conn ++ [received] /\
  channels r.2 = channels conn /\
  tx_sent r.2 = tx_sent conn.
Proof.
  intros Hn Hp Hlen Hget received.
  assert (Hstep : forall rx,
    chan_process_packets (RxPacket (pkt_channel_data n p) :: rx) conn
    = chan_process_packets rx (add_trace conn [received])).
  { intros rx. cbn [chan_process_packets].
    rewrite (chan_process_data_packet conn n p i chan) by assumption.
    reflexivity. }
  split; [exact Hstep |].
  rewrite Hstep. repeat split.
Qed.

(** Scenario 3: the peer sends CHANNEL_DATA(0, "hello"). *)
Lemma channel_data_delivered_witness :
  exists chan,
    chan_get_by_num one_open 0 = Some (0%nat, chan) /\
    let r := chan_process_packets [RxPacket (pkt_channel_data 0 (cstr "hello"))] one_open in
    r.1 = 0 /\
    trace r.2 = trace one_open ++ [EvReceived 0 (userdata chan) (cstr "hello") 5] /\
    channels r.2 = channels one_open /\
    tx_sent r.2 = tx_sent one_open.
Proof.
  eexists. split; [vm_compute; reflexivity |].
  apply (channel_data_delivered one_open 0 (cstr "hello") 0%nat).
  - lia.
  - change (cstr "hello") with [104; 101; 108; 108; 111].
    repeat (constructor; [vm_compute; split; [discriminate | reflexivity] |]).
    constructor.
  - vm_compute. reflexivity.
  - vm_compute. reflexivity.
Defined.

(** C4, counterexample. After CHANNEL_DATA(0, "hello") on an OPEN channel
    whose `local_window_size` is 262144 the callback has the 5 bytes, but
    the window has not dropped by 5. *)
Lemma channel_data_window_counterexample :
  let r := chan_process_packets [RxPacket (pkt_channel_data 0 (cstr "hello"))] one_open in
  map local_window_size (channels one_open) = [262144] /\
  r.1 = 0 /\
  trace r.2 = trace one_open ++ [EvReceived 0 100 (cstr "hello") 5] /\
  map local_window_size (channels r.2) <> [262144 - 5].
Proof.
  vm_compute. repeat split; congruence.
Qed.

(** ** CHANNEL_EOF and CHANNEL_CLOSE *)

(** C3, as amended. A CHANNEL_EOF or CHANNEL_CLOSE packet is not handled:
    `chan_process_packets` dumps it as an unknown packet and goes on with
    the next packet.  No channel changes (none becomes CLOSED), no packet
    is sent (no CHANNEL_CLOSE of our own) and no callback is called (no
    `closed`). *)
Theorem eof_and_close_packets_ignored conn payload :
  let pack := ssh_buf_reader_new payload (Z.of_nat (length payload)) in
  ssh_packet_get_type pack = SSH_MSG_CHANNEL_EOF \/
  ssh_packet_get_type pack = SSH_MSG_CHANNEL_CLOSE ->
  (forall rx,
     chan_process_packets (RxPacket payload :: rx) conn
     = chan_process_packets rx (add_trace conn [EvDump "received unknown packet"])) /\
  let r := chan_process_packets [RxPacket payload] conn in
  r.1 = 0 /\
  channels r.2 = channels conn /\
  tx_sent r.2 = tx_sent conn /\
  trace r.2 = trace conn ++ [EvDump "received unknown packet"].
Proof.
  intros pack Ht.
  assert (Hstep : forall rx,
    chan_process_packets (RxPacket payload :: rx) conn
    = chan_process_packets rx (add_trace conn [EvDump "received unknown packet"])).
  { intros rx. cbn [chan_process_packets].
    fold pack. unfold chan_process_packet.
    destruct Ht as [-> | ->];
      unfold SSH_MSG_GLOBAL_REQUEST, SSH_MSG_CHANNEL_OPEN_CONFIRMATION,
        SSH_MSG_CHANNEL_OPEN_FAILURE, SSH_MSG_CHANNEL_SUCCESS,
        SSH_MSG_CHANNEL_WINDOW_ADJUST, SSH_MSG_CHANNEL_DATA,
        SSH_MSG_CHANNEL_EOF, SSH_MSG_CHANNEL_CLOSE;
      closed_tests; cbn [orb]; closed_tests; reflexivity. }
  split; [exact Hstep |].
  rewrite Hstep. repeat split.
Qed.

Lemma eof_and_close_packets_ignored_witness :
  let r := chan_process_packets [RxPacket (pkt_channel_close 0)] one_open in
  r.1 = 0 /\
  channels r.2 = channels one_open /\
  tx_sent r.2 = tx_sent one_open /\
  trace r.2 = trace one_open ++ [EvDump "received unknown packet"].
Proof.
  apply (eof_and_close_packets_ignored one_open (pkt_channel_close 0)).
  right. vm_compute. reflexivity.
Defined.

(** C3, counterexample. CHANNEL_CLOSE(0) and CHANNEL_EOF(0) for the OPEN
    channel 0: afterwards the channel is still OPEN, nothing was sent and
    `closed` was not called. *)
Lemma close_packet_counterexample :
  let r := chan_process_packets
             [RxPacket (pkt_channel_close 0); RxPacket (pkt_channel_eof 0)] one_open in
  map status (channels one_open) = [CHAN_STATUS_OPEN] /\
  r.1 = 0 /\
  map status (channels r.2) <> [CHAN_STATUS_CLOSED] /\
  tx_sent r.2 = tx_sent one_open /\
  List.filter is_closed_event (trace r.2) = [].
Proof.
  vm_compute. repeat split; congruence.
Qed.

(** ** `ssh_chan_close` *)

Lemma ssh_chan_close_twice chan :
  ssh_chan_close (ssh_chan_close chan).2 = ([], (ssh_chan_close chan).2).
Proof.
  unfold ssh_chan_close at 2 3.
  destruct (decide (status chan = CHAN_STATUS_OPEN)) as [Ho | Hn]; cbn [snd].
  - unfold ssh_chan_close.
    destruct (decide (status (set_status chan CHAN_STATUS_CLOSED) = CHAN_STATUS_OPEN))
      as [Hc | _]; [discriminate Hc | reflexivity].
  - unfold ssh_chan_close.
    destruct (decide (status chan = CHAN_STATUS_OPEN)); [contradiction | reflexivity].
Qed.

Lemma ssh_chan_close_times_succ n chan :
  ssh_chan_close_times (S n) chan = ssh_chan_close chan.
Proof.
  revert chan. induction n as [| n IH]; intros chan.
  - cbn. destruct (ssh_chan_close chan) as [evs c]. rewrite app_nil_r. reflexivity.
  - change (ssh_chan_close_times (S (S n)) chan)
      with (let '(evs, c) := ssh_chan_close chan in
            let '(evs', c) := ssh_chan_close_times (S n) c in (evs ++ evs', c)).
    pose proof (ssh_chan_close_twice chan) as H2.
    destruct (ssh_chan_close chan) as [evs c]. cbn [snd] in H2.
    rewrite IH, H2, app_nil_r. reflexivity.
Qed.

(** C6, as amended. `ssh_chan_close` acts on an OPEN channel only: there it
    calls `closed` once and leaves the channel CLOSED; in every other state
    (CREATED, REQUESTED, CLOSED) it does nothing.  A second call never has
    an effect, and any number of successive calls does what the first one
    did, so they call `closed` at most once. *)
Theorem ssh_chan_close_open_only chan :
  (status chan = CHAN_STATUS_OPEN ->
   ssh_chan_close chan =
     ([EvClosed (local_num chan) (userdata chan)], set_status chan CHAN_STATUS_CLOSED)) /\
  (status chan <> CHAN_STATUS_OPEN -> ssh_chan_close chan = ([], chan)) /\
  ssh_chan_close (ssh_chan_close chan).2 = ([], (ssh_chan_close chan).2) /\
  (forall n, ssh_chan_close_times (S n) chan = ssh_chan_close chan) /\
  (forall n, (length (List.filter is_closed_event (ssh_chan_close_times n chan).1) <= 1)%nat).
Proof.
  repeat apply conj.
  - intros Ho. unfold ssh_chan_close.
    destruct (decide (status chan = CHAN_STATUS_OPEN)); [reflexivity | contradiction].
  - intros Hn. unfold ssh_chan_close.
    destruct (decide (status chan = CHAN_STATUS_OPEN)); [contradiction | reflexivity].
  - apply ssh_chan_close_twice.
  - intros n. apply ssh_chan_close_times_succ.
  - intros [| n].
    + cbn. lia.
    + rewrite ssh_chan_close_times_succ. unfold ssh_chan_close.
      destruct (decide (status chan = CHAN_STATUS_OPEN)); cbn; lia.
Qed.

(** C6, counterexample. `ssh_chan_close` on a channel that is REQUESTED (a
    state other than CLOSED) does not leave it CLOSED. *)
Lemma ssh_chan_close_requested_counterexample :
  map status (channels one_requested) = [CHAN_STATUS_REQUESTED] /\
  map status (channels (host_chan_close one_requested 0)) <> [CHAN_STATUS_CLOSED] /\
  host_chan_close one_requested 0 = one_requested.
Proof.
  vm_compute. repeat split; congruence.
Qed.

Lemma ssh_chan_close_open_only_witness :
  ssh_chan_close open_chan = ([EvClosed 0 100], set_status open_chan CHAN_STATUS_CLOSED).
Proof.
  apply (proj1 (ssh_chan_close_open_only open_chan)). reflexivity.
Defined.

(** ** CHANNEL_OPEN_FAILURE *)

(** C2, the code at the failing input. Scenario 2: the peer answers the
    only channel with CHANNEL_OPEN_FAILURE(0, 2, "admin prohibited", empty language tag).
    `open_failed` is called, but the channel stays REQUESTED: the sweep of
    the next iteration keeps it, the loop does not return and waits in
    `poll`; `ssh_chan_close` by the host changes nothing either. *)
Theorem open_failure_leaves_channel_requested :
  let pkt := pkt_channel_open_failure 0 2 (cstr "admin prohibited") (cstr EmptyString) in
  let r := chan_process_packets [RxPacket pkt] one_requested in
  r.1 = 0 /\
  trace r.2 = [EvOpenFailed 0 100] /\
  map status (channels r.2) = [CHAN_STATUS_REQUESTED] /\
  chan_remove_closed_channels r.2 = r.2 /\
  host_chan_close r.2 0 = r.2 /\
  chan_loop [poll_with socket_readable [RxPacket pkt]] one_requested = Blocked r.2.
Proof.
  vm_compute. repeat split.
Qed.

(** ** CHANNEL_WINDOW_ADJUST *)

(** C5, the code at the failing input. CHANNEL_WINDOW_ADJUST(0, 1000) for
    the OPEN channel 0, whose `remote_window_size` is 131072: the packet is
    passed to `chan_process_channel_packet`, which has no case for it; it
    is dumped as unhandled and the window is still 131072, not 132072. *)
Theorem window_adjust_leaves_remote_window :
  let r := chan_process_packets [RxPacket (pkt_channel_window_adjust 0 1000)] one_open in
  map remote_window_size (channels one_open) = [131072] /\
  r.1 = 0 /\
  map remote_window_size (channels r.2) = [131072] /\
  channels r.2 = channels one_open /\
  trace r.2 = trace one_open ++ [EvDump "unhandled channel packet"].
Proof.
  vm_compute. repeat split.
Qed.

(** ** Readiness dispatch *)

(** The dispatch calls the callbacks and does nothing else. *)
Lemma chan_notify_channels_watch_fds_channels conn poll_fd :
  channels (chan_notify_channels_watch_fds conn poll_fd) = channels conn /\
  tx_sent (chan_notify_channels_watch_fds conn poll_fd) = tx_sent conn.
Proof. split; reflexivity. Qed.

(** C7, the code at the failing input. Two OPEN channels; `poll` reports
    fd 5, which channel 0 watches, readable; the `fd_ready` callback of
    channel 0 is called and returns -1.  The engine does not close the
    channel: after the dispatch, and after the whole loop iteration, both
    channels are OPEN and in the table. *)
Theorem fd_ready_error_leaves_channel_open :
  let conn := chan_notify_channels_watch_fds two_watching
                {| fd := 5; events := Z.lor POLLIN POLLHUP; revents := POLLIN |} in
  map status (channels two_watching) = [CHAN_STATUS_OPEN; CHAN_STATUS_OPEN] /\
  trace conn = trace two_watching ++ [EvFdReady 0 100 5 SSH_CHAN_FD_READ (-1)] /\
  map status (channels conn) = [CHAN_STATUS_OPEN; CHAN_STATUS_OPEN] /\
  chan_loop [poll_with fd5_readable []] two_watching = Blocked conn.
Proof.
  vm_compute. repeat split.
Qed.

(** The sibling path: a negative return of the `open` callback does close
    the channel, which the next sweep removes. *)
Example open_error_closes_channel :
  let conn := registered fresh_conn [host_cfg 100 (-1) 0] in
  let r := chan_process_packets [RxPacket (pkt_channel_success 0)] conn in
  trace r.2 = [EvOpen 0 100 (-1); EvClosed 0 100] /\
  map status (channels r.2) = [CHAN_STATUS_CLOSED] /\
  channels (chan_remove_closed_channels r.2) = [].
Proof.
  vm_compute. repeat split.
Qed.

(** ** Allocation of local numbers *)

(** C1, the code at the failing input. The first run ends with the
    transport error and leaves the REQUESTED channel 1 (userdata 101) in
    the table, channel 0 having been opened, closed and swept.  In the
    second run the first new channel gets 0 and the second gets 1, the
    number channel 101 holds, although 2 is the smallest free number: the
    scan restarts at index 1 after a match and never looks at index 0
    again. *)
Theorem local_num_collision_after_close :
  table_nums <$> outcome_conn first_run = Some [(1, 101)] /\
  table_nums <$> outcome_conn second_run = Some [(1, 101); (0, 102); (1, 103)] /\
  match outcome_conn second_run with
  | Some conn => ~ NoDup (map local_num (channels conn))
  | None => False
  end.
Proof.
  split; [vm_compute; reflexivity |].
  split; [vm_compute; reflexivity |].
  destruct (outcome_conn second_run) as [conn |] eqn:H.
  - assert (Hn : map local_num (channels conn) = [1; 0; 1]).
    { revert H. vm_compute. intros [= <-]. reflexivity. }
    rewrite Hn. intros Hd.
    apply NoDup_cons in Hd as [Hnotin _].
    apply Hnotin. right. left.
  - revert H. vm_compute. discriminate.
Qed.

(** The allocation loop returns: a number that is matched is in the table,
    the numbers matched so far are 0, 1, ..., k-1, so there are at most as
    many restarts as entries, and each scan is at most one pass. *)
Lemma used_numbers_bound (chs : list SSH_CHAN) (k : nat) :
  (forall j, (j < k)%nat -> Z.of_nat j ∈ map local_num chs) ->
  (k <= length chs)%nat.
Proof.
  intros Hin.
  assert (Hsub : Z.of_nat <$> seq 0 k ⊆+ map local_num chs).
  { apply NoDup_submseteq.
    - apply NoDup_fmap_2; [apply Nat2Z.inj' | apply NoDup_seq].
    - intros x Hx. apply list_elem_of_fmap in Hx as (j & -> & Hj).
      apply elem_of_seq in Hj. apply Hin. lia. }
  apply submseteq_length in Hsub.
  rewrite length_fmap, length_seq, length_map in Hsub. exact Hsub.
Qed.

Lemma chan_new_local_num_enough (chs : list SSH_CHAN) :
  Z.of_nat (length chs) < 2 ^ 32 ->
  forall fuel i k,
    (forall j, (j < k)%nat -> Z.of_nat j ∈ map local_num chs) ->
    (i <= length chs)%nat ->
    ((length chs - k) * S (length chs) + (length chs - i) < fuel)%nat ->
    is_Some (chan_new_local_num fuel chs i (Z.of_nat k)).
Proof.
  intros Hlen. induction fuel as [| fuel IH]; intros i k Hused Hi Hfuel.
  { exfalso. exact (Nat.nlt_0_r _ Hfuel). }
  cbn [chan_new_local_num].
  destruct (chs !! i) as [c |] eqn:Hc; [| eexists; reflexivity].
  assert (Hlt : (i < length chs)%nat) by (eapply lookup_lt_Some; eassumption).
  pose proof (used_numbers_bound chs k Hused) as Hk.
  destruct (Z.eqb_spec (local_num c) (Z.of_nat k)) as [Heq | Hne].
  - assert (Hused' : forall j, (j < S k)%nat -> Z.of_nat j ∈ map local_num chs).
    { intros j Hj. destruct (decide (j = k)) as [-> | Hjk].
      - rewrite <- Heq. apply list_elem_of_fmap. exists c. split; [reflexivity |].
        eapply list_elem_of_lookup_2; eassumption.
      - apply Hused. lia. }
    pose proof (used_numbers_bound chs (S k) Hused') as Hk'.
    replace (wrap32 (Z.of_nat k + 1)) with (Z.of_nat (S k)).
    2:{ unfold wrap32. rewrite Z.mod_small; lia. }
    apply IH; [assumption | cbn; lia |].
    cbn [Nat.add]. nia.
  - apply IH; [assumption | lia | nia].
Qed.

Lemma chan_new_local_num_returns (chs : list SSH_CHAN) :
  Z.of_nat (length chs) < 2 ^ 32 ->
  is_Some (chan_new_local_num (chan_new_fuel chs) chs 0 0).
Proof.
  intros Hlen.
  apply (chan_new_local_num_enough chs Hlen (chan_new_fuel chs) 0%nat 0%nat).
  - intros j Hj. lia.
  - lia.
  - unfold chan_new_fuel. nia.
Qed.

(** On a table that holds 0, 1, ..., n-1 in this order, which is what the
    registrations of one run make of an empty table, the loop does return
    the smallest free number, n. *)
Lemma sequential_table_lookup (chs : list SSH_CHAN) n i c :
  map local_num chs = Z.of_nat <$> seq 0 n ->
  chs !! i = Some c -> local_num c = Z.of_nat i /\ (i < n)%nat.
Proof.
  intros Hseq Hc.
  assert (H : map local_num chs !! i = Some (local_num c))
    by (rewrite list_lookup_fmap, Hc; reflexivity).
  rewrite Hseq, list_lookup_fmap in H.
  destruct (seq 0 n !! i) as [j |] eqn:Hj; [| discriminate].
  apply lookup_seq in Hj as [-> Hlt]. cbn in H. injection H as ->.
  split; [reflexivity | exact Hlt].
Qed.

Lemma chan_new_local_num_sequential_result (chs : list SSH_CHAN) n :
  map local_num chs = Z.of_nat <$> seq 0 n ->
  Z.of_nat n < 2 ^ 32 ->
  forall fuel i k r,
    (i <= k <= n)%nat ->
    chan_new_local_num fuel chs i (Z.of_nat k) = Some r ->
    r = Z.of_nat n.
Proof.
  intros Hseq Hn.
  assert (Hlen : length chs = n).
  { apply (f_equal length) in Hseq.
    rewrite length_map, length_fmap, length_seq in Hseq. exact Hseq. }
  induction fuel as [| fuel IH]; intros i k r Hik Hr; [discriminate |].
  cbn [chan_new_local_num] in Hr.
  destruct (chs !! i) as [c |] eqn:Hc.
  - destruct (sequential_table_lookup chs n i c Hseq Hc) as [Hnum Hlt].
    rewrite Hnum in Hr.
    destruct (Z.eqb_spec (Z.of_nat i) (Z.of_nat k)) as [Heq | Hne].
    + apply Nat2Z.inj in Heq. subst k.
      replace (wrap32 (Z.of_nat i + 1)) with (Z.of_nat (S i)) in Hr
        by (unfold wrap32; rewrite Z.mod_small; lia).
      eapply IH; [| exact Hr]. cbn. lia.
    + eapply IH; [| exact Hr]. lia.
  - injection Hr as <-. apply lookup_ge_None in Hc. f_equal. lia.
Qed.

Lemma chan_new_local_num_sequential (chs : list SSH_CHAN) n :
  map local_num chs = Z.of_nat <$> seq 0 n ->
  Z.of_nat n < 2 ^ 32 ->
  chan_new_local_num (chan_new_fuel chs) chs 0 0 = Some (Z.of_nat n).
Proof.
  intros Hseq Hn.
  assert (Hlen : length chs = n).
  { apply (f_equal length) in Hseq.
    rewrite length_map, length_fmap, length_seq in Hseq. exact Hseq. }
  destruct (chan_new_local_num_returns chs ltac:(lia)) as [r Hr].
  rewrite Hr. f_equal.
  apply (chan_new_local_num_sequential_result chs n Hseq Hn (chan_new_fuel chs) 0%nat 0%nat r);
    [lia | exact Hr].
Qed.

(** ** The watch set of a channel *)

Lemma set_watch_fds_same chan : set_watch_fds chan (watch_fds chan) = chan.
Proof. destruct chan; reflexivity. Qed.

Lemma filter_nonzero_all (l : list pollfd) :
  Forall (fun p => events p <> 0) (filter (fun p => events p <> 0) l).
Proof.
  apply Forall_forall. intros p Hp.
  apply list_elem_of_filter in Hp. tauto.
Qed.

Lemma filter_nonzero_id (l : list pollfd) :
  Forall (fun p => events p <> 0) l -> filter (fun p => events p <> 0) l = l.
Proof.
  induction 1 as [| p l Hp _ IH]; [reflexivity |].
  rewrite filter_cons_True by exact Hp. f_equal. exact IH.
Qed.

(** C9. `ssh_chan_watch_fd(chan, fd, enable, disable)` with the poll-event
    masks [add] and [remove] of the two flag sets: when the fd is in the
    watch set, the interest of its entry becomes `(interest | add) & ~remove`;
    when it is not and there is room, an entry with interest `add & ~remove`
    is appended; when it is not and the set is full (MAX_POLL_FDS entries),
    the call fails and changes nothing if [add] is non-empty, and succeeds,
    with nothing to change, if it is empty.  Every successful call ends
    with the sweep of the entries whose interest is 0, so a watch set has
    no such entry after any update. *)
Theorem watch_fd_update chan fd0 enable disable :
  let add := chan_flags_to_pollfd_events enable in
  let remove := chan_flags_to_pollfd_events disable in
  let fds := watch_fds chan in
  let r := ssh_chan_watch_fd chan fd0 enable disable in
  let swept := filter (fun p => events p <> 0) in
  (forall i p, list_find (fun p => fd p = fd0) fds = Some (i, p) ->
     r = (0, set_watch_fds chan
               (swept (<[i := set_events p (Z.land (Z.lor (events p) add) (Z.lnot remove))]> fds)))) /\
  (list_find (fun p => fd p = fd0) fds = None ->
     (Z.of_nat (length fds) < MAX_POLL_FDS ->
        r = (0, set_watch_fds chan
                  (swept (fds ++ [mkPollfd fd0 (Z.land add (Z.lnot remove)) 0])))) /\
     (MAX_POLL_FDS <= Z.of_nat (length fds) -> add <> 0 -> r = (-1, chan)) /\
     (MAX_POLL_FDS <= Z.of_nat (length fds) -> add = 0 ->
        r = (0, set_watch_fds chan (swept fds)) /\
        (Forall (fun p => events p <> 0) fds -> r = (0, chan)))) /\
  (r.1 = 0 -> Forall (fun p => events p <> 0) (watch_fds r.2)) /\
  (Forall (fun p => events p <> 0) fds -> Forall (fun p => events p <> 0) (watch_fds r.2)).
Proof.
  intros add remove fds r swept. subst r. unfold ssh_chan_watch_fd.
  fold add remove fds. unfold update_poll_fd_events.
  assert (Hswept : forall l, Forall (fun p => events p <> 0)
                             (watch_fds (set_watch_fds chan (swept l))))
    by (intros l; apply filter_nonzero_all).
  destruct (list_find (fun p => fd p = fd0) fds) as [[i p] |] eqn:Hfind.
  - change (0 <? 0) with false. cbn [andb].
    split; [| split; [| split]].
    + intros i' p' [= <- <-]. reflexivity.
    + discriminate.
    + intros _. apply Hswept.
    + intros _. apply Hswept.
  - destruct (Z.ltb_spec (Z.of_nat (length fds)) MAX_POLL_FDS) as [Hroom | Hfull].
    + change (0 <? 0) with false. cbn [andb].
      split; [| split; [| split]].
      * discriminate.
      * intros _. split; [| split].
        -- intros _. reflexivity.
        -- intros ?. lia.
        -- intros ?. lia.
      * intros _. apply Hswept.
      * intros _. apply Hswept.
    + change (-1 <? 0) with true. cbn [andb].
      destruct (Z.eqb_spec add 0) as [Hz | Hnz]; cbn [negb].
      * split; [| split; [| split]].
        -- discriminate.
        -- intros _. split; [| split].
           ++ intros ?. lia.
           ++ intros _ ?. contradiction.
           ++ intros _ _. split; [reflexivity |].
              intros Hall. unfold swept. rewrite filter_nonzero_id by exact Hall.
              unfold fds. rewrite set_watch_fds_same. reflexivity.
        -- intros _. apply Hswept.
        -- intros _. apply Hswept.
      * split; [| split; [| split]].
        -- discriminate.
        -- intros _. split; [| split].
           ++ intros ?. lia.
           ++ intros _ _. unfold fds. rewrite set_watch_fds_same. reflexivity.
           ++ intros _ ?. contradiction.
        -- cbn [fst]. discriminate.
        -- intros Hall. cbn [snd]. unfold fds. rewrite set_watch_fds_same. exact Hall.
Qed.

Lemma watch_fd_update_witness :
  ssh_chan_watch_fd open_chan 5 SSH_CHAN_FD_READ 0
  = (0, set_watch_fds open_chan
          (filter (fun p => events p <> 0)
             ([] ++ [mkPollfd 5 (Z.land (chan_flags_to_pollfd_events SSH_CHAN_FD_READ)
                                        (Z.lnot (chan_flags_to_pollfd_events 0))) 0]))).
Proof.
  destruct (watch_fd_update open_chan 5 SSH_CHAN_FD_READ 0) as (_ & Habsent & _).
  destruct (Habsent eq_refl) as (Hroom & _).
  apply Hroom. vm_compute. reflexivity.
Defined.

(** The poll-set properties of section 8: READ, then WRITE, then READ
    removed leaves {WRITE} (POLLOUT); an entry whose interest becomes 0 is
    swept; on a full watch set, adding a ninth fd fails and removing from
    an absent fd succeeds. *)
Example watch_fd_merge :
  let c1 := (ssh_chan_watch_fd open_chan 5 SSH_CHAN_FD_READ 0).2 in
  let c2 := (ssh_chan_watch_fd c1 5 SSH_CHAN_FD_WRITE 0).2 in
  let c3 := (ssh_chan_watch_fd c2 5 0 SSH_CHAN_FD_READ).2 in
  let c4 := (ssh_chan_watch_fd c3 5 0 SSH_CHAN_FD_WRITE).2 in
  let full := foldr (fun f c => (ssh_chan_watch_fd c f SSH_CHAN_FD_READ 0).2) open_chan
                    [10; 11; 12; 13; 14; 15; 16; 17] in
  watch_fds c3 = [mkPollfd 5 POLLOUT 0] /\
  pollfd_events_to_chan_flags POLLOUT = SSH_CHAN_FD_WRITE /\
  watch_fds c4 = [] /\
  length (watch_fds full) = 8%nat /\
  ssh_chan_watch_fd full 18 SSH_CHAN_FD_READ 0 = (-1, full) /\
  ssh_chan_watch_fd full 18 0 SSH_CHAN_FD_READ = (0, full).
Proof.
  vm_compute. repeat split.
Qed.

(** ** The watch set as a map from fds to interests *)

Lemma watch_interest_absent l f :
  Forall (fun p => fd p <> f) l -> watch_interest l f = 0.
Proof.
  induction 1 as [| p l Hp _ IH]; [reflexivity |].
  cbn. destruct (Z.eqb_spec (fd p) f); [contradiction | exact IH].
Qed.

Lemma watch_interest_app_absent l1 l2 f :
  Forall (fun p => fd p <> f) l1 ->
  watch_interest (l1 ++ l2) f = watch_interest l2 f.
Proof.
  induction 1 as [| p l Hp _ IH]; [reflexivity |].
  cbn. destruct (Z.eqb_spec (fd p) f); [contradiction | exact IH].
Qed.

Lemma watch_interest_skip l1 q l2 f :
  fd q <> f -> watch_interest (l1 ++ q :: l2) f = watch_interest (l1 ++ l2) f.
Proof.
  intros Hq. induction l1 as [| p l1 IH]; cbn.
  - destruct (Z.eqb_spec (fd q) f); [contradiction | reflexivity].
  - rewrite IH. reflexivity.
Qed.

Lemma watch_interest_filter l f :
  NoDup (fd <$> l) ->
  watch_interest (filter (fun p => events p <> 0) l) f = watch_interest l f.
Proof.
  induction l as [| p l IH]; [reflexivity |].
  rewrite fmap_cons, NoDup_cons. intros [Hnotin Hnd].
  destruct (decide (events p <> 0)) as [Hnz | Hz].
  - rewrite filter_cons_True by exact Hnz. cbn.
    destruct (fd p =? f); [reflexivity | apply IH; exact Hnd].
  - rewrite filter_cons_False by exact Hz. cbn.
    destruct (Z.eqb_spec (fd p) f) as [<- | Hne]; [| apply IH; exact Hnd].
    rewrite IH by exact Hnd.
    rewrite watch_interest_absent.
    + destruct (Z.eq_dec (events p) 0); [congruence | contradiction].
    + apply Forall_forall. intros q Hq Heq. apply Hnotin.
      rewrite <- Heq. apply list_elem_of_fmap. exists q. split; [reflexivity | exact Hq].
Qed.

Lemma list_find_fd_split (fds : list pollfd) fd0 i p :
  list_find (fun p => fd p = fd0) fds = Some (i, p) ->
  fds = take i fds ++ p :: drop (S i) fds /\
  fd p = fd0 /\ (i < length fds)%nat /\
  Forall (fun q => fd q <> fd0) (take i fds).
Proof.
  intros (Hi & Hfd & Hbefore)%list_find_Some.
  repeat split.
  - symmetry. apply take_drop_middle. exact Hi.
  - exact Hfd.
  - eapply lookup_lt_Some. exact Hi.
  - apply Forall_forall. intros q Hq.
    apply list_elem_of_lookup in Hq as [j Hj].
    pose proof (lookup_lt_Some _ _ _ Hj) as Hlt. rewrite length_take in Hlt.
    rewrite lookup_take_lt in Hj by lia.
    apply (Hbefore j q Hj). lia.
Qed.

Lemma swept_watch_set_ok (l : list pollfd) :
  NoDup (fd <$> l) -> Z.of_nat (length l) <= MAX_POLL_FDS ->
  watch_set_ok (filter (fun p => events p <> 0) l).
Proof.
  intros Hnd Hlen. split; [| split].
  - eapply sublist_NoDup; [exact Hnd |].
    apply fmap_sublist, sublist_filter.
  - apply filter_nonzero_all.
  - pose proof (length_filter (fun p => events p <> 0) l). lia.
Qed.

(** X11. The update seen from outside.  A watch set that is in order stays in
    order (so the empty set of a new channel is always in order); a call
    that succeeds sets the interest in [fd0] to `(interest | add) & ~remove`
    and keeps the interest in every other fd; a call fails only on a full
    set, for an fd without entry and a non-empty [add], and changes nothing. *)
Lemma watch_fd_interest chan fd0 enable disable :
  watch_set_ok (watch_fds chan) ->
  let add := chan_flags_to_pollfd_events enable in
  let remove := chan_flags_to_pollfd_events disable in
  let r := ssh_chan_watch_fd chan fd0 enable disable in
  watch_set_ok (watch_fds r.2) /\
  (r.1 = 0 ->
   forall f, watch_interest (watch_fds r.2) f =
             if f =? fd0
             then Z.land (Z.lor (watch_interest (watch_fds chan) fd0) add) (Z.lnot remove)
             else watch_interest (watch_fds chan) f) /\
  (r.1 <> 0 ->
   r = (-1, chan) /\ add <> 0 /\ watch_interest (watch_fds chan) fd0 = 0 /\
   Z.of_nat (length (watch_fds chan)) = MAX_POLL_FDS).
Proof.
  intros (Hnd & Hnz & Hlen) add remove r. subst r.
  unfold ssh_chan_watch_fd. fold add remove. unfold update_poll_fd_events.
  set (fds := watch_fds chan) in *.
  destruct (list_find (fun p => fd p = fd0) fds) as [[i p] |] eqn:Hfind.
  - (* the fd is in the set *)
    destruct (list_find_fd_split fds fd0 i p Hfind) as (Hsplit & Hfd & Hi & Hbefore).
    set (p' := set_events p (Z.land (Z.lor (events p) add) (Z.lnot remove))).
    assert (Hfds' : fd <$> <[i := p']> fds = fd <$> fds).
    { rewrite list_fmap_insert. apply list_insert_id.
      rewrite list_lookup_fmap.
      apply list_find_Some in Hfind as (-> & _ & _). reflexivity. }
    change (0 <? 0) with false. cbn [andb fst snd watch_fds set_watch_fds].
    split; [| split].
    + apply swept_watch_set_ok; [rewrite Hfds'; exact Hnd |].
      rewrite length_insert. exact Hlen.
    + intros _ f. rewrite watch_interest_filter by (rewrite Hfds'; exact Hnd).
      rewrite insert_take_drop by exact Hi.
      assert (E : forall g, watch_interest fds g
                            = watch_interest (take i fds ++ p :: drop (S i) fds) g)
        by (intros g; f_equal; exact Hsplit).
      rewrite !E.
      destruct (Z.eqb_spec f fd0) as [-> | Hne].
      * rewrite !watch_interest_app_absent by exact Hbefore. cbn.
        rewrite Hfd, Z.eqb_refl. reflexivity.
      * rewrite !watch_interest_skip by (cbn; congruence). reflexivity.
    + intros H. contradiction H. reflexivity.
  - (* the fd is not in the set *)
    apply list_find_None in Hfind.
    assert (Habsent : watch_interest fds fd0 = 0)
      by (apply watch_interest_absent; exact Hfind).
    destruct (Z.ltb_spec (Z.of_nat (length fds)) MAX_POLL_FDS) as [Hroom | Hfull].
    + change (0 <? 0) with false. cbn [andb fst snd watch_fds set_watch_fds].
      assert (Hnd' : NoDup (fd <$> fds ++ [mkPollfd fd0 (Z.land add (Z.lnot remove)) 0])).
      { rewrite fmap_app. apply NoDup_app. split; [exact Hnd | split].
        - intros x Hx Hx'. cbn in Hx'. apply list_elem_of_singleton in Hx'. subst x.
          apply list_elem_of_fmap in Hx as (q & Hq & Hin).
          rewrite Forall_forall in Hfind. apply (Hfind q Hin). symmetry. exact Hq.
        - cbn. apply NoDup_singleton. }
      split; [| split].
      * apply swept_watch_set_ok; [exact Hnd' |].
        rewrite length_app. cbn [length]. lia.
      * intros _ f. rewrite watch_interest_filter by exact Hnd'.
        destruct (Z.eqb_spec f fd0) as [-> | Hne].
        -- rewrite watch_interest_app_absent by exact Hfind. cbn.
           rewrite Z.eqb_refl, Habsent, Z.lor_0_l. reflexivity.
        -- rewrite watch_interest_skip by (cbn; congruence).
           rewrite app_nil_r. reflexivity.
      * intros H. contradiction H. reflexivity.
    + change (-1 <? 0) with true. cbn [andb].
      destruct (Z.eqb_spec add 0) as [Hz | Hnz']; cbn [negb fst snd watch_fds set_watch_fds].
      * split; [| split].
        -- apply swept_watch_set_ok; assumption.
        -- intros _ f. rewrite watch_interest_filter by exact Hnd.
           destruct (Z.eqb_spec f fd0) as [-> | Hne]; [| reflexivity].
           rewrite Habsent, Hz. reflexivity.
        -- intros H. contradiction H. reflexivity.
      * split; [| split].
        -- repeat split; assumption.
        -- intros H. discriminate H.
        -- intros _. repeat split; try assumption.
           ++ destruct chan; reflexivity.
           ++ lia.
Qed.

Lemma watch_fd_interest_witness :
  let add := chan_flags_to_pollfd_events SSH_CHAN_FD_READ in
  let remove := chan_flags_to_pollfd_events 0 in
  let r := ssh_chan_watch_fd open_chan 5 SSH_CHAN_FD_READ 0 in
  watch_set_ok (watch_fds r.2) /\
  (r.1 = 0 ->
   forall f, watch_interest (watch_fds r.2) f =
             if f =? 5
             then Z.land (Z.lor (watch_interest (watch_fds open_chan) 5) add) (Z.lnot remove)
             else watch_interest (watch_fds open_chan) f) /\
  (r.1 <> 0 ->
   r = (-1, open_chan) /\ add <> 0 /\ watch_interest (watch_fds open_chan) 5 = 0 /\
   Z.of_nat (length (watch_fds open_chan)) = MAX_POLL_FDS).
Proof.
  apply (watch_fd_interest open_chan 5 SSH_CHAN_FD_READ 0).
  split; [apply NoDup_nil_2 | split; [apply Forall_nil_2 | vm_compute; discriminate]].
Defined.

(** ** Packets that change no channel *)

(** Apart from CHANNEL_OPEN_CONFIRMATION and CHANNEL_SUCCESS, no packet
    that `chan_process_channel_packet` is given changes the table: not the
    status of a channel, not a window. *)
Lemma chan_process_channel_packet_keeps_channels conn pack :
  byte_at (rd_data pack) (rd_pos pack) <> SSH_MSG_CHANNEL_OPEN_CONFIRMATION ->
  byte_at (rd_data pack) (rd_pos pack) <> SSH_MSG_CHANNEL_SUCCESS ->
  channels (chan_process_channel_packet conn pack).2 = channels conn /\
  tx_sent (chan_process_channel_packet conn pack).2 = tx_sent conn.
Proof.
  intros H91 H99. unfold chan_process_channel_packet, ssh_buf_read_u8.
  destruct (check_advance (rd_pos pack) 1 (rd_len pack) <? 0); [split; reflexivity |].
  cbn [fmap option_fmap option_map default]. unfold id.
  change (0 <? 0) with false. cbv iota.
  destruct (ssh_buf_read_u32 _ _) as [[rc pack1] v]. cbv beta iota.
  destruct (rc <? 0); [split; reflexivity |].
  destruct (chan_get_by_num conn _) as [[i chan] |]; [| split; reflexivity].
  destruct (Z.eqb_spec (byte_at (rd_data pack) (rd_pos pack))
                       SSH_MSG_CHANNEL_OPEN_CONFIRMATION); [contradiction |].
  destruct (_ =? SSH_MSG_CHANNEL_OPEN_FAILURE); [split; reflexivity |].
  destruct (Z.eqb_spec (byte_at (rd_data pack) (rd_pos pack))
                       SSH_MSG_CHANNEL_SUCCESS); [contradiction |].
  destruct (_ =? SSH_MSG_CHANNEL_DATA); [| split; reflexivity].
  destruct (ssh_buf_read_string _ _) as [[rc2 pack2] data]. cbv beta iota.
  destruct (rc2 <? 0); split; reflexivity.
Qed.

Lemma conn_send_packet_channels conn payload conn' :
  conn_send_packet conn payload = Some conn' -> channels conn' = channels conn.
Proof.
  unfold conn_send_packet. destruct (tx_up conn); [| discriminate].
  intros [= <-]. reflexivity.
Qed.

Lemma chan_handle_global_request_channels conn pack :
  channels (chan_handle_global_request conn pack).2 = channels conn.
Proof.
  unfold chan_handle_global_request.
  destruct (ssh_buf_read_skip pack 1) as [rc pack1]. cbv beta iota.
  destruct (rc <? 0); [reflexivity |].
  destruct (ssh_buf_read_string _ _) as [[rc2 pack2] name]. cbv beta iota.
  destruct (rc2 <? 0); [reflexivity |].
  destruct (ssh_buf_read_u8 _ _) as [[rc3 pack3] want]. cbv beta iota.
  destruct (rc3 <? 0); [reflexivity |].
  destruct (negb _); [| reflexivity].
  destruct (conn_send_packet _ _) as [conn' |] eqn:Hs; [| reflexivity].
  cbn [snd]. eapply conn_send_packet_channels; eassumption.
Qed.

(** X9. Of the packets `chan_process_packets` receives, only a
    CHANNEL_OPEN_CONFIRMATION or a CHANNEL_SUCCESS can change a channel:
    a packet with any other first byte leaves the table as it is.
    Neither a global request, nor CHANNEL_OPEN_FAILURE,
    CHANNEL_WINDOW_ADJUST, CHANNEL_DATA, CHANNEL_EOF or CHANNEL_CLOSE
    changes a status or a window. *)
Lemma chan_process_packets_keep_channels conn payload :
  byte_at payload 0 <> SSH_MSG_CHANNEL_OPEN_CONFIRMATION ->
  byte_at payload 0 <> SSH_MSG_CHANNEL_SUCCESS ->
  channels (chan_process_packets [RxPacket payload] conn).2 = channels conn.
Proof.
  intros H91 H99. cbn [chan_process_packets].
  set (pack := ssh_buf_reader_new payload _).
  assert (Hkeep : channels (chan_process_packet conn pack).2 = channels conn).
  { unfold chan_process_packet, ssh_packet_get_type.
    destruct (_ =? SSH_MSG_GLOBAL_REQUEST);
      [apply chan_handle_global_request_channels |].
    destruct (_ || _); [| reflexivity].
    apply chan_process_channel_packet_keeps_channels; assumption. }
  destruct (chan_process_packet conn pack) as [rc conn']. cbn [snd] in Hkeep.
  destruct (rc <? 0); exact Hkeep.
Qed.

Lemma chan_process_packets_keep_channels_witness :
  channels (chan_process_packets [RxPacket (pkt_channel_window_adjust 0 1000)] one_open).2
  = channels one_open.
Proof.
  apply (chan_process_packets_keep_channels one_open (pkt_channel_window_adjust 0 1000)).
  - vm_compute. discriminate.
  - vm_compute. discriminate.
Defined.

(** ** A second CHANNEL_SUCCESS *)

(** CHANNEL_SUCCESS stores OPEN whatever the status is.  With an `open`
    callback that fails, each of two CHANNEL_SUCCESS packets of one batch
    opens and closes the channel, and `closed` is called twice. *)
Example closed_twice_by_repeated_success :
  let conn := registered fresh_conn [host_cfg 100 (-1) 0] in
  let r := chan_process_packets
             [RxPacket (pkt_channel_success 0); RxPacket (pkt_channel_success 0)] conn in
  trace r.2 = [EvOpen 0 100 (-1); EvClosed 0 100; EvOpen 0 100 (-1); EvClosed 0 100].
Proof.
  vm_compute. reflexivity.
Qed.

(** ** Scenario 1 *)

(** One session, confirmed by the peer with (remote 7, window 131072, max
    packet 32768): the engine has sent CHANNEL_OPEN(session, 0, 262144,
    65536), CHANNEL_REQUEST(7, "pty-req", false, "xterm", 80, 24, 0, 0,
    empty modes) and CHANNEL_REQUEST(7, "shell", true), in this order, and
    `open` was called once, on CHANNEL_SUCCESS(0). *)
Example session_open_scenario :
  tx_sent one_open =
    [ [90; 0; 0; 0; 7; 115; 101; 115; 115; 105; 111; 110;
       0; 0; 0; 0;  0; 4; 0; 0;  0; 1; 0; 0];
      [98; 0; 0; 0; 7; 0; 0; 0; 7; 112; 116; 121; 45; 114; 101; 113; 0;
       0; 0; 0; 5; 120; 116; 101; 114; 109;
       0; 0; 0; 80;  0; 0; 0; 24;  0; 0; 0; 0;  0; 0; 0; 0;  0; 0; 0; 0];
      [98; 0; 0; 0; 7; 0; 0; 0; 5; 115; 104; 101; 108; 108; 1] ] /\
  trace one_open = [EvOpen 0 100 0] /\
  map status (channels one_requested) = [CHAN_STATUS_REQUESTED] /\
  map status (channels one_open) = [CHAN_STATUS_OPEN] /\
  map (fun c => (remote_num c, remote_window_size c, remote_max_packet_size c))
      (channels one_open) = [(7, 131072, 32768)].
Proof.
  vm_compute. repeat split.
Qed.

(* ===================================================================== *)
(** * More of the channel engine (channel.c) *)
(* ===================================================================== *)

(** ** Closing every channel *)

(** X16. `chan_close_all_channels` calls `closed` once for every OPEN channel,
    in table order, and leaves in the table exactly the channels that were
    neither OPEN nor CLOSED (the CREATED and REQUESTED ones, which
    `ssh_chan_close` does not touch), in their order. *)
Theorem chan_close_all_channels_result conn :
  let conn' := chan_close_all_channels conn in
  channels conn' =
    filter (fun c => status c <> CHAN_STATUS_OPEN /\ status c <> CHAN_STATUS_CLOSED)
           (channels conn) /\
  trace conn' =
    trace conn ++ map (fun c => EvClosed (local_num c) (userdata c))
                      (filter (fun c => status c = CHAN_STATUS_OPEN) (channels conn)) /\
  tx_sent conn' = tx_sent conn.
Proof.
  cbv zeta. unfold chan_close_all_channels, chan_remove_closed_channels.
  cbn [channels trace tx_sent set_channels add_trace].
  split; [| split; [f_equal | reflexivity]].
  - induction (channels conn) as [| c l IH]; [reflexivity |].
    cbn [map]. unfold ssh_chan_close at 1.
    destruct (decide (status c = CHAN_STATUS_OPEN)) as [Ho | Hno]; cbn [snd].
    + rewrite filter_cons_False by (cbn; intros H; apply H; reflexivity).
      rewrite filter_cons_False by (intros [H _]; contradiction).
      exact IH.
    + destruct (decide (status c = CHAN_STATUS_CLOSED)) as [Hc | Hnc].
      * rewrite filter_cons_False by (intros H; contradiction).
        rewrite filter_cons_False by (intros [_ H]; contradiction).
        exact IH.
      * rewrite filter_cons_True by exact Hnc.
        rewrite filter_cons_True by (split; assumption).
        f_equal. exact IH.
  - induction (channels conn) as [| c l IH]; [reflexivity |].
    cbn [map concat]. unfold ssh_chan_close at 1.
    destruct (decide (status c = CHAN_STATUS_OPEN)) as [Ho | Hno]; cbn [fst].
    + rewrite filter_cons_True by exact Ho. cbn [map app]. f_equal. exact IH.
    + rewrite filter_cons_False by exact Hno. exact IH.
Qed.

(** ** The table during a run *)

Lemma chan_send_session_requests_channels conn chan :
  channels (chan_send_session_requests conn chan).2 = channels conn.
Proof.
  unfold chan_send_session_requests. cbv zeta.
  destruct (conn_send_packet conn _) as [c1 |] eqn:H1; [| reflexivity].
  apply conn_send_packet_channels in H1.
  destruct (conn_send_packet c1 _) as [c2 |] eqn:H2; cbn [snd].
  - apply conn_send_packet_channels in H2. congruence.
  - exact H1.
Qed.

Lemma chan_process_channel_packet_length conn pack :
  length (channels (chan_process_channel_packet conn pack).2) = length (channels conn).
Proof.
  unfold chan_process_channel_packet.
  destruct (ssh_buf_read_u8 pack _) as [[rc0 pack0] t]. cbv beta iota.
  destruct (rc0 <? 0); [reflexivity |].
  destruct (ssh_buf_read_u32 pack0 _) as [[rc1 pack1] n]. cbv beta iota.
  destruct (rc1 <? 0); [reflexivity |]. cbv zeta.
  destruct (chan_get_by_num conn _) as [[i chan] |]; [| reflexivity].
  destruct (_ =? SSH_MSG_CHANNEL_OPEN_CONFIRMATION).
  { destruct (ssh_buf_read_u32 pack1 _) as [[rc2 pack2] v2]. cbv beta iota zeta.
    destruct (rc2 <? 0); [cbn; apply length_insert |].
    destruct (ssh_buf_read_u32 pack2 _) as [[rc3 pack3] v3]. cbv beta iota zeta.
    destruct (rc3 <? 0); [cbn; rewrite !length_insert; reflexivity |].
    destruct (ssh_buf_read_u32 pack3 _) as [[rc4 pack4] v4]. cbv beta iota zeta.
    destruct (rc4 <? 0); [cbn; rewrite !length_insert; reflexivity |].
    destruct (type _).
    - rewrite chan_send_session_requests_channels. cbn. rewrite !length_insert. reflexivity.
    - cbn. rewrite !length_insert. reflexivity. }
  destruct (_ =? SSH_MSG_CHANNEL_OPEN_FAILURE); [reflexivity |].
  destruct (_ =? SSH_MSG_CHANNEL_SUCCESS).
  { cbv zeta. destruct (_ <? 0).
    - destruct (ssh_chan_close _) as [evs c']. cbn. rewrite !length_insert. reflexivity.
    - cbn. apply length_insert. }
  destruct (_ =? SSH_MSG_CHANNEL_DATA); [| reflexivity].
  destruct (ssh_buf_read_string pack1 _) as [[rc2 pack2] d]. cbv beta iota.
  destruct (rc2 <? 0); reflexivity.
Qed.

Lemma chan_process_packets_length rx conn :
  length (channels (chan_process_packets rx conn).2) = length (channels conn).
Proof.
  revert conn. induction rx as [| [payload |] rx IH]; intros conn; try reflexivity.
  cbn [chan_process_packets].
  set (pack := ssh_buf_reader_new payload _).
  assert (H : length (channels (chan_process_packet conn pack).2) = length (channels conn)).
  { unfold chan_process_packet.
    destruct (_ =? SSH_MSG_GLOBAL_REQUEST);
      [rewrite chan_handle_global_request_channels; reflexivity |].
    destruct (_ || _); [apply chan_process_channel_packet_length | reflexivity]. }
  destruct (chan_process_packet conn pack) as [rc conn1]. cbn [snd] in H.
  destruct (rc <? 0); [exact H |]. rewrite IH. exact H.
Qed.

Lemma fold_notify_channels fds conn :
  channels (fold_left chan_notify_channels_watch_fds fds conn) = channels conn.
Proof.
  revert conn. induction fds as [| p fds IH]; intros conn; [reflexivity |].
  cbn [fold_left]. rewrite IH. reflexivity.
Qed.

Lemma chan_loop_result script conn :
  match chan_loop script conn with
  | Returns rc conn' =>
      rc = 0 /\ channels conn' = [] \/ rc = -1 /\ channels conn' <> []
  | Blocked conn' =>
      channels conn' <> [] /\
      Forall (fun c => status c <> CHAN_STATUS_CLOSED) (channels conn')
  | Loops => False
  end.
Proof.
  revert conn. induction script as [| po script IH]; intros conn.
  - cbn [chan_loop]. set (c0 := chan_remove_closed_channels conn).
    destruct (Z.eqb_spec (Z.of_nat (length (channels c0))) 0) as [Hz | Hnz].
    + left. split; [reflexivity |]. destruct (channels c0); [reflexivity | cbn in Hz; lia].
    + split; [destruct (channels c0); [contradiction Hnz; reflexivity | discriminate] |].
      unfold c0, chan_remove_closed_channels. cbn [channels set_channels].
      apply Forall_forall. intros c Hc. apply list_elem_of_filter in Hc. tauto.
  - cbn [chan_loop]. set (c0 := chan_remove_closed_channels conn).
    destruct (Z.eqb_spec (Z.of_nat (length (channels c0))) 0) as [Hz | Hnz].
    { left. split; [reflexivity |]. destruct (channels c0); [reflexivity | cbn in Hz; lia]. }
    assert (Hne : forall c, length (channels c) = length (channels c0) -> channels c <> []).
    { intros c Hl H. apply Hnz. rewrite <- Hl, H. reflexivity. }
    destruct (po_rc po <? 0).
    { destruct (po_eintr po); [apply IH |]. right. split; [reflexivity |].
      apply Hne. reflexivity. }
    cbv zeta.
    set (rev0 := default 0 _).
    destruct (negb (Z.land rev0 POLLIN =? 0)).
    + pose proof (chan_process_packets_length (po_rx po) c0) as Hlen.
      destruct (chan_process_packets (po_rx po) c0) as [rc c1]. cbn [snd] in Hlen.
      destruct (rc <? 0); [right; split; [reflexivity | apply Hne; exact Hlen] |].
      destruct (_ && _); [right; split; [reflexivity | apply Hne; exact Hlen] |].
      apply IH.
    + change (0 <? 0) with false. cbv iota.
      destruct (_ && _); [right; split; [reflexivity | apply Hne; reflexivity] |].
      apply IH.
Qed.

(** X15. `ssh_chan_run_connection` returns 0 or -1, and 0 only with an empty
    table: `chan_loop` leaves its loop with 0 only when the sweep has
    emptied the table, and `chan_close_all_channels` adds nothing to it.
    As long as a channel that is not CLOSED is in the table, the loop polls
    again (it waits in `poll` with a table that is not empty and holds no
    CLOSED channel). *)
Theorem ssh_chan_run_connection_success_empties_table
    set_blocking_rc alloc_ok script conn channel_cfgs :
  match ssh_chan_run_connection set_blocking_rc alloc_ok script conn channel_cfgs with
  | Returns rc conn' => rc = 0 /\ channels conn' = [] \/ rc = -1
  | Blocked conn' =>
      channels conn' <> [] /\
      Forall (fun c => status c <> CHAN_STATUS_CLOSED) (channels conn')
  | Loops => True
  end.
Proof.
  unfold ssh_chan_run_connection.
  destruct (set_blocking_rc <? 0); [right; reflexivity |].
  destruct (chan_open_channels alloc_ok conn channel_cfgs) as [rc c1 | c1 |] eqn:Hopen;
    [| exfalso | exact I].
  2:{ revert conn Hopen. induction channel_cfgs as [| cfg cfgs IH]; intros conn Hopen;
        [discriminate |].
      cbn [chan_open_channels] in Hopen.
      destruct (chan_new alloc_ok conn cfg) as [| | c2 i]; try discriminate.
      destruct (channels c2 !! i); [| discriminate].
      destruct (chan_send_channel_open c2 _) as [rc c3].
      destruct (rc <? 0); [discriminate |]. eapply IH. exact Hopen. }
  destruct (rc <? 0); [right; reflexivity |].
  pose proof (chan_loop_result script c1) as Hloop.
  destruct (chan_loop script c1) as [rc2 c2 | c2 |]; [| exact Hloop | contradiction].
  destruct Hloop as [[-> Hempty] | [-> _]].
  - change (0 <? 0) with false. cbv iota. left. split; [reflexivity |].
    unfold chan_close_all_channels, chan_remove_closed_channels.
    cbn [channels set_channels add_trace]. rewrite Hempty. reflexivity.
  - right. reflexivity.
Qed.

(** ** The poll set of an iteration *)

Lemma update_poll_fd_events_keeps sock0 l f e :
  (exists e0 rest, l = mkPollfd sock0 e0 0 :: rest /\ Z.testbit e0 0 = true) ->
  NoDup (fd <$> l) -> Z.of_nat (length l) <= MAX_POLL_FDS ->
  let l' := (update_poll_fd_events l f e 0).2 in
  (exists e0 rest, l' = mkPollfd sock0 e0 0 :: rest /\ Z.testbit e0 0 = true) /\
  NoDup (fd <$> l') /\ Z.of_nat (length l') <= MAX_POLL_FDS /\
  (forall g, g ∈ fd <$> l' -> g ∈ fd <$> l \/ g = f).
Proof.
  intros (e0 & rest & -> & Hbit) Hnd Hlen. cbv zeta. unfold update_poll_fd_events.
  destruct (list_find (fun p => fd p = f) (mkPollfd sock0 e0 0 :: rest))
    as [[i p] |] eqn:Hfind; cbn [snd].
  - apply list_find_Some in Hfind as (Hi & Hfd & _).
    assert (Hfds : fd <$> <[i := set_events p (Z.land (Z.lor (events p) e) (Z.lnot 0))]>
                          (mkPollfd sock0 e0 0 :: rest)
                   = fd <$> (mkPollfd sock0 e0 0 :: rest)).
    { rewrite list_fmap_insert. apply list_insert_id.
      rewrite list_lookup_fmap, Hi. reflexivity. }
    split; [| split; [| split]].
    + destruct i as [| i]; cbn [list_insert insert].
      * cbn in Hi. injection Hi as <-. cbn [events set_events fd revents].
        eexists _, rest. split; [reflexivity |].
        change (Z.lnot 0) with (-1). rewrite Z.land_m1_r, Z.lor_spec, Hbit.
        reflexivity.
      * eexists e0, _. split; [reflexivity | exact Hbit].
    + rewrite Hfds. exact Hnd.
    + rewrite length_insert. exact Hlen.
    + intros g Hg. left. rewrite Hfds in Hg. exact Hg.
  - apply list_find_None in Hfind.
    destruct (Z.ltb_spec (Z.of_nat (length (mkPollfd sock0 e0 0 :: rest))) MAX_POLL_FDS)
      as [Hroom | Hfull]; cbn [snd].
    + split; [| split; [| split]].
      * eexists e0, _. split; [rewrite <- app_comm_cons; reflexivity | exact Hbit].
      * rewrite fmap_app. apply NoDup_app. split; [exact Hnd | split].
        -- intros x Hx Hx'. cbn in Hx'. apply list_elem_of_singleton in Hx'. subst x.
           apply list_elem_of_fmap in Hx as (q & Hq & Hin).
           rewrite Forall_forall in Hfind. apply (Hfind q Hin). symmetry. exact Hq.
        -- cbn. apply NoDup_singleton.
      * rewrite length_app. cbn [length] in *. lia.
      * intros g Hg. rewrite fmap_app in Hg. apply elem_of_app in Hg as [Hg | Hg];
          [left; exact Hg | right]. cbn in Hg. apply list_elem_of_singleton in Hg. exact Hg.
    + split; [| split; [| split]].
      * eexists e0, rest. split; [reflexivity | exact Hbit].
      * exact Hnd.
      * exact Hlen.
      * intros g Hg. left. exact Hg.
Qed.

(** X14. The poll set `chan_loop` builds has the socket first, with POLLIN among
    its events, then the fds the channels watch; no fd is in it twice; it
    never has more than MAX_POLL_FDS entries (a watch that does not fit is
    left out); and it polls nothing but the socket and watched fds. *)
Theorem chan_loop_poll_fds_shape conn send_pending :
  let l := chan_loop_poll_fds conn send_pending in
  (exists e0 rest, l = mkPollfd (sock conn) e0 0 :: rest /\
                   Z.land e0 POLLIN = POLLIN) /\
  NoDup (fd <$> l) /\
  Z.of_nat (length l) <= MAX_POLL_FDS /\
  (forall g, g ∈ fd <$> l ->
     g = sock conn \/ exists c, c ∈ channels conn /\ g ∈ fd <$> watch_fds c).
Proof.
  cbv zeta. unfold chan_loop_poll_fds. cbv zeta.
  set (l0 := [mkPollfd (sock conn) _ 0]).
  assert (H0 : (exists e0 rest, l0 = mkPollfd (sock conn) e0 0 :: rest /\
                                Z.testbit e0 0 = true) /\
               NoDup (fd <$> l0) /\ Z.of_nat (length l0) <= MAX_POLL_FDS /\
               (forall g, g ∈ fd <$> l0 ->
                  g = sock conn \/ exists c, c ∈ @nil SSH_CHAN /\ g ∈ fd <$> watch_fds c)).
  { split; [| split; [| split]].
    - eexists _, []. split; [reflexivity |]. destruct send_pending; reflexivity.
    - cbn. apply NoDup_singleton.
    - cbn. unfold MAX_POLL_FDS. lia.
    - intros g Hg. cbn in Hg. apply list_elem_of_singleton in Hg. left. exact Hg. }
  assert (Hgen : forall chs done l,
            ((exists e0 rest, l = mkPollfd (sock conn) e0 0 :: rest /\
                              Z.testbit e0 0 = true) /\
             NoDup (fd <$> l) /\ Z.of_nat (length l) <= MAX_POLL_FDS /\
             (forall g, g ∈ fd <$> l ->
                g = sock conn \/ exists c, c ∈ done /\ g ∈ fd <$> watch_fds c)) ->
            let l' := fold_left
                        (fun poll_fds chan =>
                           fold_left
                             (fun poll_fds w =>
                                (update_poll_fd_events poll_fds (fd w) (events w) 0).2)
                             (watch_fds chan) poll_fds) chs l in
            (exists e0 rest, l' = mkPollfd (sock conn) e0 0 :: rest /\
                             Z.testbit e0 0 = true) /\
            NoDup (fd <$> l') /\ Z.of_nat (length l') <= MAX_POLL_FDS /\
            (forall g, g ∈ fd <$> l' ->
               g = sock conn \/ exists c, c ∈ done ++ chs /\ g ∈ fd <$> watch_fds c)).
  { induction chs as [| c chs IH]; intros done l Hl; cbn [fold_left].
    - rewrite app_nil_r. exact Hl.
    - cbv zeta in IH.
      replace (done ++ c :: chs) with ((done ++ [c]) ++ chs)
        by (rewrite <- app_assoc; reflexivity).
      apply IH. clear IH.
      assert (Hw : forall ws seen l,
                ((exists e0 rest, l = mkPollfd (sock conn) e0 0 :: rest /\
                                  Z.testbit e0 0 = true) /\
                 NoDup (fd <$> l) /\ Z.of_nat (length l) <= MAX_POLL_FDS /\
                 (forall g, g ∈ fd <$> l ->
                    g = sock conn \/ (exists c, c ∈ done /\ g ∈ fd <$> watch_fds c)
                    \/ g ∈ fd <$> seen)) ->
                let l' := fold_left
                            (fun poll_fds w =>
                               (update_poll_fd_events poll_fds (fd w) (events w) 0).2)
                            ws l in
                (exists e0 rest, l' = mkPollfd (sock conn) e0 0 :: rest /\
                                 Z.testbit e0 0 = true) /\
                NoDup (fd <$> l') /\ Z.of_nat (length l') <= MAX_POLL_FDS /\
                (forall g, g ∈ fd <$> l' ->
                   g = sock conn \/ (exists c, c ∈ done /\ g ∈ fd <$> watch_fds c)
                   \/ g ∈ fd <$> (seen ++ ws))).
      { induction ws as [| w ws IHw]; intros seen l1 Hl1; cbn [fold_left].
        - rewrite app_nil_r. exact Hl1.
        - cbv zeta in IHw.
          replace (seen ++ w :: ws) with ((seen ++ [w]) ++ ws)
            by (rewrite <- app_assoc; reflexivity).
          apply IHw. clear IHw.
          destruct Hl1 as (Hhd & Hnd & Hlen & Hfrom).
          destruct (update_poll_fd_events_keeps (sock conn) l1 (fd w) (events w)
                      Hhd Hnd Hlen) as (Hhd' & Hnd' & Hlen' & Hfrom').
          cbv zeta in Hhd', Hnd', Hlen', Hfrom'.
          split; [exact Hhd' |]. split; [exact Hnd' |]. split; [exact Hlen' |].
          intros g Hg. destruct (Hfrom' g Hg) as [Hold | ->].
          + destruct (Hfrom g Hold) as [H | [H | H]]; [left; exact H | right; left; exact H |].
            right. right. rewrite fmap_app. apply elem_of_app. left. exact H.
          + right. right. rewrite fmap_app. apply elem_of_app. right. cbn.
            apply list_elem_of_singleton. reflexivity. }
      destruct Hl as (Hhd & Hnd & Hlen & Hfrom).
      destruct (Hw (watch_fds c) [] l) as (Hhd' & Hnd' & Hlen' & Hfrom').
      { split; [exact Hhd |]. split; [exact Hnd |]. split; [exact Hlen |].
        intros g Hg. destruct (Hfrom g Hg) as [H | H]; [left; exact H | right; left; exact H]. }
      cbv zeta in Hhd', Hnd', Hlen', Hfrom'.
      split; [exact Hhd' |]. split; [exact Hnd' |]. split; [exact Hlen' |].
      intros g Hg. destruct (Hfrom' g Hg) as [H | [(c' & Hc' & Hin) | H]].
      + left. exact H.
      + right. exists c'. split; [apply elem_of_app; left; exact Hc' | exact Hin].
      + right. exists c. split; [| exact H].
        apply elem_of_app. right. apply list_elem_of_singleton. reflexivity. }
  destruct (Hgen (channels conn) [] l0 H0) as ((e0 & rest & Heq & Hbit) & Hnd & Hlen & Hfrom).
  cbv zeta in Heq, Hnd, Hlen, Hfrom.
  split; [| split; [exact Hnd | split; [exact Hlen | exact Hfrom]]].
  exists e0, rest. split; [exact Heq |].
  apply Z.bits_inj'. intros n Hn. rewrite Z.land_spec.
  unfold POLLIN. destruct (Z.eq_dec n 0) as [-> | Hn0].
  - rewrite Hbit. reflexivity.
  - replace (Z.testbit 1 n) with false; [apply andb_false_r |].
    symmetry. apply Z.bits_above_log2; cbn; lia.
Qed.

(** ** Readiness dispatch *)

Lemma chan_notify_watch_fds_once chan poll_fd :
  NoDup (fd <$> watch_fds chan) ->
  chan_notify_watch_fds chan poll_fd =
    if negb (revents poll_fd =? 0) && bool_decide (fd poll_fd ∈ fd <$> watch_fds chan)
    then [EvFdReady (local_num chan) (userdata chan) (fd poll_fd)
            (pollfd_events_to_chan_flags (revents poll_fd))
            (notify_fd_ready chan (local_num chan) (userdata chan) (fd poll_fd)
               (pollfd_events_to_chan_flags (revents poll_fd)))]
    else [].
Proof.
  unfold chan_notify_watch_fds.
  destruct (negb (revents poll_fd =? 0)); cbn [andb].
  2:{ intros _. induction (watch_fds chan) as [| w l IH]; [reflexivity | exact IH]. }
  induction (watch_fds chan) as [| w l IH]; intros Hnd; [reflexivity |].
  rewrite fmap_cons in Hnd. apply NoDup_cons in Hnd as [Hnotin Hnd].
  cbn [flat_map]. specialize (IH Hnd).
  destruct (Z.eqb_spec (fd poll_fd) (fd w)) as [Heq | Hne].
  - rewrite bool_decide_eq_true_2 by (rewrite fmap_cons, Heq; left).
    rewrite IH.
    rewrite bool_decide_eq_false_2 by (rewrite Heq; exact Hnotin).
    reflexivity.
  - rewrite IH. cbn [app].
    destruct (decide (fd poll_fd ∈ fd <$> l)) as [Hin | Hnin].
    + rewrite !bool_decide_eq_true_2; [reflexivity | rewrite fmap_cons; right; exact Hin | exact Hin].
    + rewrite !bool_decide_eq_false_2; [reflexivity | | exact Hnin].
      rewrite fmap_cons. intros H. apply elem_of_cons in H as [H | H]; contradiction.
Qed.

(** X13. For an fd `poll` reports events on, `chan_notify_channels_watch_fds`
    calls `notify_fd_ready` once on every channel that watches the fd, in
    table order, with the flags `pollfd_events_to_chan_flags` makes of the
    events, and on no other channel; for an fd without events it calls
    nothing.  It changes no channel and sends nothing, whatever the
    callbacks return. *)
Theorem chan_notify_channels_watch_fds_calls conn poll_fd :
  Forall (fun c => NoDup (fd <$> watch_fds c)) (channels conn) ->
  let conn' := chan_notify_channels_watch_fds conn poll_fd in
  let flags := pollfd_events_to_chan_flags (revents poll_fd) in
  trace conn' =
    trace conn ++
    (if revents poll_fd =? 0 then []
     else map (fun c => EvFdReady (local_num c) (userdata c) (fd poll_fd) flags
                          (notify_fd_ready c (local_num c) (userdata c) (fd poll_fd) flags))
              (filter (fun c => fd poll_fd ∈ fd <$> watch_fds c) (channels conn))) /\
  channels conn' = channels conn /\ tx_sent conn' = tx_sent conn.
Proof.
  intros Hall. cbv zeta. split; [| split; reflexivity].
  unfold chan_notify_channels_watch_fds. cbn [trace add_trace]. f_equal.
  induction Hall as [| c l Hc _ IH]; [destruct (_ =? 0); reflexivity |].
  cbn [flat_map]. rewrite IH, (chan_notify_watch_fds_once c poll_fd Hc).
  destruct (revents poll_fd =? 0); cbn [negb andb]; [reflexivity |].
  destruct (decide (fd poll_fd ∈ fd <$> watch_fds c)) as [Hin | Hnin].
  - rewrite bool_decide_eq_true_2 by exact Hin.
    rewrite filter_cons_True by exact Hin. reflexivity.
  - rewrite bool_decide_eq_false_2 by exact Hnin.
    rewrite filter_cons_False by exact Hnin. reflexivity.
Qed.

Lemma chan_notify_channels_watch_fds_calls_witness :
  let poll_fd := {| fd := 5; events := Z.lor POLLIN POLLHUP; revents := POLLIN |} in
  let conn' := chan_notify_channels_watch_fds two_watching poll_fd in
  let flags := pollfd_events_to_chan_flags (revents poll_fd) in
  trace conn' =
    trace two_watching ++
    (if revents poll_fd =? 0 then []
     else map (fun c => EvFdReady (local_num c) (userdata c) (fd poll_fd) flags
                          (notify_fd_ready c (local_num c) (userdata c) (fd poll_fd) flags))
              (filter (fun c => fd poll_fd ∈ fd <$> watch_fds c) (channels two_watching))) /\
  channels conn' = channels two_watching /\ tx_sent conn' = tx_sent two_watching.
Proof.
  apply (chan_notify_channels_watch_fds_calls two_watching
           {| fd := 5; events := Z.lor POLLIN POLLHUP; revents := POLLIN |}).
  vm_compute.
  repeat (apply Forall_cons_2; [apply NoDup_singleton |]). apply Forall_nil_2.
Defined.

(** ** The two flag translations *)

(** X12. The interest flags {READ, WRITE, CLOSE} of a watch, taken to poll
    events and back: every flag asked for comes back, WRITE comes back
    only if asked for, and READ and CLOSE come back together (both map to
    `POLLIN | POLLHUP`, so a watch cannot ask for one without the other).
    Taking the result to poll events again gives the same events. *)
Theorem fd_flags_round_trip flags :
  0 <= flags < 8 ->
  let back := pollfd_events_to_chan_flags (chan_flags_to_pollfd_events flags) in
  back =
    Z.lor flags
      (if Z.land flags (Z.lor SSH_CHAN_FD_READ SSH_CHAN_FD_CLOSE) =? 0 then 0
       else Z.lor SSH_CHAN_FD_READ SSH_CHAN_FD_CLOSE) /\
  Z.land back flags = flags /\
  chan_flags_to_pollfd_events back = chan_flags_to_pollfd_events flags.
Proof.
  intros H. cbv zeta.
  assert (Hcases : flags = 0 \/ flags = 1 \/ flags = 2 \/ flags = 3 \/
                   flags = 4 \/ flags = 5 \/ flags = 6 \/ flags = 7) by lia.
  destruct Hcases as [-> | [-> | [-> | [-> | [-> | [-> | [-> | ->]]]]]]];
    vm_compute; repeat split.
Qed.

Lemma fd_flags_round_trip_witness :
  let back := pollfd_events_to_chan_flags (chan_flags_to_pollfd_events SSH_CHAN_FD_READ) in
  back =
    Z.lor SSH_CHAN_FD_READ
      (if Z.land SSH_CHAN_FD_READ (Z.lor SSH_CHAN_FD_READ SSH_CHAN_FD_CLOSE) =? 0 then 0
       else Z.lor SSH_CHAN_FD_READ SSH_CHAN_FD_CLOSE) /\
  Z.land back SSH_CHAN_FD_READ = SSH_CHAN_FD_READ /\
  chan_flags_to_pollfd_events back = chan_flags_to_pollfd_events SSH_CHAN_FD_READ.
Proof.
  apply (fd_flags_round_trip SSH_CHAN_FD_READ).
  vm_compute. split; [discriminate | reflexivity].
Defined.

(** ** The number of a new channel *)

Lemma chan_new_local_num_tail chs :
  forall fuel i k r,
    chan_new_local_num fuel chs i k = Some r ->
    (forall j c, (1 <= j < i)%nat -> chs !! j = Some c -> local_num c <> k) ->
    forall j c, (1 <= j)%nat -> chs !! j = Some c -> local_num c <> r.
Proof.
  induction fuel as [| fuel IH]; intros i k r Hr Hseen; [discriminate |].
  cbn [chan_new_local_num] in Hr.
  destruct (chs !! i) as [ci |] eqn:Hi.
  - destruct (Z.eqb_spec (local_num ci) k) as [Heq | Hne].
    + eapply IH; [exact Hr |]. intros j c Hj. lia.
    + eapply IH; [exact Hr |]. intros j c Hj Hc.
      destruct (decide (j = i)) as [-> | Hji].
      * rewrite Hi in Hc. injection Hc as <-. exact Hne.
      * apply (Hseen j c); [lia | exact Hc].
  - injection Hr as <-. intros j c Hj Hc.
    apply lookup_ge_None in Hi.
    destruct (decide (j < i)%nat) as [Hlt | Hge].
    + apply (Hseen j c); [lia | exact Hc].
    + apply lookup_lt_Some in Hc. lia.
Qed.

Lemma chan_new_local_num_below chs :
  Z.of_nat (length chs) < 2 ^ 32 ->
  forall fuel i k r,
    chan_new_local_num fuel chs i (Z.of_nat k) = Some r ->
    (forall j, (j < k)%nat -> Z.of_nat j ∈ map local_num chs) ->
    exists k', r = Z.of_nat k' /\ (k' <= length chs)%nat /\
               forall j, (j < k')%nat -> Z.of_nat j ∈ map local_num chs.
Proof.
  intros Hlen. induction fuel as [| fuel IH]; intros i k r Hr Hused; [discriminate |].
  cbn [chan_new_local_num] in Hr.
  pose proof (used_numbers_bound chs k Hused) as Hk.
  destruct (chs !! i) as [ci |] eqn:Hi.
  - destruct (Z.eqb_spec (local_num ci) (Z.of_nat k)) as [Heq | Hne].
    + assert (Hused' : forall j, (j < S k)%nat -> Z.of_nat j ∈ map local_num chs).
      { intros j Hj.
        destruct (decide (j = k)) as [-> | Hjk]; [| apply Hused; lia].
        rewrite <- Heq. apply list_elem_of_fmap. exists ci. split; [reflexivity |].
        eapply list_elem_of_lookup_2. exact Hi. }
      pose proof (used_numbers_bound chs (S k) Hused') as Hk'.
      replace (wrap32 (Z.of_nat k + 1)) with (Z.of_nat (S k)) in Hr
        by (unfold wrap32; rewrite Z.mod_small; lia).
      eapply IH; [exact Hr | exact Hused'].
    + eapply IH; [exact Hr | exact Hused].
  - injection Hr as <-. exists k. split; [reflexivity |]. split; [exact Hk | exact Hused].
Qed.

(** X1. `chan_new` on a table of fewer than 2^32 channels, when `ssh_alloc`
    gives memory: the new channel is appended to the table, REQUESTED,
    without watches, with the userdata of its config.  Its number [n] is at
    most the number of channels; every number below [n] is in use; and no
    channel of the table other than the first one has the number [n] (the
    scan starts again at index 1 after a match, so the first channel is the
    only one it can miss). *)
Theorem chan_new_appends_channel conn cfg :
  Z.of_nat (length (channels conn)) < 2 ^ 32 ->
  exists c,
    chan_new true conn cfg
    = ChanNew (set_channels conn (channels conn ++ [c])) (length (channels conn)) /\
    status c = CHAN_STATUS_REQUESTED /\ watch_fds c = [] /\
    userdata c = cfg_userdata cfg /\ type c = cfg_type cfg /\
    0 <= local_num c <= Z.of_nat (length (channels conn)) /\
    (forall n, 0 <= n < local_num c -> n ∈ map local_num (channels conn)) /\
    local_num c ∉ map local_num (drop 1 (channels conn)).
Proof.
  intros Hlen. unfold chan_new.
  destruct (chan_new_local_num_returns (channels conn) Hlen) as [r Hr].
  rewrite Hr. cbn [negb]. cbv zeta.
  eexists. split; [reflexivity |]. cbn [status watch_fds userdata type local_num].
  repeat (split; [reflexivity |]).
  destruct (chan_new_local_num_below (channels conn) Hlen _ 0%nat 0%nat r Hr)
    as (k & -> & Hk & Hused); [intros j Hj; lia |].
  split; [lia |]. split.
  - intros n Hn. replace n with (Z.of_nat (Z.to_nat n)) by lia. apply Hused. lia.
  - intros Hin. apply list_elem_of_fmap in Hin as (c & Hc & Hin).
    apply list_elem_of_lookup in Hin as [j Hj]. rewrite lookup_drop in Hj.
    apply (chan_new_local_num_tail (channels conn) _ 0%nat 0 (Z.of_nat k) Hr) with (j := (1 + j)%nat) (c := c).
    + intros j' c' Hj'. lia.
    + lia.
    + exact Hj.
    + symmetry. exact Hc.
Qed.

Lemma chan_new_appends_channel_witness :
  exists c,
    chan_new true one_open (host_cfg 101 0 0)
    = ChanNew (set_channels one_open (channels one_open ++ [c]))
              (length (channels one_open)) /\
    status c = CHAN_STATUS_REQUESTED /\ watch_fds c = [] /\
    userdata c = cfg_userdata (host_cfg 101 0 0) /\ type c = cfg_type (host_cfg 101 0 0) /\
    0 <= local_num c <= Z.of_nat (length (channels one_open)) /\
    (forall n, 0 <= n < local_num c -> n ∈ map local_num (channels one_open)) /\
    local_num c ∉ map local_num (drop 1 (channels one_open)).
Proof.
  apply (chan_new_appends_channel one_open (host_cfg 101 0 0)).
  vm_compute. reflexivity.
Defined.

(** ** Registration *)

Lemma chan_open_channels_sequential cfgs :
  forall conn n,
    map local_num (channels conn) = Z.of_nat <$> seq 0 n ->
    tx_up conn = true ->
    Forall (fun cfg => cfg_type cfg = SSH_CHAN_TYPE_SESSION) cfgs ->
    Z.of_nat (n + length cfgs) < 2 ^ 32 ->
    exists conn' new,
      chan_open_channels true conn cfgs = Returns 0 conn' /\
      channels conn' = channels conn ++ new /\
      map local_num new = Z.of_nat <$> seq n (length cfgs) /\
      map userdata new = map cfg_userdata cfgs /\
      Forall (fun c => status c = CHAN_STATUS_REQUESTED /\ watch_fds c = []) new /\
      tx_sent conn' =
        tx_sent conn ++
        ((fun i => ssh_buf_write_u32 (ssh_buf_write_u32 (ssh_buf_write_u32
                     (ssh_buf_write_cstring (ssh_buf_write_u8 [] SSH_MSG_CHANNEL_OPEN)
                                            (cstr "session"))
                     (Z.of_nat i)) (256 * 1024)) 65536) <$> seq n (length cfgs)) /\
      trace conn' = trace conn.
Proof.
  induction cfgs as [| cfg cfgs IH]; intros conn n Hseq Hup Hsess Hlen.
  - exists conn, []. cbn. rewrite !app_nil_r. repeat split. constructor.
  - apply Forall_cons in Hsess as [Hty Hsess]. cbn [length] in Hlen.
    assert (Hn : length (channels conn) = n).
    { apply (f_equal length) in Hseq.
      rewrite length_map, length_fmap, length_seq in Hseq. exact Hseq. }
    cbn [chan_open_channels]. unfold chan_new.
    rewrite (chan_new_local_num_sequential (channels conn) n Hseq) by lia.
    cbn [negb]. cbv zeta. cbn [channels set_channels].
    set (chan := mkChan (cfg_userdata cfg) CHAN_STATUS_REQUESTED [] (Z.of_nat n) 0 65536
                        (256 * 1024) 0 0 (cfg_type cfg) (cfg_type_config cfg)
                        (cfg_notify_open cfg) (cfg_notify_fd_ready cfg)).
    rewrite lookup_app_r by lia. rewrite Nat.sub_diag. cbn [lookup list_lookup].
    unfold chan_send_channel_open.
    replace (type chan) with SSH_CHAN_TYPE_SESSION by (symmetry; exact Hty).
    cbn [chan_get_type_data]. cbv zeta.
    unfold conn_send_packet. cbn [tx_up set_channels]. rewrite Hup.
    change (0 <? 0) with false. cbv iota.
    match goal with |- context [chan_open_channels true ?c cfgs] => set (conn1 := c) end.
    assert (Hch1 : channels conn1 = channels conn ++ [chan]).
    { unfold conn1, set_chan. cbn [channels set_channels].
      rewrite insert_app_r_alt by lia. rewrite Nat.sub_diag. reflexivity. }
    destruct (IH conn1 (S n)) as (conn' & new & Hrun & Hch & Hnums & Hud & Hst & Htx & Htr).
    + rewrite Hch1, map_app, Hseq. cbn [map local_num chan].
      rewrite seq_S, fmap_app. reflexivity.
    + reflexivity.
    + exact Hsess.
    + lia.
    + exists conn', (chan :: new). rewrite Hrun. split; [reflexivity |].
      split; [rewrite Hch, Hch1, <- app_assoc; reflexivity |].
      split; [cbn [map length seq fmap list_fmap]; rewrite Hnums; reflexivity |].
      split; [cbn [map]; rewrite Hud; reflexivity |].
      split; [constructor; [split; reflexivity | exact Hst] |].
      split; [| exact Htr].
      rewrite Htx. unfold conn1. cbn [tx_sent set_chan set_channels length seq fmap list_fmap].
      rewrite <- app_assoc. reflexivity.
Qed.

(** X2. Registration on an empty table over a working transport: the sessions
    get the numbers 0, 1, ..., k-1 in the order of their configs (so no
    number is used twice), each is REQUESTED, and one CHANNEL_OPEN packet
    ("session", number, window 256 KiB, maximum packet 64 KiB) is sent per
    channel, in this order; no callback is called. *)
Theorem chan_open_channels_numbers conn cfgs :
  channels conn = [] -> tx_up conn = true ->
  Forall (fun cfg => cfg_type cfg = SSH_CHAN_TYPE_SESSION) cfgs ->
  Z.of_nat (length cfgs) < 2 ^ 32 ->
  exists conn',
    chan_open_channels true conn cfgs = Returns 0 conn' /\
    map local_num (channels conn') = Z.of_nat <$> seq 0 (length cfgs) /\
    map userdata (channels conn') = map cfg_userdata cfgs /\
    Forall (fun c => status c = CHAN_STATUS_REQUESTED /\ watch_fds c = []) (channels conn') /\
    tx_sent conn' =
      tx_sent conn ++
      ((fun i => ssh_buf_write_u32 (ssh_buf_write_u32 (ssh_buf_write_u32
                   (ssh_buf_write_cstring (ssh_buf_write_u8 [] SSH_MSG_CHANNEL_OPEN)
                                          (cstr "session"))
                   (Z.of_nat i)) (256 * 1024)) 65536) <$> seq 0 (length cfgs)) /\
    trace conn' = trace conn.
Proof.
  intros Hempty Hup Hsess Hlen.
  destruct (chan_open_channels_sequential cfgs conn 0%nat)
    as (conn' & new & Hrun & Hch & Hnums & Hud & Hst & Htx & Htr);
    [rewrite Hempty; reflexivity | exact Hup | exact Hsess | lia |].
  rewrite Hempty in Hch. cbn [app] in Hch.
  exists conn'. rewrite Hch. repeat (split; [assumption |]). exact Htr.
Qed.

Lemma chan_open_channels_numbers_witness :
  exists conn',
    chan_open_channels true fresh_conn [host_cfg 100 0 0; host_cfg 101 0 0]
    = Returns 0 conn' /\
    map local_num (channels conn')
    = Z.of_nat <$> seq 0 (length [host_cfg 100 0 0; host_cfg 101 0 0]) /\
    map userdata (channels conn') = map cfg_userdata [host_cfg 100 0 0; host_cfg 101 0 0] /\
    Forall (fun c => status c = CHAN_STATUS_REQUESTED /\ watch_fds c = []) (channels conn') /\
    tx_sent conn' =
      tx_sent fresh_conn ++
      ((fun i => ssh_buf_write_u32 (ssh_buf_write_u32 (ssh_buf_write_u32
                   (ssh_buf_write_cstring (ssh_buf_write_u8 [] SSH_MSG_CHANNEL_OPEN)
                                          (cstr "session"))
                   (Z.of_nat i)) (256 * 1024)) 65536)
         <$> seq 0 (length [host_cfg 100 0 0; host_cfg 101 0 0])) /\
    trace conn' = trace fresh_conn.
Proof.
  apply (chan_open_channels_numbers fresh_conn [host_cfg 100 0 0; host_cfg 101 0 0]).
  - reflexivity.
  - reflexivity.
  - repeat (apply Forall_cons_2; [reflexivity |]). apply Forall_nil_2.
  - vm_compute. reflexivity.
Defined.

(** X3. When the CHANNEL_OPEN of a new channel cannot be sent (the transport
    does not take the packet, or the channel type has no name),
    `ssh_chan_run_connection` returns -1 at once: the channel `chan_new`
    has just stored stays in the table, REQUESTED; `chan_close_all_channels`
    is not run and no callback is called. *)
Theorem failed_open_leaves_channel_in_table script conn cfg cfgs :
  Z.of_nat (length (channels conn)) < 2 ^ 32 ->
  tx_up conn = false \/ cfg_type cfg <> SSH_CHAN_TYPE_SESSION ->
  exists c,
    ssh_chan_run_connection 0 true script conn (cfg :: cfgs)
    = Returns (-1) (set_channels conn (channels conn ++ [c])) /\
    status c = CHAN_STATUS_REQUESTED /\ userdata c = cfg_userdata cfg.
Proof.
  intros Hlen Hfail. unfold ssh_chan_run_connection.
  change (0 <? 0) with false. cbv iota.
  cbn [chan_open_channels]. unfold chan_new.
  destruct (chan_new_local_num_returns (channels conn) Hlen) as [r Hr].
  rewrite Hr. cbn [negb]. cbv zeta. cbn [channels set_channels].
  rewrite lookup_app_r by lia. rewrite Nat.sub_diag. cbn [lookup list_lookup].
  exists (mkChan (cfg_userdata cfg) CHAN_STATUS_REQUESTED [] r 0 65536 (256 * 1024) 0 0
                 (cfg_type cfg) (cfg_type_config cfg)
                 (cfg_notify_open cfg) (cfg_notify_fd_ready cfg)).
  split; [| split; reflexivity].
  unfold chan_send_channel_open. cbn [type].
  destruct Hfail as [Hdown | Hty].
  - destruct (chan_get_type_data (cfg_type cfg)); [| reflexivity].
    cbv zeta. unfold conn_send_packet. cbn [tx_up set_channels]. rewrite Hdown. reflexivity.
  - destruct (cfg_type cfg); [contradiction | reflexivity].
Qed.

Lemma failed_open_leaves_channel_in_table_witness :
  exists c,
    ssh_chan_run_connection 0 true []
      (mkConn 3 [] false [] []) (host_cfg 100 0 0 :: [])
    = Returns (-1) (set_channels (mkConn 3 [] false [] [])
                      (channels (mkConn 3 [] false [] []) ++ [c])) /\
    status c = CHAN_STATUS_REQUESTED /\ userdata c = cfg_userdata (host_cfg 100 0 0).
Proof.
  apply (failed_open_leaves_channel_in_table [] (mkConn 3 [] false [] [])
           (host_cfg 100 0 0) []).
  - vm_compute. reflexivity.
  - left. reflexivity.
Defined.

(** ** The header of a channel packet *)

Lemma payload_reader_wf payload p :
  Forall is_byte payload -> Z.of_nat (length payload) <= SIZE_MAX ->
  reader_wf (mkReader payload p (Z.of_nat (length payload))).
Proof. intros Hb Hl. split; [exact Hb | cbn; lia]. Qed.

(** The header of a channel packet: the type byte and the recipient. *)
Lemma channel_packet_header payload :
  Forall is_byte payload -> Z.of_nat (length payload) <= SIZE_MAX ->
  let pack := ssh_buf_reader_new payload (Z.of_nat (length payload)) in
  let len := Z.of_nat (length payload) in
  ssh_buf_read_u8 pack (Some 0) =
    (if 1 <=? len then (0, mkReader payload 1 len, Some (byte_at payload 0))
     else (-1, pack, Some 0)) /\
  ssh_buf_read_u32 (mkReader payload 1 len) (Some 0) =
    (if 5 <=? len then (0, mkReader payload 5 len, Some (be32_at payload 1))
     else (-1, mkReader payload 1 len, Some 0)).
Proof.
  intros Hb Hl. cbv zeta. unfold ssh_buf_reader_new. split.
  - rewrite ssh_buf_read_u8_spec
      by (first [apply payload_reader_wf; assumption | unfold reader_inv; cbn; lia]).
    cbn [rd_pos rd_len rd_data]. change (0 + 1) with 1.
    destruct (1 <=? _); reflexivity.
  - destruct (Z.leb_spec 5 (Z.of_nat (length payload))) as [H5 | H5].
    + rewrite ssh_buf_read_u32_spec
        by (first [apply payload_reader_wf; assumption | unfold reader_inv; cbn; lia]).
      cbn [rd_pos rd_len rd_data]. change (1 + 4) with 5.
      destruct (Z.leb_spec 5 (Z.of_nat (length payload))); [reflexivity | lia].
    + unfold ssh_buf_read_u32, check_advance. cbn [rd_pos rd_len].
      rewrite checked_add_spec by (unfold SIZE_MAX, SIZE_BITS; lia).
      change (1 + 4) with 5.
      destruct (Z.leb_spec 5 SIZE_MAX) as [_ | Hbad];
        [| unfold SIZE_MAX, SIZE_BITS in Hbad; lia].
      change (0 <? 0) with false. cbv iota.
      destruct (Z.gtb_spec 5 (Z.of_nat (length payload))); [reflexivity | lia].
Qed.

Lemma chan_process_packet_dispatch conn payload :
  byte_at payload 0 = SSH_MSG_CHANNEL_OPEN_CONFIRMATION \/
  byte_at payload 0 = SSH_MSG_CHANNEL_OPEN_FAILURE \/
  byte_at payload 0 = SSH_MSG_CHANNEL_SUCCESS \/
  byte_at payload 0 = SSH_MSG_CHANNEL_WINDOW_ADJUST \/
  byte_at payload 0 = SSH_MSG_CHANNEL_DATA ->
  chan_process_packet conn (ssh_buf_reader_new payload (Z.of_nat (length payload)))
  = chan_process_channel_packet conn
      (ssh_buf_reader_new payload (Z.of_nat (length payload))).
Proof.
  intros Ht. unfold chan_process_packet, ssh_packet_get_type. cbn [rd_data ssh_buf_reader_new].
  destruct Ht as [-> | [-> | [-> | [-> | ->]]]]; reflexivity.
Qed.

Lemma payload_nonempty payload :
  byte_at payload 0 <> 0 -> 1 <= Z.of_nat (length payload).
Proof.
  destruct payload; [intros H; contradiction H; reflexivity | cbn [length]; lia].
Qed.

(** ** Packets the engine refuses *)

(** X8. A channel packet (CHANNEL_OPEN_CONFIRMATION, CHANNEL_OPEN_FAILURE,
    CHANNEL_SUCCESS, CHANNEL_WINDOW_ADJUST or CHANNEL_DATA) that is shorter
    than its five-byte header, or names a channel that is not in the table,
    or is a CHANNEL_DATA whose announced length passes the end of the
    packet, makes `chan_process_packets` return -1 at once: the packets
    behind it are not looked at, no channel changes, nothing is sent and no
    callback is called. *)
Theorem malformed_channel_packet_refused conn payload rest :
  Forall is_byte payload -> Z.of_nat (length payload) <= SIZE_MAX ->
  byte_at payload 0 = SSH_MSG_CHANNEL_OPEN_CONFIRMATION \/
  byte_at payload 0 = SSH_MSG_CHANNEL_OPEN_FAILURE \/
  byte_at payload 0 = SSH_MSG_CHANNEL_SUCCESS \/
  byte_at payload 0 = SSH_MSG_CHANNEL_WINDOW_ADJUST \/
  byte_at payload 0 = SSH_MSG_CHANNEL_DATA ->
  Z.of_nat (length payload) < 5 \/
  chan_get_by_num conn (be32_at payload 1) = None \/
  byte_at payload 0 = SSH_MSG_CHANNEL_DATA /\
  Z.of_nat (length payload) < 9 + be32_at payload 5 ->
  chan_process_packets (RxPacket payload :: rest) conn = (-1, conn).
Proof.
  intros Hb Hl Ht Hbad. cbn [chan_process_packets].
  rewrite (chan_process_packet_dispatch conn payload Ht).
  enough (H : chan_process_channel_packet conn
                (ssh_buf_reader_new payload (Z.of_nat (length payload))) = (-1, conn))
    by (rewrite H; reflexivity).
  destruct (Z.ltb_spec (Z.of_nat (length payload)) 5) as [Hshort | H5].
  { unfold chan_process_channel_packet.
    destruct (channel_packet_header payload Hb Hl) as [Hu8 Hu32]. cbv zeta in Hu8, Hu32.
    rewrite Hu8. destruct (1 <=? _); [| reflexivity].
    change (0 <? 0) with false. cbv iota. cbn [default]. rewrite Hu32.
    destruct (Z.leb_spec 5 (Z.of_nat (length payload))); [lia | reflexivity]. }
  channel_header (channel_packet_header payload Hb Hl) payload.
  destruct (chan_get_by_num conn (be32_at payload 1)) as [[i chan] |] eqn:Hget;
    [| reflexivity].
  destruct Hbad as [Hshort | [Hnone | [Hdata Hlong]]]; [lia | discriminate |].
  rewrite Hdata.
  unfold SSH_MSG_CHANNEL_OPEN_CONFIRMATION, SSH_MSG_CHANNEL_OPEN_FAILURE,
    SSH_MSG_CHANNEL_SUCCESS, SSH_MSG_CHANNEL_DATA.
  closed_tests.
  destruct (Z.leb_spec 9 (Z.of_nat (length payload))) as [H9 | H9].
  - rewrite ssh_buf_read_string_spec
      by (first [apply payload_reader_wf; assumption | unfold reader_inv; cbn; lia]).
    cbn [rd_pos rd_len rd_data]. change (5 + 4) with 9.
    destruct (Z.leb_spec 9 (Z.of_nat (length payload))); [| lia].
    cbv zeta.
    destruct (Z.leb_spec (9 + be32_at payload 5) (Z.of_nat (length payload))); [lia |].
    reflexivity.
  - unfold ssh_buf_read_string, ssh_buf_read_u32, check_advance. cbn [rd_pos rd_len].
    rewrite checked_add_spec by (unfold SIZE_MAX, SIZE_BITS; lia).
    change (5 + 4) with 9.
    destruct (Z.leb_spec 9 SIZE_MAX) as [_ | Hbad];
      [| unfold SIZE_MAX, SIZE_BITS in Hbad; lia].
    change (0 <? 0) with false. cbv iota.
    destruct (Z.gtb_spec 9 (Z.of_nat (length payload))); [reflexivity | lia].
Qed.

Lemma malformed_channel_packet_refused_witness :
  chan_process_packets
    (RxPacket [94; 0; 0; 0; 0; 0; 0; 0; 5; 104; 105] :: [RxPacket (pkt_channel_success 0)])
    one_open
  = (-1, one_open).
Proof.
  apply (malformed_channel_packet_refused one_open
           [94; 0; 0; 0; 0; 0; 0; 0; 5; 104; 105] [RxPacket (pkt_channel_success 0)]).
  - repeat (apply Forall_cons_2; [vm_compute; split; [discriminate | reflexivity] |]).
    apply Forall_nil_2.
  - vm_compute. discriminate.
  - right. right. right. right. reflexivity.
  - right. right. split; [reflexivity | vm_compute; reflexivity].
Defined.

(** ** CHANNEL_SUCCESS *)

(** X7. A CHANNEL_SUCCESS for a channel of the table stores OPEN and calls
    `open`, whatever the status of the channel was (REQUESTED, but also
    OPEN already, or CLOSED and not yet swept); when `open` returns a
    negative value the channel is closed at once: `closed` is called and
    the status is CLOSED.  The call returns 0 either way, nothing is sent,
    and bytes behind the header are not looked at. *)
Theorem channel_success_opens_channel conn payload i chan :
  Forall is_byte payload -> Z.of_nat (length payload) <= SIZE_MAX ->
  byte_at payload 0 = SSH_MSG_CHANNEL_SUCCESS -> 5 <= Z.of_nat (length payload) ->
  chan_get_by_num conn (be32_at payload 1) = Some (i, chan) ->
  let ret := notify_open chan (local_num chan) (userdata chan) in
  chan_process_packets [RxPacket payload] conn =
    (0, if ret <? 0
        then add_trace (set_chan conn i (set_status chan CHAN_STATUS_CLOSED))
                       [EvOpen (local_num chan) (userdata chan) ret;
                        EvClosed (local_num chan) (userdata chan)]
        else add_trace (set_chan conn i (set_status chan CHAN_STATUS_OPEN))
                       [EvOpen (local_num chan) (userdata chan) ret]).
Proof.
  intros Hb Hl Ht H5 Hget ret. cbn [chan_process_packets].
  rewrite (chan_process_packet_dispatch conn payload) by tauto.
  channel_header (channel_packet_header payload Hb Hl) payload.
  rewrite Hget, Ht.
  unfold SSH_MSG_CHANNEL_OPEN_CONFIRMATION, SSH_MSG_CHANNEL_OPEN_FAILURE,
    SSH_MSG_CHANNEL_SUCCESS.
  closed_tests. cbv zeta.
  cbn [notify_open local_num userdata set_status]. fold ret.
  destruct (ret <? 0).
  - unfold ssh_chan_close. cbn [status set_status].
    destruct (decide (CHAN_STATUS_OPEN = CHAN_STATUS_OPEN)) as [_ | Hne];
      [| contradiction Hne; reflexivity].
    change (0 <? 0) with false. cbv iota.
    unfold add_trace, set_chan, set_channels.
    cbn [sock channels tx_up tx_sent trace local_num userdata].
    rewrite list_insert_insert_eq, <- app_assoc. reflexivity.
  - change (0 <? 0) with false. reflexivity.
Qed.

Lemma channel_success_opens_channel_witness :
  let conn := mkConn 3 [open_chan] true [] [] in
  let ret := notify_open open_chan (local_num open_chan) (userdata open_chan) in
  chan_process_packets [RxPacket (pkt_channel_success 0)] conn =
    (0, if ret <? 0
        then add_trace (set_chan conn 0 (set_status open_chan CHAN_STATUS_CLOSED))
                       [EvOpen (local_num open_chan) (userdata open_chan) ret;
                        EvClosed (local_num open_chan) (userdata open_chan)]
        else add_trace (set_chan conn 0 (set_status open_chan CHAN_STATUS_OPEN))
                       [EvOpen (local_num open_chan) (userdata open_chan) ret]).
Proof.
  apply (channel_success_opens_channel (mkConn 3 [open_chan] true [] [])
           (pkt_channel_success 0) 0%nat open_chan).
  - repeat (apply Forall_cons_2; [vm_compute; split; [discriminate | reflexivity] |]).
    apply Forall_nil_2.
  - vm_compute. discriminate.
  - reflexivity.
  - vm_compute. discriminate.
  - reflexivity.
Defined.

(** ** CHANNEL_OPEN_CONFIRMATION *)

Lemma payload_read_u32 payload p ret :
  Forall is_byte payload -> Z.of_nat (length payload) <= SIZE_MAX ->
  0 <= p <= Z.of_nat (length payload) ->
  ssh_buf_read_u32 (mkReader payload p (Z.of_nat (length payload))) (Some ret) =
    if p + 4 <=? Z.of_nat (length payload)
    then (0, mkReader payload (p + 4) (Z.of_nat (length payload)), Some (be32_at payload p))
    else (-1, mkReader payload p (Z.of_nat (length payload)), Some ret).
Proof.
  intros Hb Hl Hp.
  rewrite ssh_buf_read_u32_spec
    by (first [apply payload_reader_wf; assumption | unfold reader_inv; cbn; lia]).
  reflexivity.
Qed.

(** X5. A CHANNEL_OPEN_CONFIRMATION for a session of the table, complete (17
    bytes or more) and over a working transport: the sender channel, the
    window and the maximum packet size of the peer are stored in the
    channel; a `pty-req` request (no reply wanted; the terminal of the
    config, its width and height, 0 pixels, no modes) and a `shell` request
    (reply wanted) are sent to the peer's channel, in this order.  The
    status of the channel is not changed and no callback is called. *)
Theorem channel_open_confirmation_stores_and_requests conn payload i chan :
  Forall is_byte payload -> Z.of_nat (length payload) <= SIZE_MAX ->
  byte_at payload 0 = SSH_MSG_CHANNEL_OPEN_CONFIRMATION ->
  17 <= Z.of_nat (length payload) ->
  chan_get_by_num conn (be32_at payload 1) = Some (i, chan) ->
  type chan = SSH_CHAN_TYPE_SESSION -> tx_up conn = true ->
  let remote := be32_at payload 5 in
  let chan' :=
    set_remote_max_packet_size
      (set_remote_window_size (set_remote_num chan remote) (be32_at payload 9))
      (be32_at payload 13) in
  let pty_req :=
    ssh_buf_write_cstring (ssh_buf_write_u32 (ssh_buf_write_u32 (ssh_buf_write_u32
      (ssh_buf_write_u32 (ssh_buf_write_cstring (ssh_buf_write_u8 (ssh_buf_write_cstring
        (ssh_buf_write_u32 (ssh_buf_write_u8 [] SSH_MSG_CHANNEL_REQUEST) remote)
        (cstr "pty-req")) 0) (term (type_config chan)))
      (term_width (type_config chan))) (term_height (type_config chan))) 0) 0) [] in
  let shell :=
    ssh_buf_write_u8 (ssh_buf_write_cstring
      (ssh_buf_write_u32 (ssh_buf_write_u8 [] SSH_MSG_CHANNEL_REQUEST) remote)
      (cstr "shell")) 1 in
  chan_process_packets [RxPacket payload] conn =
    (0, mkConn (sock conn) (<[i := chan']> (channels conn)) true
               (tx_sent conn ++ [pty_req; shell]) (trace conn)) /\
  status chan' = status chan.
Proof.
  intros Hb Hl Ht H17 Hget Hty Hup remote chan' pty_req shell.
  split; [| reflexivity]. cbn [chan_process_packets].
  rewrite (chan_process_packet_dispatch conn payload) by tauto.
  channel_header (channel_packet_header payload Hb Hl) payload.
  rewrite Hget, Ht.
  unfold SSH_MSG_CHANNEL_OPEN_CONFIRMATION. closed_tests.
  rewrite payload_read_u32 by (first [assumption | lia]).
  destruct (Z.leb_spec (5 + 4) (Z.of_nat (length payload))); [| lia].
  cbv beta iota zeta. change (0 <? 0) with false. cbv iota. cbn [default]. unfold id.
  rewrite payload_read_u32 by (first [assumption | lia]).
  destruct (Z.leb_spec (5 + 4 + 4) (Z.of_nat (length payload))); [| lia].
  cbv beta iota zeta. change (0 <? 0) with false. cbv iota. cbn [default]. unfold id.
  rewrite payload_read_u32 by (first [assumption | lia]).
  destruct (Z.leb_spec (5 + 4 + 4 + 4) (Z.of_nat (length payload))); [| lia].
  cbv beta iota zeta. change (0 <? 0) with false. cbv iota. cbn [default]. unfold id.
  change (5 + 4) with 9. change (9 + 4) with 13.
  fold remote. cbn [type set_remote_max_packet_size set_remote_window_size set_remote_num].
  rewrite Hty.
  unfold chan_send_session_requests, conn_send_packet.
  cbn [tx_up set_chan set_channels type_config remote_num sock channels tx_sent trace].
  rewrite Hup. cbv zeta. cbn [tx_up sock channels tx_sent trace].
  change (0 <? 0) with false. cbv iota.
  rewrite !list_insert_insert_eq, <- app_assoc. reflexivity.
Qed.

Lemma channel_open_confirmation_stores_and_requests_witness :
  let payload := pkt_channel_open_confirmation 0 7 131072 32768 in
  let conn := mkConn 3 [open_chan] true [] [] in
  let remote := be32_at payload 5 in
  let chan' :=
    set_remote_max_packet_size
      (set_remote_window_size (set_remote_num open_chan remote) (be32_at payload 9))
      (be32_at payload 13) in
  let pty_req :=
    ssh_buf_write_cstring (ssh_buf_write_u32 (ssh_buf_write_u32 (ssh_buf_write_u32
      (ssh_buf_write_u32 (ssh_buf_write_cstring (ssh_buf_write_u8 (ssh_buf_write_cstring
        (ssh_buf_write_u32 (ssh_buf_write_u8 [] SSH_MSG_CHANNEL_REQUEST) remote)
        (cstr "pty-req")) 0) (term (type_config open_chan)))
      (term_width (type_config open_chan))) (term_height (type_config open_chan))) 0) 0) [] in
  let shell :=
    ssh_buf_write_u8 (ssh_buf_write_cstring
      (ssh_buf_write_u32 (ssh_buf_write_u8 [] SSH_MSG_CHANNEL_REQUEST) remote)
      (cstr "shell")) 1 in
  chan_process_packets [RxPacket payload] conn =
    (0, mkConn (sock conn) (<[0%nat := chan']> (channels conn)) true
               (tx_sent conn ++ [pty_req; shell]) (trace conn)) /\
  status chan' = status open_chan.
Proof.
  apply (channel_open_confirmation_stores_and_requests (mkConn 3 [open_chan] true [] [])
           (pkt_channel_open_confirmation 0 7 131072 32768) 0%nat open_chan).
  - vm_compute.
    repeat (apply Forall_cons_2; [vm_compute; split; [discriminate | reflexivity] |]).
    apply Forall_nil_2.
  - vm_compute. discriminate.
  - reflexivity.
  - vm_compute. discriminate.
  - reflexivity.
  - reflexivity.
  - reflexivity.
Defined.

(** X6. A CHANNEL_OPEN_CONFIRMATION that ends after the sender channel (9 to
    12 bytes) or after the window (13 to 16 bytes) is refused with -1, but
    not before the fields it does hold are stored in the channel: the
    three reads store into the channel one after the other.  Nothing is
    sent and no callback is called. *)
Theorem channel_open_confirmation_cut_short conn payload rest i chan :
  Forall is_byte payload -> Z.of_nat (length payload) <= SIZE_MAX ->
  byte_at payload 0 = SSH_MSG_CHANNEL_OPEN_CONFIRMATION ->
  9 <= Z.of_nat (length payload) < 17 ->
  chan_get_by_num conn (be32_at payload 1) = Some (i, chan) ->
  let chan1 := set_remote_num chan (be32_at payload 5) in
  let chan' :=
    if 13 <=? Z.of_nat (length payload)
    then set_remote_window_size chan1 (be32_at payload 9)
    else chan1 in
  chan_process_packets (RxPacket payload :: rest) conn = (-1, set_chan conn i chan').
Proof.
  intros Hb Hl Ht Hlen Hget chan1 chan'. cbn [chan_process_packets].
  rewrite (chan_process_packet_dispatch conn payload) by tauto.
  channel_header (channel_packet_header payload Hb Hl) payload.
  rewrite Hget, Ht.
  unfold SSH_MSG_CHANNEL_OPEN_CONFIRMATION. closed_tests.
  rewrite payload_read_u32 by (first [assumption | lia]).
  destruct (Z.leb_spec (5 + 4) (Z.of_nat (length payload))); [| lia].
  cbv beta iota zeta. change (0 <? 0) with false. cbv iota. cbn [default]. unfold id.
  fold chan1.
  rewrite payload_read_u32 by (first [assumption | lia]).
  change (5 + 4) with 9. change (9 + 4) with 13. subst chan'.
  destruct (Z.leb_spec 13 (Z.of_nat (length payload))) as [H13 | H13].
  - cbv beta iota zeta. change (0 <? 0) with false. cbv iota. cbn [default]. unfold id.
    rewrite payload_read_u32 by (first [assumption | lia]).
    destruct (Z.leb_spec (13 + 4) (Z.of_nat (length payload))); [lia |].
    cbv beta iota zeta. change (-1 <? 0) with true. cbv iota. cbn [default]. unfold id.
    unfold set_chan, set_channels. cbn [sock channels tx_up tx_sent trace].
    rewrite !list_insert_insert_eq. reflexivity.
  - cbv beta iota zeta. change (-1 <? 0) with true. cbv iota. cbn [default]. unfold id.
    change (-1 <? 0) with true. cbv iota.
    unfold set_chan, set_channels. cbn [sock channels tx_up tx_sent trace].
    rewrite !list_insert_insert_eq. reflexivity.
Qed.

Lemma channel_open_confirmation_cut_short_witness :
  let payload := [91; 0; 0; 0; 0; 0; 0; 0; 7; 0; 2] in
  let conn := mkConn 3 [open_chan] true [] [] in
  let chan1 := set_remote_num open_chan (be32_at payload 5) in
  let chan' :=
    if 13 <=? Z.of_nat (length payload)
    then set_remote_window_size chan1 (be32_at payload 9)
    else chan1 in
  chan_process_packets (RxPacket payload :: []) conn = (-1, set_chan conn 0 chan').
Proof.
  apply (channel_open_confirmation_cut_short (mkConn 3 [open_chan] true [] [])
           [91; 0; 0; 0; 0; 0; 0; 0; 7; 0; 2] [] 0%nat open_chan).
  - repeat (apply Forall_cons_2; [vm_compute; split; [discriminate | reflexivity] |]).
    apply Forall_nil_2.
  - vm_compute. discriminate.
  - reflexivity.
  - vm_compute. split; [discriminate | reflexivity].
  - reflexivity.
Defined.

(** ** Global requests *)

(** X10. A GLOBAL_REQUEST is answered with REQUEST_FAILURE exactly when its
    `want_reply` byte is not 0, whatever the request is; no channel
    changes and no callback is called.  A request cut short (before the
    end of its name or before `want_reply`) is refused with -1, and so is
    one whose reply the transport does not take. *)
Theorem global_request_reply conn payload :
  Forall is_byte payload -> Z.of_nat (length payload) <= SIZE_MAX ->
  byte_at payload 0 = SSH_MSG_GLOBAL_REQUEST ->
  let len := Z.of_nat (length payload) in
  let name_len := be32_at payload 1 in
  chan_process_packets [RxPacket payload] conn =
    if (5 <=? len) && (5 + name_len + 1 <=? len) then
      if byte_at payload (5 + name_len) =? 0 then (0, conn)
      else if tx_up conn
           then (0, mkConn (sock conn) (channels conn) (tx_up conn)
                           (tx_sent conn ++ [[SSH_MSG_REQUEST_FAILURE]]) (trace conn))
           else (-1, conn)
    else (-1, conn).
Proof.
  intros Hb Hl Ht len name_len. cbn [chan_process_packets].
  unfold chan_process_packet, ssh_packet_get_type. cbn [rd_data ssh_buf_reader_new].
  rewrite Ht. unfold SSH_MSG_GLOBAL_REQUEST at 1 2. closed_tests.
  assert (H1 : 1 <= Z.of_nat (length payload)).
  { apply payload_nonempty. rewrite Ht. discriminate. }
  pose proof (be32_at_range payload 1 Hb) as Hname. fold name_len in Hname.
  unfold chan_handle_global_request, ssh_buf_reader_new.
  rewrite ssh_buf_read_skip_spec
    by (first [apply payload_reader_wf; assumption
              | unfold reader_inv; cbn; lia
              | unfold SIZE_MAX, SIZE_BITS; lia]).
  cbn [rd_pos rd_len rd_data]. change (0 + 1) with 1.
  destruct (Z.leb_spec 1 (Z.of_nat (length payload))); [| lia].
  cbv beta iota. change (0 <? 0) with false. cbv iota.
  unfold set_pos. cbn [rd_pos rd_len rd_data].
  rewrite ssh_buf_read_string_spec
    by (first [apply payload_reader_wf; assumption | unfold reader_inv; cbn; lia]).
  cbn [rd_pos rd_len rd_data]. change (1 + 4) with 5. fold name_len. fold len.
  destruct (Z.leb_spec 5 len) as [H5 | H5]; cbn [andb];
    [| cbv beta iota; change (-1 <? 0) with true; cbv iota; reflexivity].
  cbv zeta.
  destruct (Z.leb_spec (5 + name_len) len) as [Hn | Hn].
  2:{ cbv beta iota. change (-1 <? 0) with true. cbv iota.
      destruct (Z.leb_spec (5 + name_len + 1) len); [lia | reflexivity]. }
  cbv beta iota. cbn [fmap option_fmap option_map].
  change (0 <? 0) with false. cbv iota.
  unfold set_pos. cbn [rd_pos rd_len rd_data].
  rewrite ssh_buf_read_u8_spec
    by (first [apply payload_reader_wf; assumption | unfold reader_inv; cbn; unfold len in *; lia]).
  cbn [rd_pos rd_len rd_data]. fold len.
  destruct (Z.leb_spec (5 + name_len + 1) len) as [Hw | Hw];
    [| cbv beta iota; change (-1 <? 0) with true; reflexivity].
  cbv beta iota. cbn [fmap option_fmap option_map default]. unfold id.
  change (0 <? 0) with false. cbv iota.
  destruct (byte_at payload (5 + name_len) =? 0); cbn [negb]; [reflexivity |].
  unfold conn_send_packet. destruct (tx_up conn); reflexivity.
Qed.

Lemma global_request_reply_witness :
  let payload := [80; 0; 0; 0; 2; 104; 105; 1] in
  let len := Z.of_nat (length payload) in
  let name_len := be32_at payload 1 in
  chan_process_packets [RxPacket payload] fresh_conn =
    if (5 <=? len) && (5 + name_len + 1 <=? len) then
      if byte_at payload (5 + name_len) =? 0 then (0, fresh_conn)
      else if tx_up fresh_conn
           then (0, mkConn (sock fresh_conn) (channels fresh_conn) (tx_up fresh_conn)
                           (tx_sent fresh_conn ++ [[SSH_MSG_REQUEST_FAILURE]])
                           (trace fresh_conn))
           else (-1, fresh_conn)
    else (-1, fresh_conn).
Proof.
  apply (global_request_reply fresh_conn [80; 0; 0; 0; 2; 104; 105; 1]).
  - repeat (apply Forall_cons_2; [vm_compute; split; [discriminate | reflexivity] |]).
    apply Forall_nil_2.
  - vm_compute. discriminate.
  - reflexivity.
Defined.

(** ** CHANNEL_OPEN *)

(** X4. The CHANNEL_OPEN packet `chan_send_channel_open` sends for a session
    reads back, with the readers of packet.c, as the message number 90, the
    string "session", and the three 32-bit fields of the channel: its
    local number, its window and its maximum packet size; the last read
    ends at the end of the packet. *)
Theorem channel_open_packet_decodes conn chan :
  type chan = SSH_CHAN_TYPE_SESSION -> tx_up conn = true ->
  0 <= local_num chan < 2 ^ 32 ->
  0 <= local_window_size chan < 2 ^ 32 ->
  0 <= local_max_packet_size chan < 2 ^ 32 ->
  exists p rd1 rd2 rd3 rd4 rd5 name,
    chan_send_channel_open conn chan
    = (0, mkConn (sock conn) (channels conn) true (tx_sent conn ++ [p]) (trace conn)) /\
    ssh_buf_read_u8 (ssh_buf_reader_new p (Z.of_nat (length p))) (Some 0)
    = (0, rd1, Some SSH_MSG_CHANNEL_OPEN) /\
    ssh_buf_read_string rd1 (Some (mkString [] 0)) = (0, rd2, Some name) /\
    ssh_str_bytes name = cstr "session" /\
    ssh_buf_read_u32 rd2 (Some 0) = (0, rd3, Some (local_num chan)) /\
    ssh_buf_read_u32 rd3 (Some 0) = (0, rd4, Some (local_window_size chan)) /\
    ssh_buf_read_u32 rd4 (Some 0) = (0, rd5, Some (local_max_packet_size chan)) /\
    rd_pos rd5 = rd_len rd5.
Proof.
  intros Hty Hup Hn Hw Hm.
  set (n := local_num chan) in *. set (w := local_window_size chan) in *.
  set (m := local_max_packet_size chan) in *.
  set (p := 90 :: 0 :: 0 :: 0 :: 7 :: 115 :: 101 :: 115 :: 115 :: 105 :: 111 :: 110
            :: Z.shiftr n 24 mod 256 :: Z.shiftr n 16 mod 256
            :: Z.shiftr n 8 mod 256 :: n mod 256
            :: Z.shiftr w 24 mod 256 :: Z.shiftr w 16 mod 256
            :: Z.shiftr w 8 mod 256 :: w mod 256
            :: Z.shiftr m 24 mod 256 :: Z.shiftr m 16 mod 256
            :: Z.shiftr m 8 mod 256 :: m mod 256 :: []).
  assert (Hb : Forall is_byte p).
  { unfold p.
    repeat (apply Forall_cons_2;
            [first [apply mod256_is_byte | unfold is_byte; lia] |]).
    apply Forall_nil_2. }
  assert (Hlen : Z.of_nat (length p) = 24) by reflexivity.
  assert (Hl : Z.of_nat (length p) <= SIZE_MAX)
    by (rewrite Hlen; unfold SIZE_MAX, SIZE_BITS; lia).
  assert (Hname : be32_at p 1 = 7) by reflexivity.
  assert (Hbn : be32_at p 12 = n).
  { change 12 with (Z.of_nat 12 + 0). rewrite be32_at_drop by lia.
    apply be32_at_written. exact Hn. }
  assert (Hbw : be32_at p 16 = w).
  { change 16 with (Z.of_nat 16 + 0). rewrite be32_at_drop by lia.
    apply be32_at_written. exact Hw. }
  assert (Hbm : be32_at p 20 = m).
  { change 20 with (Z.of_nat 20 + 0). rewrite be32_at_drop by lia.
    apply be32_at_written. exact Hm. }
  exists p, (mkReader p 1 24), (mkReader p 12 24), (mkReader p 16 24),
    (mkReader p 20 24), (mkReader p 24 24),
    {| str_ptr := drop 5 p; str_len := 7 |}.
  split; [| split; [| split; [| split; [| split; [| split; [| split]]]]]].
  - unfold chan_send_channel_open. rewrite Hty. cbn [chan_get_type_data]. cbv zeta.
    unfold conn_send_packet. rewrite Hup. reflexivity.
  - rewrite Hlen. destruct (channel_packet_header p Hb Hl) as [Hu8 _].
    cbv zeta in Hu8. rewrite Hlen in Hu8. exact Hu8.
  - rewrite <- Hlen at 1.
    rewrite ssh_buf_read_string_spec
      by (first [apply payload_reader_wf; assumption | unfold reader_inv; cbn; lia]).
    cbn [rd_pos rd_len rd_data]. rewrite Hlen. change (1 + 4) with 5.
    rewrite Hname. reflexivity.
  - reflexivity.
  - rewrite <- Hlen at 1. rewrite payload_read_u32 by (first [assumption | lia]).
    rewrite Hlen, Hbn. reflexivity.
  - rewrite <- Hlen at 1. rewrite payload_read_u32 by (first [assumption | lia]).
    rewrite Hlen, Hbw. reflexivity.
  - rewrite <- Hlen at 1. rewrite payload_read_u32 by (first [assumption | lia]).
    rewrite Hlen, Hbm. reflexivity.
  - reflexivity.
Qed.

Lemma channel_open_packet_decodes_witness :
  exists p rd1 rd2 rd3 rd4 rd5 name,
    chan_send_channel_open fresh_conn open_chan
    = (0, mkConn (sock fresh_conn) (channels fresh_conn) true
                 (tx_sent fresh_conn ++ [p]) (trace fresh_conn)) /\
    ssh_buf_read_u8 (ssh_buf_reader_new p (Z.of_nat (length p))) (Some 0)
    = (0, rd1, Some SSH_MSG_CHANNEL_OPEN) /\
    ssh_buf_read_string rd1 (Some (mkString [] 0)) = (0, rd2, Some name) /\
    ssh_str_bytes name = cstr "session" /\
    ssh_buf_read_u32 rd2 (Some 0) = (0, rd3, Some (local_num open_chan)) /\
    ssh_buf_read_u32 rd3 (Some 0) = (0, rd4, Some (local_window_size open_chan)) /\
    ssh_buf_read_u32 rd4 (Some 0) = (0, rd5, Some (local_max_packet_size open_chan)) /\
    rd_pos rd5 = rd_len rd5.
Proof.
  apply (channel_open_packet_decodes fresh_conn open_chan).
  - reflexivity.
  - reflexivity.
  - vm_compute. split; [discriminate | reflexivity].
  - vm_compute. split; [discriminate | reflexivity].
  - vm_compute. split; [discriminate | reflexivity].
Defined.

(* ===================================================================== *)
(** * The buffer and the strings (packet.c) *)
(* ===================================================================== *)

(** ** `ssh_buf_grow` *)

(** The capacity `ssh_buf_grow` asks for when [need] bytes do not fit. *)
Lemma grow_rounding need :
  0 <= need ->
  need + 2 <= (need + 257) / 256 * 256 <= need + 257 /\
  ((need + 257) / 256 * 256) mod 256 = 0.
Proof.
  intros Hn.
  pose proof (Z.div_mod (need + 257) 256 ltac:(lia)) as Hdm.
  pose proof (Z.mod_pos_bound (need + 257) 256 ltac:(lia)) as Hb.
  split; [lia | apply Z.mod_mul; lia].
Qed.

Lemma ssh_buf_grow_cases alloc buf n :
  Buffer.buffer_ok buf -> 0 <= n <= SIZE_MAX ->
  Buffer.ssh_buf_grow alloc buf n =
    let need := Buffer.buf_len buf + n in
    if need >? SIZE_MAX then (-1, buf)
    else if Buffer.buf_cap buf >=? need then (0, buf)
    else if need + 257 >? SIZE_MAX then (-1, buf)
    else
      let new_cap := (need + 257) / 256 * 256 in
      if alloc new_cap then (0, Buffer.mkBuffer (Buffer.buf_data buf) new_cap)
      else (-1, buf).
Proof.
  intros (_ & Hlen & Hcap) Hn. unfold Buffer.ssh_buf_grow.
  assert (Hl0 : 0 <= Buffer.buf_len buf) by (unfold Buffer.buf_len; lia).
  rewrite checked_add_spec by lia. cbv zeta.
  destruct (Z.leb_spec (Buffer.buf_len buf + n) SIZE_MAX) as [Hfit | Hover];
    destruct (Z.gtb_spec (Buffer.buf_len buf + n) SIZE_MAX) as [Hgt | Hle];
    try lia; cbv beta iota.
  2: { change (-1 <? 0) with true. reflexivity. }
  change (0 <? 0) with false. cbv iota.
  destruct (Buffer.buf_cap buf >=? Buffer.buf_len buf + n); [reflexivity |].
  rewrite checked_add_spec by (unfold Buffer.BUFFER_GROW_SIZE, SIZE_MAX, SIZE_BITS in *; lia).
  unfold Buffer.BUFFER_GROW_SIZE. change (256 + 1) with 257.
  destruct (Z.leb_spec (Buffer.buf_len buf + n + 257) SIZE_MAX);
    destruct (Z.gtb_spec (Buffer.buf_len buf + n + 257) SIZE_MAX);
    try lia; cbv beta iota.
  - change (0 <? 0) with false. cbv iota.
    destruct (alloc _); reflexivity.
  - change (-1 <? 0) with true. reflexivity.
Qed.

(** From here on the unqualified names are those of [Buffer]; the writers
    on the contents are [Packet.ssh_buf_write_u8] and so on. *)
Import Buffer.

Lemma ssh_buf_grow_result alloc buf n rc buf' :
  buffer_ok buf -> 0 <= n <= SIZE_MAX ->
  Buffer.ssh_buf_grow alloc buf n = (rc, buf') ->
  (rc = 0 /\ buffer_ok buf' /\ buf_data buf' = buf_data buf /\
   buf_len buf + n <= buf_cap buf' /\ buf_cap buf <= buf_cap buf' /\
   (buf' = buf \/ (buf_cap buf' mod BUFFER_GROW_SIZE = 0 /\ alloc (buf_cap buf') = true)))
  \/
  (rc = -1 /\ buf' = buf /\ buf_cap buf < buf_len buf + n).
Proof.
  intros Hok Hn. rewrite ssh_buf_grow_cases by assumption. cbv zeta.
  destruct Hok as (Hb & Hlen & Hcap).
  assert (Hl0 : 0 <= buf_len buf) by (unfold buf_len; lia).
  destruct (Z.gtb_spec (buf_len buf + n) SIZE_MAX) as [Hgt | Hle].
  { intros [= <- <-]. right. repeat split. lia. }
  destruct (Z.geb_spec (buf_cap buf) (buf_len buf + n)) as [Hroom | Hsmall].
  { intros [= <- <-]. left. repeat split; try assumption; try lia. left. reflexivity. }
  destruct (Z.gtb_spec (buf_len buf + n + 257) SIZE_MAX) as [Hgt2 | Hle2].
  { intros [= <- <-]. right. repeat split. lia. }
  pose proof (grow_rounding (buf_len buf + n) ltac:(lia)) as [Hr Hm].
  destruct (alloc _) eqn:Ha.
  - intros [= <- <-]. left. unfold buffer_ok, buf_len in *. cbn.
    repeat split; try assumption; try lia.
    right. split; assumption.
  - intros [= <- <-]. right. repeat split. lia.
Qed.

Lemma memcpy_at_end d src n :
  0 <= n ->
  memcpy_at (d ++ replicate (Z.to_nat n) 0) (Z.of_nat (length d)) src n
  = d ++ take (Z.to_nat n) src.
Proof.
  intros Hn. unfold memcpy_at.
  rewrite Nat2Z.id, take_app_length.
  rewrite drop_ge; [rewrite app_nil_r; reflexivity |].
  rewrite length_app, length_replicate. lia.
Qed.

Lemma ssh_buf_get_write_pointer_grow alloc buf n :
  ssh_buf_get_write_pointer alloc buf n =
    let r := Buffer.ssh_buf_grow alloc buf n in
    if r.1 <? 0 then (None, r.2)
    else (Some (buf_len r.2),
          set_buf_data r.2 (buf_data r.2 ++ replicate (Z.to_nat n) 0)).
Proof.
  unfold ssh_buf_get_write_pointer.
  destruct (Buffer.ssh_buf_grow alloc buf n) as [rc b]. reflexivity.
Qed.

Lemma ssh_buf_append_data_grow alloc buf data n :
  0 <= n ->
  ssh_buf_append_data alloc buf data n =
    let r := Buffer.ssh_buf_grow alloc buf n in
    if r.1 <? 0 then (-1, r.2)
    else (0, set_buf_data r.2 (buf_data r.2 ++ take (Z.to_nat n) data)).
Proof.
  intros Hn. unfold ssh_buf_append_data.
  rewrite ssh_buf_get_write_pointer_grow. cbv zeta.
  destruct (Buffer.ssh_buf_grow alloc buf n) as [rc b]. cbn [fst snd].
  destruct (rc <? 0); [reflexivity |].
  unfold set_buf_data, buf_len. cbn [buf_data buf_cap].
  rewrite memcpy_at_end by exact Hn. reflexivity.
Qed.

(** X18. After `ssh_buf_grow(buf, n)` has returned 0, appending [n] bytes with
    `ssh_buf_append_data` cannot fail and allocates nothing, whatever the
    allocator would answer: the bytes go behind the old ones and the
    capacity stays what the growth made it. *)
Theorem grow_then_append_never_reallocates alloc alloc' buf buf1 data n :
  buffer_ok buf -> 0 <= n <= SIZE_MAX ->
  Buffer.ssh_buf_grow alloc buf n = (0, buf1) ->
  ssh_buf_append_data alloc' buf1 data n
  = (0, {| buf_data := buf_data buf ++ take (Z.to_nat n) data;
           buf_cap := buf_cap buf1 |}).
Proof.
  intros Hok Hn Hgrow.
  destruct (ssh_buf_grow_result alloc buf n 0 buf1 Hok Hn Hgrow)
    as [(_ & Hok1 & Hdata & Hroom & _) | (Hrc & _)]; [| discriminate].
  rewrite ssh_buf_append_data_grow by lia.
  rewrite ssh_buf_grow_cases by assumption. cbv zeta.
  assert (Hlen : buf_len buf1 = buf_len buf) by (unfold buf_len; rewrite Hdata; reflexivity).
  destruct Hok1 as (_ & _ & Hcap1).
  destruct (Z.gtb_spec (buf_len buf1 + n) SIZE_MAX); [lia |].
  destruct (Z.geb_spec (buf_cap buf1) (buf_len buf1 + n)); [| lia].
  cbn. unfold set_buf_data. rewrite Hdata. reflexivity.
Qed.

Lemma ssh_buf_write_u8_grow alloc buf v :
  Buffer.ssh_buf_write_u8 alloc buf v =
    let r := Buffer.ssh_buf_grow alloc buf 1 in
    if r.1 <? 0 then (-1, r.2)
    else (0, set_buf_data r.2 (Packet.ssh_buf_write_u8 (buf_data r.2) v)).
Proof.
  unfold Buffer.ssh_buf_write_u8.
  destruct (Buffer.ssh_buf_grow alloc buf 1) as [rc b]. reflexivity.
Qed.

Lemma ssh_buf_write_u32_grow alloc buf v :
  Buffer.ssh_buf_write_u32 alloc buf v =
    let r := Buffer.ssh_buf_grow alloc buf 4 in
    if r.1 <? 0 then (-1, r.2)
    else (0, set_buf_data r.2 (Packet.ssh_buf_write_u32 (buf_data r.2) v)).
Proof.
  unfold Buffer.ssh_buf_write_u32, Packet.ssh_buf_write_u32.
  destruct (Buffer.ssh_buf_grow alloc buf 4) as [rc b]. cbn [fst snd].
  destruct (rc <? 0); [reflexivity |].
  cbv zeta. rewrite <- !app_assoc. reflexivity.
Qed.

Lemma ssh_buf_write_data_steps alloc buf val len :
  Buffer.ssh_buf_write_data alloc buf val len =
    let r := Buffer.ssh_buf_write_u32 alloc buf (len mod 2 ^ 32) in
    if r.1 <? 0 then (-1, r.2)
    else ssh_buf_append_data alloc r.2 val len.
Proof.
  unfold Buffer.ssh_buf_write_data, ssh_buf_append_data.
  destruct (Buffer.ssh_buf_write_u32 alloc buf (len mod 2 ^ 32)) as [rc b].
  reflexivity.
Qed.



(** What a step of growing by the length of [bytes] and storing them
    gives. *)
Lemma grow_and_append alloc buf bytes rc b :
  buffer_ok buf -> Forall is_byte bytes ->
  Z.of_nat (length bytes) <= SIZE_MAX ->
  Buffer.ssh_buf_grow alloc buf (Z.of_nat (length bytes)) = (rc, b) ->
  (rc = 0 /\ buffer_ok (set_buf_data b (buf_data b ++ bytes)) /\
   buf_data b = buf_data buf /\ buf_cap buf <= buf_cap b)
  \/ (rc = -1 /\ b = buf).
Proof.
  intros Hok Hbytes Hn Hg.
  destruct (ssh_buf_grow_result alloc buf _ rc b Hok (conj (Nat2Z.is_nonneg _) Hn) Hg)
    as [(-> & Hokb & Hdata & Hroom & Hmono & _) | (-> & -> & _)];
    [left | right; split; reflexivity].
  split; [reflexivity |]. split; [| split; assumption].
  destruct Hok as (Hb & _), Hokb as (_ & _ & Hcap).
  unfold buffer_ok, buf_len in *. cbn. rewrite Hdata.
  split; [apply Forall_app; split; assumption |].
  rewrite length_app. lia.
Qed.

Lemma ssh_buf_write_u8_result alloc buf v rc b :
  buffer_ok buf -> Buffer.ssh_buf_write_u8 alloc buf v = (rc, b) ->
  (rc = 0 /\ buffer_ok b /\ buf_data b = Packet.ssh_buf_write_u8 (buf_data buf) v /\
   buf_cap buf <= buf_cap b)
  \/ (rc = -1 /\ b = buf).
Proof.
  intros Hok. rewrite ssh_buf_write_u8_grow. cbv zeta.
  destruct (Buffer.ssh_buf_grow alloc buf 1) as [rc1 b1] eqn:Hg. cbn [fst snd].
  assert (Hbytes : Forall is_byte [v mod 256])
    by (constructor; [apply mod256_is_byte | constructor]).
  assert (Hfit : Z.of_nat (length [v mod 256]) <= SIZE_MAX)
    by (cbn; unfold SIZE_MAX, SIZE_BITS; lia).
  destruct (grow_and_append alloc buf [v mod 256] rc1 b1 Hok Hbytes Hfit Hg)
    as [(-> & Hokb & Hdata & Hmono) | (-> & ->)].
  - intros [= <- <-]. left. unfold Packet.ssh_buf_write_u8. rewrite <- Hdata.
    split; [reflexivity |]. split; [exact Hokb |]. split; [reflexivity | exact Hmono].
  - intros [= <- <-]. right. split; reflexivity.
Qed.

Lemma ssh_buf_write_u32_result alloc buf v rc b :
  buffer_ok buf -> Buffer.ssh_buf_write_u32 alloc buf v = (rc, b) ->
  (rc = 0 /\ buffer_ok b /\ buf_data b = Packet.ssh_buf_write_u32 (buf_data buf) v /\
   buf_cap buf <= buf_cap b)
  \/ (rc = -1 /\ b = buf).
Proof.
  intros Hok. rewrite ssh_buf_write_u32_grow. cbv zeta.
  destruct (Buffer.ssh_buf_grow alloc buf 4) as [rc1 b1] eqn:Hg. cbn [fst snd].
  set (bytes := [Z.shiftr v 24 mod 256; Z.shiftr v 16 mod 256;
                 Z.shiftr v 8 mod 256; v mod 256]).
  assert (Hbytes : Forall is_byte bytes)
    by (repeat (constructor; [apply mod256_is_byte |]); constructor).
  assert (Hfit : Z.of_nat (length bytes) <= SIZE_MAX)
    by (cbn; unfold SIZE_MAX, SIZE_BITS; lia).
  destruct (grow_and_append alloc buf bytes rc1 b1 Hok Hbytes Hfit Hg)
    as [(-> & Hokb & Hdata & Hmono) | (-> & ->)].
  - intros [= <- <-]. left. unfold Packet.ssh_buf_write_u32. rewrite <- Hdata.
    split; [reflexivity |]. split; [exact Hokb |]. split; [reflexivity | exact Hmono].
  - intros [= <- <-]. right. split; reflexivity.
Qed.

Lemma ssh_buf_append_data_result alloc buf data n rc b :
  buffer_ok buf -> Forall is_byte data -> 0 <= n <= Z.of_nat (length data) ->
  n <= SIZE_MAX ->
  ssh_buf_append_data alloc buf data n = (rc, b) ->
  (rc = 0 /\ buffer_ok b /\ buf_data b = buf_data buf ++ take (Z.to_nat n) data /\
   buf_cap buf <= buf_cap b)
  \/ (rc = -1 /\ b = buf).
Proof.
  intros Hok Hdata Hn Hmax. rewrite ssh_buf_append_data_grow by lia. cbv zeta.
  destruct (Buffer.ssh_buf_grow alloc buf n) as [rc1 b1] eqn:Hg. cbn [fst snd].
  assert (Hlen : Z.of_nat (length (take (Z.to_nat n) data)) = n)
    by (rewrite length_take; lia).
  assert (Hbytes : Forall is_byte (take (Z.to_nat n) data))
    by (apply Forall_take; exact Hdata).
  rewrite <- Hlen in Hg at 1.
  destruct (grow_and_append alloc buf (take (Z.to_nat n) data) rc1 b1 Hok Hbytes
              ltac:(lia) Hg)
    as [(-> & Hokb & Hd & Hmono) | (-> & ->)].
  - intros [= <- <-]. left. rewrite <- Hd.
    split; [reflexivity |]. split; [exact Hokb |]. split; [reflexivity | exact Hmono].
  - intros [= <- <-]. right. split; reflexivity.
Qed.

Lemma ssh_buf_write_data_result alloc buf val len rc b :
  buffer_ok buf -> Forall is_byte val -> 0 <= len <= Z.of_nat (length val) ->
  len <= SIZE_MAX ->
  Buffer.ssh_buf_write_data alloc buf val len = (rc, b) ->
  (rc = 0 /\ buffer_ok b /\
   buf_data b = Packet.ssh_buf_write_data (buf_data buf) val len /\
   buf_cap buf <= buf_cap b)
  \/ (rc = -1 /\ b = buf)
  \/ (rc = -1 /\ buffer_ok b /\
      buf_data b = Packet.ssh_buf_write_u32 (buf_data buf) (len mod 2 ^ 32) /\
      buf_cap b < buf_len b + len).
Proof.
  intros Hok Hval Hlen Hmax. rewrite ssh_buf_write_data_steps. cbv zeta.
  destruct (Buffer.ssh_buf_write_u32 alloc buf (len mod 2 ^ 32)) as [rc1 b1] eqn:Hw.
  cbn [fst snd].
  destruct (ssh_buf_write_u32_result alloc buf _ rc1 b1 Hok Hw)
    as [(-> & Hok1 & Hd1 & Hm1) | (-> & ->)].
  - change (0 <? 0) with false. cbv iota. intros Ha.
    destruct (ssh_buf_append_data_result alloc b1 val len rc b Hok1 Hval Hlen Hmax Ha)
      as [(-> & Hokb & Hd & Hm) | (-> & ->)].
    + left. unfold Packet.ssh_buf_write_data. rewrite <- Hd1.
      split; [reflexivity |]. split; [exact Hokb |]. split; [exact Hd | lia].
    + right. right. split; [reflexivity |]. split; [exact Hok1 |]. split; [exact Hd1 |].
      rewrite ssh_buf_append_data_grow in Ha by lia. cbv zeta in Ha.
      destruct (Buffer.ssh_buf_grow alloc b1 len) as [rc2 b2] eqn:Hg. cbn [fst snd] in Ha.
      destruct (ssh_buf_grow_result alloc b1 len rc2 b2 Hok1 (conj (proj1 Hlen) Hmax) Hg)
        as [(-> & _) | (-> & _ & Hsmall)].
      * discriminate Ha.
      * exact Hsmall.
  - change (-1 <? 0) with true. cbv iota. intros [= <- <-].
    right. left. split; reflexivity.
Qed.


(** X17. `ssh_buf_grow(buf, n)` on a buffer with `len <= cap`.  It returns 0 or
    -1 and never touches the bytes or shrinks the capacity.  After 0 there
    is room for [n] more bytes; after -1 the buffer is what it was and the
    bytes did not fit.  When they fit already nothing is allocated, and a
    capacity that changes is a multiple of BUFFER_GROW_SIZE the allocator
    granted, less than 258 bytes above the need. *)
Theorem ssh_buf_grow_makes_room alloc buf n :
  buffer_ok buf -> 0 <= n <= SIZE_MAX ->
  let r := Buffer.ssh_buf_grow alloc buf n in
  (r.1 = 0 \/ r.1 = -1) /\
  buffer_ok r.2 /\ buf_data r.2 = buf_data buf /\ buf_cap buf <= buf_cap r.2 /\
  (r.1 = 0 -> buf_len buf + n <= buf_cap r.2) /\
  (r.1 = -1 -> r.2 = buf /\ buf_cap buf < buf_len buf + n) /\
  (buf_len buf + n <= buf_cap buf -> r = (0, buf)) /\
  (r.2 <> buf ->
   buf_cap r.2 mod BUFFER_GROW_SIZE = 0 /\ alloc (buf_cap r.2) = true /\
   buf_cap r.2 <= buf_len buf + n + 257).
Proof.
  intros Hok Hn r. subst r. rewrite ssh_buf_grow_cases by assumption. cbv zeta.
  pose proof Hok as (Hb & Hlen & Hcap).
  assert (Hl0 : 0 <= buf_len buf) by (unfold buf_len; lia).
  destruct (Z.gtb_spec (buf_len buf + n) SIZE_MAX) as [Hgt | Hle].
  { cbn [fst snd].
    split; [right; reflexivity |]. split; [exact Hok |]. split; [reflexivity |].
    split; [lia |]. split; [discriminate |]. split; [intros _; split; [reflexivity | lia] |].
    split; [lia | intros H; contradiction]. }
  destruct (Z.geb_spec (buf_cap buf) (buf_len buf + n)) as [Hroom | Hsmall].
  { cbn [fst snd].
    split; [left; reflexivity |]. split; [exact Hok |]. split; [reflexivity |].
    split; [lia |]. split; [lia |]. split; [discriminate |].
    split; [reflexivity | intros H; contradiction]. }
  destruct (Z.gtb_spec (buf_len buf + n + 257) SIZE_MAX) as [Hgt2 | Hle2].
  { cbn [fst snd].
    split; [right; reflexivity |]. split; [exact Hok |]. split; [reflexivity |].
    split; [lia |]. split; [discriminate |]. split; [intros _; split; [reflexivity | lia] |].
    split; [lia | intros H; contradiction]. }
  pose proof (grow_rounding (buf_len buf + n) ltac:(lia)) as [Hr Hm].
  destruct (alloc _) eqn:Ha; cbn [fst snd buf_data buf_cap].
  - split; [left; reflexivity |].
    split; [unfold buffer_ok, buf_len in *; cbn [buf_data buf_cap];
            split; [exact Hb | lia] |].
    split; [reflexivity |]. split; [lia |]. split; [lia |]. split; [discriminate |].
    split; [lia |]. intros _. unfold BUFFER_GROW_SIZE.
    split; [exact Hm |]. split; [exact Ha | lia].
  - split; [right; reflexivity |]. split; [exact Hok |]. split; [reflexivity |].
    split; [lia |]. split; [discriminate |]. split; [intros _; split; [reflexivity | lia] |].
    split; [lia | intros H; contradiction].
Qed.

Lemma ssh_buf_grow_makes_room_witness :
  let r := Buffer.ssh_buf_grow alloc_always ssh_buf_new 10 in
  (r.1 = 0 \/ r.1 = -1) /\
  buffer_ok r.2 /\ buf_data r.2 = buf_data ssh_buf_new /\
  buf_cap ssh_buf_new <= buf_cap r.2 /\
  (r.1 = 0 -> buf_len ssh_buf_new + 10 <= buf_cap r.2) /\
  (r.1 = -1 -> r.2 = ssh_buf_new /\ buf_cap ssh_buf_new < buf_len ssh_buf_new + 10) /\
  (buf_len ssh_buf_new + 10 <= buf_cap ssh_buf_new -> r = (0, ssh_buf_new)) /\
  (r.2 <> ssh_buf_new ->
   buf_cap r.2 mod BUFFER_GROW_SIZE = 0 /\ alloc_always (buf_cap r.2) = true /\
   buf_cap r.2 <= buf_len ssh_buf_new + 10 + 257).
Proof.
  apply (ssh_buf_grow_makes_room alloc_always ssh_buf_new 10).
  - closed_buffer_ok.
  - vm_compute. split; discriminate.
Defined.

Lemma grow_then_append_never_reallocates_witness :
  ssh_buf_append_data alloc_never (mkBuffer [1; 2] 256) [3; 4; 5] 3
  = (0, {| buf_data := buf_data (mkBuffer [1; 2] 2) ++ take (Z.to_nat 3) [3; 4; 5];
           buf_cap := buf_cap (mkBuffer [1; 2] 256) |}).
Proof.
  apply (grow_then_append_never_reallocates alloc_always alloc_never
           (mkBuffer [1; 2] 2) (mkBuffer [1; 2] 256) [3; 4; 5] 3).
  - closed_buffer_ok.
  - vm_compute. split; discriminate.
  - vm_compute. reflexivity.
Defined.

(** X21. `ssh_buf_write_u8` and `ssh_buf_write_u32` on the `struct SSH_BUFFER`:
    when they return 0 the bytes of the buffer are those the writers of the
    packet model give ([Packet.ssh_buf_write_u8], [Packet.ssh_buf_write_u32]:
    one byte, four bytes big-endian, appended), `len <= cap` still holds
    and the capacity has not shrunk; the only other result is -1, with the
    buffer as it was. *)
Theorem buffer_writes_refine_contents alloc buf v :
  buffer_ok buf ->
  let r8 := Buffer.ssh_buf_write_u8 alloc buf v in
  let r32 := Buffer.ssh_buf_write_u32 alloc buf v in
  (r8.1 = 0 /\ buffer_ok r8.2 /\
   buf_data r8.2 = Packet.ssh_buf_write_u8 (buf_data buf) v /\
   buf_cap buf <= buf_cap r8.2
   \/ r8 = (-1, buf)) /\
  (r32.1 = 0 /\ buffer_ok r32.2 /\
   buf_data r32.2 = Packet.ssh_buf_write_u32 (buf_data buf) v /\
   buf_cap buf <= buf_cap r32.2
   \/ r32 = (-1, buf)).
Proof.
  intros Hok r8 r32. subst r8 r32. split.
  - destruct (Buffer.ssh_buf_write_u8 alloc buf v) as [rc b] eqn:Hw.
    destruct (ssh_buf_write_u8_result alloc buf v rc b Hok Hw)
      as [(-> & H) | (-> & ->)]; [left | right; reflexivity].
    split; [reflexivity | exact H].
  - destruct (Buffer.ssh_buf_write_u32 alloc buf v) as [rc b] eqn:Hw.
    destruct (ssh_buf_write_u32_result alloc buf v rc b Hok Hw)
      as [(-> & H) | (-> & ->)]; [left | right; reflexivity].
    split; [reflexivity | exact H].
Qed.

Lemma buffer_writes_refine_contents_witness :
  let r8 := Buffer.ssh_buf_write_u8 alloc_always ssh_buf_new 94 in
  let r32 := Buffer.ssh_buf_write_u32 alloc_always ssh_buf_new 94 in
  (r8.1 = 0 /\ buffer_ok r8.2 /\
   buf_data r8.2 = Packet.ssh_buf_write_u8 (buf_data ssh_buf_new) 94 /\
   buf_cap ssh_buf_new <= buf_cap r8.2
   \/ r8 = (-1, ssh_buf_new)) /\
  (r32.1 = 0 /\ buffer_ok r32.2 /\
   buf_data r32.2 = Packet.ssh_buf_write_u32 (buf_data ssh_buf_new) 94 /\
   buf_cap ssh_buf_new <= buf_cap r32.2
   \/ r32 = (-1, ssh_buf_new)).
Proof.
  apply (buffer_writes_refine_contents alloc_always ssh_buf_new 94).
  closed_buffer_ok.
Defined.

(** X22. `ssh_buf_write_data(buf, val, len)` has three outcomes.  It returns 0
    and the buffer holds the bytes of the packet model (the 32-bit length,
    then the [len] bytes); or it returns -1 with the buffer as it was (the
    length did not fit); or it returns -1 AFTER the length was appended:
    the data did not fit and the four bytes of the length stay in the
    buffer. *)
Theorem ssh_buf_write_data_outcomes alloc buf val len :
  buffer_ok buf -> Forall is_byte val -> 0 <= len <= Z.of_nat (length val) ->
  len <= SIZE_MAX ->
  let r := Buffer.ssh_buf_write_data alloc buf val len in
  buffer_ok r.2 /\
  (r.1 = 0 /\ buf_data r.2 = Packet.ssh_buf_write_data (buf_data buf) val len /\
   buf_cap buf <= buf_cap r.2
   \/ r = (-1, buf)
   \/ r.1 = -1 /\
      buf_data r.2 = Packet.ssh_buf_write_u32 (buf_data buf) (len mod 2 ^ 32) /\
      buf_cap r.2 < buf_len r.2 + len).
Proof.
  intros Hok Hval Hlen Hmax r. subst r.
  destruct (Buffer.ssh_buf_write_data alloc buf val len) as [rc b] eqn:Hw.
  destruct (ssh_buf_write_data_result alloc buf val len rc b Hok Hval Hlen Hmax Hw)
    as [(-> & Hokb & Hd & Hm) | [(-> & ->) | (-> & Hokb & Hd & Hsmall)]];
    cbn [fst snd].
  - split; [exact Hokb |]. left. split; [reflexivity |]. split; assumption.
  - split; [exact Hok |]. right. left. reflexivity.
  - split; [exact Hokb |]. right. right. split; [reflexivity |]. split; assumption.
Qed.

Lemma ssh_buf_write_data_outcomes_witness :
  let r := Buffer.ssh_buf_write_data alloc_always ssh_buf_new [104; 105] 2 in
  buffer_ok r.2 /\
  (r.1 = 0 /\
   buf_data r.2 = Packet.ssh_buf_write_data (buf_data ssh_buf_new) [104; 105] 2 /\
   buf_cap ssh_buf_new <= buf_cap r.2
   \/ r = (-1, ssh_buf_new)
   \/ r.1 = -1 /\
      buf_data r.2 = Packet.ssh_buf_write_u32 (buf_data ssh_buf_new) (2 mod 2 ^ 32) /\
      buf_cap r.2 < buf_len r.2 + 2).
Proof.
  apply (ssh_buf_write_data_outcomes alloc_always ssh_buf_new [104; 105] 2).
  - closed_buffer_ok.
  - closed_bytes.
  - vm_compute. split; discriminate.
  - vm_compute. discriminate.
Defined.

(** X23. A failed `ssh_buf_write_data` is not undone.  When the four bytes of
    the length fit in the capacity, the data does not and no memory can be
    had, the call returns -1 and the length stays appended to the buffer. *)
Theorem ssh_buf_write_data_failure_keeps_length buf val len :
  buffer_ok buf -> 0 <= len <= SIZE_MAX ->
  buf_len buf + 4 <= buf_cap buf < buf_len buf + 4 + len ->
  Buffer.ssh_buf_write_data alloc_never buf val len
  = (-1, set_buf_data buf (Packet.ssh_buf_write_u32 (buf_data buf) (len mod 2 ^ 32))).
Proof.
  intros Hok Hlen Hcap.
  assert (H4 : 0 <= 4 <= SIZE_MAX) by (unfold SIZE_MAX, SIZE_BITS; lia).
  rewrite ssh_buf_write_data_steps. cbv zeta.
  rewrite ssh_buf_write_u32_grow. cbv zeta.
  rewrite (ssh_buf_grow_cases alloc_never buf 4 Hok H4). cbv zeta.
  pose proof Hok as (Hb & Hl & Hc).
  destruct (Z.gtb_spec (buf_len buf + 4) SIZE_MAX); [lia |].
  destruct (Z.geb_spec (buf_cap buf) (buf_len buf + 4)); [| lia].
  cbn [fst snd]. change (0 <? 0) with false. cbv iota. cbn [fst snd].
  change (0 <? 0) with false. cbv iota.
  set (b1 := set_buf_data buf _).
  assert (Hl1 : buf_len b1 = buf_len buf + 4).
  { unfold b1, buf_len, set_buf_data, Packet.ssh_buf_write_u32. cbn [buf_data].
    rewrite length_app. cbn [length]. lia. }
  assert (Hok1 : buffer_ok b1).
  { split; [| rewrite Hl1; unfold b1; cbn [buf_cap set_buf_data]; lia].
    unfold b1, set_buf_data, Packet.ssh_buf_write_u32. cbn [buf_data].
    apply Forall_app. split; [exact Hb |].
    repeat (constructor; [apply mod256_is_byte |]). constructor. }
  rewrite ssh_buf_append_data_grow by lia. cbv zeta.
  rewrite (ssh_buf_grow_cases alloc_never b1 len Hok1 Hlen). cbv zeta.
  rewrite Hl1. change (buf_cap b1) with (buf_cap buf).
  destruct (Z.gtb_spec (buf_len buf + 4 + len) SIZE_MAX); [reflexivity |].
  destruct (Z.geb_spec (buf_cap buf) (buf_len buf + 4 + len)); [lia |].
  destruct (_ >? SIZE_MAX); reflexivity.
Qed.

Lemma ssh_buf_write_data_failure_keeps_length_witness :
  Buffer.ssh_buf_write_data alloc_never (mkBuffer [90] 6) [104; 105] 2
  = (-1, set_buf_data (mkBuffer [90] 6)
           (Packet.ssh_buf_write_u32 (buf_data (mkBuffer [90] 6)) (2 mod 2 ^ 32))).
Proof.
  apply (ssh_buf_write_data_failure_keeps_length (mkBuffer [90] 6) [104; 105] 2).
  - closed_buffer_ok.
  - vm_compute. split; discriminate.
  - vm_compute. split; [discriminate | reflexivity].
Defined.

(** X19. `ssh_buf_ensure_size(buf, new_len)`: after 0 the capacity is at least
    [new_len]; after -1 it was too small and the buffer is what it was.
    The bytes are kept either way.  (`new_len - buf->len` is computed only
    when `cap < new_len`, where `len <= cap` keeps it from wrapping.) *)
Theorem ssh_buf_ensure_size_result alloc buf new_len :
  buffer_ok buf -> 0 <= new_len <= SIZE_MAX ->
  let r := ssh_buf_ensure_size alloc buf new_len in
  buf_data r.2 = buf_data buf /\ buffer_ok r.2 /\
  (r.1 = 0 /\ new_len <= buf_cap r.2
   \/ r = (-1, buf) /\ buf_cap buf < new_len).
Proof.
  intros Hok Hn r. subst r. unfold ssh_buf_ensure_size.
  pose proof Hok as (Hb & Hl & Hc).
  assert (Hl0 : 0 <= buf_len buf) by (unfold buf_len; lia).
  destruct (Z.geb_spec (buf_cap buf) new_len) as [Hroom | Hsmall]; cbn [fst snd].
  { split; [reflexivity |]. split; [exact Hok |]. left. split; [reflexivity | lia]. }
  rewrite size_wrap_small by lia.
  destruct (Buffer.ssh_buf_grow alloc buf (new_len - buf_len buf)) as [rc b] eqn:Hg.
  assert (Hadd : 0 <= new_len - buf_len buf <= SIZE_MAX) by lia.
  destruct (ssh_buf_grow_result alloc buf _ rc b Hok Hadd Hg)
    as [(-> & Hokb & Hd & Hfit & _) | (-> & -> & _)]; cbn [fst snd].
  - split; [exact Hd |]. split; [exact Hokb |]. left. split; [reflexivity | lia].
  - split; [reflexivity |]. split; [exact Hok |]. right. split; [reflexivity | lia].
Qed.

Lemma ssh_buf_ensure_size_result_witness :
  let r := ssh_buf_ensure_size alloc_always (mkBuffer [1; 2] 2) 300 in
  buf_data r.2 = buf_data (mkBuffer [1; 2] 2) /\ buffer_ok r.2 /\
  (r.1 = 0 /\ 300 <= buf_cap r.2
   \/ r = (-1, mkBuffer [1; 2] 2) /\ buf_cap (mkBuffer [1; 2] 2) < 300).
Proof.
  apply (ssh_buf_ensure_size_result alloc_always (mkBuffer [1; 2] 2) 300).
  - closed_buffer_ok.
  - vm_compute. split; discriminate.
Defined.

(** X24. `ssh_buf_remove_data(buf, offset, len)` cuts the bytes
    `[offset, offset + len)` out of the buffer and keeps the capacity; it
    fails, changing nothing, exactly when `offset + len` (the mathematical
    sum) is beyond `buf->len`. *)
Theorem ssh_buf_remove_data_cuts buf offset len :
  buffer_ok buf -> 0 <= offset <= SIZE_MAX -> 0 <= len <= SIZE_MAX ->
  ssh_buf_remove_data buf offset len =
    if offset + len <=? buf_len buf
    then (0, set_buf_data buf (take (Z.to_nat offset) (buf_data buf)
                               ++ drop (Z.to_nat (offset + len)) (buf_data buf)))
    else (-1, buf).
Proof.
  intros (Hb & Hl & Hc) Ho Hn. unfold ssh_buf_remove_data.
  rewrite checked_add_spec by assumption.
  destruct (Z.leb_spec (offset + len) SIZE_MAX) as [Hfit | Hover].
  2:{ change (-1 <? 0) with true. cbn [orb].
      destruct (Z.leb_spec (offset + len) (buf_len buf)); [lia | reflexivity]. }
  change (0 <? 0) with false. cbn [orb].
  destruct (Z.leb_spec (offset + len) (buf_len buf)) as [Hin | Hout];
    destruct (Z.ltb_spec (buf_len buf) (offset + len)) as [Hlt | Hge];
    try lia; [| reflexivity].
  rewrite size_wrap_small by lia. do 2 f_equal.
  unfold buf_len in *. set (data := buf_data buf) in *.
  destruct (Z.gtb_spec (Z.of_nat (length data)) (offset + len)) as [Hmore | Hend].
  - unfold memcpy_at.
    assert (Hlen_tail : length (drop (Z.to_nat (offset + len)) data)
                        = Z.to_nat (Z.of_nat (length data) - (offset + len)))
      by (rewrite length_drop; lia).
    rewrite (take_ge (drop _ data)) by lia.
    rewrite app_assoc, take_app_length'; [reflexivity |].
    rewrite length_app, length_take, Hlen_tail. lia.
  - assert (Heq : Z.of_nat (length data) = offset + len) by lia.
    rewrite (drop_ge data (Z.to_nat (offset + len))) by lia.
    rewrite app_nil_r. f_equal. lia.
Qed.

Lemma ssh_buf_remove_data_cuts_witness :
  ssh_buf_remove_data (mkBuffer [1; 2; 3; 4; 5] 8) 1 2 =
    if 1 + 2 <=? buf_len (mkBuffer [1; 2; 3; 4; 5] 8)
    then (0, set_buf_data (mkBuffer [1; 2; 3; 4; 5] 8)
               (take (Z.to_nat 1) (buf_data (mkBuffer [1; 2; 3; 4; 5] 8))
                ++ drop (Z.to_nat (1 + 2)) (buf_data (mkBuffer [1; 2; 3; 4; 5] 8))))
    else (-1, mkBuffer [1; 2; 3; 4; 5] 8).
Proof.
  apply (ssh_buf_remove_data_cuts (mkBuffer [1; 2; 3; 4; 5] 8) 1 2).
  - closed_buffer_ok.
  - vm_compute. split; discriminate.
  - vm_compute. split; discriminate.
Defined.

(** X25. `ssh_buf_set_u32` then `ssh_buf_get_u32` on an array of at least four
    bytes gives the value back; the store changes the first four bytes
    only. *)
Theorem ssh_buf_set_get_u32 data v :
  (4 <= length data)%nat -> 0 <= v < 2 ^ 32 ->
  ssh_buf_get_u32 (ssh_buf_set_u32 data v) = v /\
  length (ssh_buf_set_u32 data v) = length data /\
  drop 4 (ssh_buf_set_u32 data v) = drop 4 data /\
  Forall is_byte (take 4 (ssh_buf_set_u32 data v)).
Proof.
  intros Hlen Hv.
  destruct data as [| b0 [| b1 [| b2 [| b3 rest]]]]; cbn in Hlen; try lia.
  unfold ssh_buf_set_u32, ssh_buf_get_u32. cbn [list_insert insert].
  split; [apply be32_at_written; exact Hv |].
  split; [reflexivity |]. split; [reflexivity |].
  cbn [take]. repeat (constructor; [apply mod256_is_byte |]). constructor.
Qed.

Lemma ssh_buf_set_get_u32_witness :
  ssh_buf_get_u32 (ssh_buf_set_u32 [9; 9; 9; 9; 7] 65537) = 65537 /\
  length (ssh_buf_set_u32 [9; 9; 9; 9; 7] 65537) = length [9; 9; 9; 9; 7] /\
  drop 4 (ssh_buf_set_u32 [9; 9; 9; 9; 7] 65537) = drop 4 [9; 9; 9; 9; 7] /\
  Forall is_byte (take 4 (ssh_buf_set_u32 [9; 9; 9; 9; 7] 65537)).
Proof.
  apply (ssh_buf_set_get_u32 [9; 9; 9; 9; 7] 65537).
  - vm_compute. lia.
  - vm_compute. split; [discriminate | reflexivity].
Defined.

(** ** What the writers append, the readers read back *)

Lemma be32_at_appended data v rest :
  0 <= v < 2 ^ 32 ->
  be32_at (Packet.ssh_buf_write_u32 data v ++ rest) (Z.of_nat (length data)) = v.
Proof.
  intros Hv. unfold Packet.ssh_buf_write_u32.
  rewrite <- (Z.add_0_r (Z.of_nat (length data))), be32_at_drop by lia.
  rewrite <- app_assoc, drop_app_length. cbn [app].
  apply be32_at_written. exact Hv.
Qed.

Lemma buffer_reader_wf b p :
  buffer_ok b ->
  reader_wf (set_pos (ssh_buf_reader_new_from_buffer b) p).
Proof.
  intros (Hb & Hl & Hc). split; [exact Hb |].
  cbn [rd_len set_pos ssh_buf_reader_new_from_buffer]. unfold buf_len in *. lia.
Qed.

(** X26. A value appended with `ssh_buf_write_u32` is the value
    `ssh_buf_read_u32` gives when a reader on the buffer is moved
    (`ssh_buf_reader_seek`) to where the buffer ended before the write, and
    the read ends at the end of the buffer. *)
Theorem write_u32_read_back alloc buf v b ret :
  buffer_ok buf -> 0 <= v < 2 ^ 32 ->
  Buffer.ssh_buf_write_u32 alloc buf v = (0, b) ->
  exists rd,
    ssh_buf_reader_seek (ssh_buf_reader_new_from_buffer b) (buf_len buf) = (0, rd) /\
    ssh_buf_read_u32 rd (Some ret) = (0, set_pos rd (buf_len b), Some v).
Proof.
  intros Hok Hv Hw.
  destruct (ssh_buf_write_u32_result alloc buf v 0 b Hok Hw)
    as [(_ & Hokb & Hd & _) | (Hrc & _)]; [| discriminate].
  assert (Hlen : buf_len b = buf_len buf + 4).
  { unfold buf_len. rewrite Hd. unfold Packet.ssh_buf_write_u32.
    rewrite length_app. cbn [length]. lia. }
  assert (Hl0 : 0 <= buf_len buf) by (unfold buf_len; lia).
  exists (set_pos (ssh_buf_reader_new_from_buffer b) (buf_len buf)).
  split.
  - unfold ssh_buf_reader_seek. cbn [rd_len ssh_buf_reader_new_from_buffer].
    destruct (Z.gtb_spec (buf_len buf) (buf_len b)); [lia | reflexivity].
  - rewrite ssh_buf_read_u32_spec
      by (first [apply buffer_reader_wf; exact Hokb
                | unfold reader_inv; cbn [rd_pos rd_len set_pos ssh_buf_reader_new_from_buffer]; lia]).
    cbn [rd_pos rd_len rd_data set_pos ssh_buf_reader_new_from_buffer].
    destruct (Z.leb_spec (buf_len buf + 4) (buf_len b)); [| lia].
    cbn [fmap option_fmap option_map]. rewrite <- Hlen.
    do 2 f_equal. rewrite Hd. unfold buf_len.
    rewrite <- (app_nil_r (Packet.ssh_buf_write_u32 _ _)).
    apply be32_at_appended. exact Hv.
Qed.

Lemma write_u32_read_back_witness :
  exists rd,
    ssh_buf_reader_seek
      (ssh_buf_reader_new_from_buffer (mkBuffer [90; 0; 1; 0; 1] 256))
      (buf_len (mkBuffer [90] 1)) = (0, rd) /\
    ssh_buf_read_u32 rd (Some 0)
    = (0, set_pos rd (buf_len (mkBuffer [90; 0; 1; 0; 1] 256)), Some 65537).
Proof.
  apply (write_u32_read_back alloc_always (mkBuffer [90] 1) 65537
           (mkBuffer [90; 0; 1; 0; 1] 256) 0).
  - closed_buffer_ok.
  - vm_compute. split; [discriminate | reflexivity].
  - vm_compute. reflexivity.
Defined.

(** X27. A string appended with `ssh_buf_write_data` (so also with
    `ssh_buf_write_cstring`, `ssh_buf_write_string`, `ssh_buf_write_buffer`)
    is the string `ssh_buf_read_string` gives at the place of the write,
    when its length is below 2^32: the view has the bytes written and the
    read ends at the end of the buffer. *)
Theorem write_data_read_back alloc buf val len b ret :
  buffer_ok buf -> Forall is_byte val -> 0 <= len <= Z.of_nat (length val) ->
  len < 2 ^ 32 ->
  Buffer.ssh_buf_write_data alloc buf val len = (0, b) ->
  exists rd s,
    ssh_buf_reader_seek (ssh_buf_reader_new_from_buffer b) (buf_len buf) = (0, rd) /\
    ssh_buf_read_string rd (Some ret) = (0, set_pos rd (buf_len b), Some s) /\
    str_len s = len /\ ssh_str_bytes s = take (Z.to_nat len) val.
Proof.
  intros Hok Hval Hlen H32 Hw.
  assert (Hmax : len <= SIZE_MAX) by (unfold SIZE_MAX, SIZE_BITS; lia).
  destruct (ssh_buf_write_data_result alloc buf val len 0 b Hok Hval Hlen Hmax Hw)
    as [(_ & Hokb & Hd & _) | [(Hrc & _) | (Hrc & _)]]; try discriminate.
  unfold Packet.ssh_buf_write_data in Hd.
  rewrite Z.mod_small in Hd by lia.
  assert (Htake : Z.of_nat (length (take (Z.to_nat len) val)) = len)
    by (rewrite length_take; lia).
  assert (Hlenb : buf_len b = buf_len buf + 4 + len).
  { unfold buf_len. rewrite Hd. unfold Packet.ssh_buf_write_u32.
    rewrite !length_app. cbn [length]. lia. }
  assert (Hl0 : 0 <= buf_len buf) by (unfold buf_len; lia).
  assert (Hat : be32_at (buf_data b) (buf_len buf) = len).
  { rewrite Hd. apply be32_at_appended. lia. }
  exists (set_pos (ssh_buf_reader_new_from_buffer b) (buf_len buf)).
  exists {| str_ptr := drop (Z.to_nat (buf_len buf + 4)) (buf_data b); str_len := len |}.
  split; [| split; [| split]].
  - unfold ssh_buf_reader_seek. cbn [rd_len ssh_buf_reader_new_from_buffer].
    destruct (Z.gtb_spec (buf_len buf) (buf_len b)); [lia | reflexivity].
  - rewrite ssh_buf_read_string_spec
      by (first [apply buffer_reader_wf; exact Hokb
                | unfold reader_inv; cbn [rd_pos rd_len set_pos ssh_buf_reader_new_from_buffer]; lia]).
    cbn [rd_pos rd_len rd_data set_pos ssh_buf_reader_new_from_buffer].
    destruct (Z.leb_spec (buf_len buf + 4) (buf_len b)); [| lia].
    cbv zeta. rewrite Hat.
    destruct (Z.leb_spec (buf_len buf + 4 + len) (buf_len b)); [| lia].
    cbn [fmap option_fmap option_map]. rewrite <- Hlenb. reflexivity.
  - reflexivity.
  - unfold ssh_str_bytes. cbn [str_ptr str_len]. rewrite Hd.
    unfold Packet.ssh_buf_write_u32, buf_len.
    replace (Z.to_nat (Z.of_nat (length (buf_data buf)) + 4))
      with (length (buf_data buf ++ [Z.shiftr len 24 mod 256; Z.shiftr len 16 mod 256;
                                      Z.shiftr len 8 mod 256; len mod 256]))
      by (rewrite length_app; cbn [length]; lia).
    rewrite drop_app_length. apply take_ge. lia.
Qed.

Lemma write_data_read_back_witness :
  exists rd s,
    ssh_buf_reader_seek
      (ssh_buf_reader_new_from_buffer (mkBuffer [90; 0; 0; 0; 2; 104; 105] 256))
      (buf_len (mkBuffer [90] 1)) = (0, rd) /\
    ssh_buf_read_string rd (Some (mkString [] 0))
    = (0, set_pos rd (buf_len (mkBuffer [90; 0; 0; 0; 2; 104; 105] 256)), Some s) /\
    str_len s = 2 /\ ssh_str_bytes s = take (Z.to_nat 2) [104; 105; 33].
Proof.
  apply (write_data_read_back alloc_always (mkBuffer [90] 1) [104; 105; 33] 2
           (mkBuffer [90; 0; 0; 0; 2; 104; 105] 256) (mkString [] 0)).
  - closed_buffer_ok.
  - closed_bytes.
  - vm_compute. split; discriminate.
  - vm_compute. reflexivity.
  - vm_compute. reflexivity.
Defined.

(** ** Strings *)

Lemma memcmp_zero a b n :
  (n <= length a)%nat -> (n <= length b)%nat ->
  memcmp a b n = 0 <-> take n a = take n b.
Proof.
  revert a b. induction n as [| n IH]; intros a b Ha Hb; [split; intros _; reflexivity |].
  destruct a as [| x a]; [cbn in Ha; lia |].
  destruct b as [| y b]; [cbn in Hb; lia |].
  cbn [memcmp take]. cbn [length] in Ha, Hb.
  destruct (Z.eqb_spec x y) as [-> | Hne].
  - rewrite IH by lia. split; [intros ->; reflexivity | intros [= H]; exact H].
  - split; [lia | intros [= H _]; contradiction].
Qed.

Lemma memcmp_opp a b n : memcmp a b n = - memcmp b a n.
Proof.
  revert a b. induction n as [| n IH]; intros a b; [reflexivity |].
  destruct a as [| x a], b as [| y b]; try reflexivity.
  cbn [memcmp]. rewrite (Z.eqb_sym y x).
  destruct (x =? y); [apply IH | lia].
Qed.

(** X28. `ssh_str_cmp_data(str, data, data_len)` is 0 exactly when the string
    and the data have the same length and the same bytes; when one is a
    proper prefix of the other the result is -1 or 1 by the lengths. *)
Theorem ssh_str_cmp_data_zero str data data_len :
  0 <= str_len str <= Z.of_nat (length (str_ptr str)) ->
  0 <= data_len <= Z.of_nat (length data) ->
  (ssh_str_cmp_data str data data_len = 0 <->
   str_len str = data_len /\ ssh_str_bytes str = take (Z.to_nat data_len) data) /\
  (str_len str < data_len ->
   ssh_str_bytes str = take (Z.to_nat (str_len str)) data ->
   ssh_str_cmp_data str data data_len = -1) /\
  (data_len < str_len str ->
   take (Z.to_nat data_len) (str_ptr str) = take (Z.to_nat data_len) data ->
   ssh_str_cmp_data str data data_len = 1).
Proof.
  intros Hs Hd. unfold ssh_str_cmp_data, ssh_str_bytes.
  destruct (Z.ltb_spec (str_len str) data_len) as [Hlt | Hge].
  - pose proof (memcmp_zero (str_ptr str) data (Z.to_nat (str_len str))
                  ltac:(lia) ltac:(lia)) as Hz.
    destruct (Z.eqb_spec (memcmp (str_ptr str) data (Z.to_nat (str_len str))) 0)
      as [H0 | Hn0]; cbn [negb].
    + split; [split; [discriminate | lia] |].
      split; [reflexivity | lia].
    + split; [split; [contradiction | lia] |].
      split; [| lia]. intros _ Heq. apply Hz in Heq. contradiction.
  - pose proof (memcmp_zero (str_ptr str) data (Z.to_nat data_len)
                  ltac:(lia) ltac:(lia)) as Hz.
    destruct (Z.eqb_spec (memcmp (str_ptr str) data (Z.to_nat data_len)) 0)
      as [H0 | Hn0]; cbn [negb].
    + destruct (Z.gtb_spec (str_len str) data_len) as [Hgt | Hle].
      * split; [split; [discriminate | lia] |].
        split; [lia | reflexivity].
      * assert (Heq : str_len str = data_len) by lia.
        split; [| split; lia].
        split; [| reflexivity]. intros _. split; [exact Heq |].
        rewrite Heq. apply Hz. exact H0.
    + split; [| split; [lia |]].
      * split; [contradiction |]. intros [Heq Hb]. rewrite Heq in Hb.
        apply Hz in Hb. contradiction.
      * intros _ Heq. apply Hz in Heq. contradiction.
Qed.

Lemma ssh_str_cmp_data_zero_witness :
  (ssh_str_cmp_data (mkString [104; 105; 0] 2) [104; 105] 2 = 0 <->
   str_len (mkString [104; 105; 0] 2) = 2 /\
   ssh_str_bytes (mkString [104; 105; 0] 2) = take (Z.to_nat 2) [104; 105]) /\
  (str_len (mkString [104; 105; 0] 2) < 2 ->
   ssh_str_bytes (mkString [104; 105; 0] 2)
   = take (Z.to_nat (str_len (mkString [104; 105; 0] 2))) [104; 105] ->
   ssh_str_cmp_data (mkString [104; 105; 0] 2) [104; 105] 2 = -1) /\
  (2 < str_len (mkString [104; 105; 0] 2) ->
   take (Z.to_nat 2) (str_ptr (mkString [104; 105; 0] 2)) = take (Z.to_nat 2) [104; 105] ->
   ssh_str_cmp_data (mkString [104; 105; 0] 2) [104; 105] 2 = 1).
Proof.
  apply (ssh_str_cmp_data_zero (mkString [104; 105; 0] 2) [104; 105] 2).
  - vm_compute. split; discriminate.
  - vm_compute. split; discriminate.
Defined.

(** X29. `ssh_str_cmp_string` is antisymmetric: swapping the two strings swaps
    the sign of the result (`memcmp` does so, and the comparison of the
    lengths does), and 0 stays 0. *)
Theorem ssh_str_cmp_string_antisym str1 str2 :
  (ssh_str_cmp_string str1 str2 < 0 <-> 0 < ssh_str_cmp_string str2 str1) /\
  (ssh_str_cmp_string str1 str2 = 0 <-> ssh_str_cmp_string str2 str1 = 0) /\
  (0 < ssh_str_cmp_string str1 str2 <-> ssh_str_cmp_string str2 str1 < 0).
Proof.
  assert (H : ssh_str_cmp_string str1 str2 = - ssh_str_cmp_string str2 str1).
  { unfold ssh_str_cmp_string, ssh_str_cmp_data.
    set (l1 := str_len str1). set (l2 := str_len str2).
    rewrite (memcmp_opp (str_ptr str2) (str_ptr str1)).
    destruct (Z.ltb_spec l1 l2), (Z.ltb_spec l2 l1), (Z.gtb_spec l1 l2),
      (Z.gtb_spec l2 l1); try lia.
    - set (m := memcmp _ _ _).
      destruct (Z.eqb_spec m 0), (Z.eqb_spec (- m) 0); cbn [negb]; lia.
    - set (m := memcmp _ _ _).
      destruct (Z.eqb_spec m 0), (Z.eqb_spec (- m) 0); cbn [negb]; lia.
    - replace l2 with l1 by lia. set (m := memcmp _ _ _).
      destruct (Z.eqb_spec m 0), (Z.eqb_spec (- m) 0); cbn [negb]; lia. }
  rewrite H. lia.
Qed.

(** ** `ssh_buf_read_until` *)

Lemma read_until_scan_spec sentinel data len :
  len <= SIZE_MAX ->
  forall fuel pos, 0 <= pos <= len -> (Z.to_nat (len - pos) <= fuel)%nat ->
  let p := read_until_scan fuel data pos len sentinel in
  pos <= p <= len /\
  (forall i, pos <= i < p -> byte_at data i <> sentinel) /\
  (p < len -> byte_at data p = sentinel).
Proof.
  intros Hmax. induction fuel as [| fuel IH]; intros pos Hpos Hfuel; cbn [read_until_scan].
  - assert (pos = len) by lia. subst pos. cbv zeta.
    split; [lia |]. split; intros; lia.
  - destruct (Z.ltb_spec pos len) as [Hlt | Hge]; cbn [andb].
    + destruct (Z.eqb_spec (byte_at data pos) sentinel) as [Heq | Hne]; cbn [negb].
      * cbv zeta. split; [lia |]. split; [intros; lia | intros _; exact Heq].
      * rewrite size_wrap_small by lia.
        specialize (IH (pos + 1) ltac:(lia) ltac:(lia)). cbv zeta in IH.
        destruct IH as (Hr & Hno & Hat). cbv zeta.
        split; [lia |]. split; [| exact Hat].
        intros i Hi. destruct (Z.eq_dec i pos) as [-> | Hip]; [exact Hne |].
        apply Hno. lia.
    + cbv zeta. split; [lia |]. split; intros; lia.
Qed.

(** X30. `ssh_buf_read_until(buf, sentinel, &ret)` always returns 0.  It stops
    at the first position [p] from the cursor on that holds the sentinel,
    or at the end of the data if there is none; the string it gives is the
    bytes from the old cursor up to [p], without the sentinel; the cursor
    is left after the sentinel, or at the end.  So it never passes the end,
    and `0 <= pos <= len` stays true. *)
Theorem ssh_buf_read_until_result buf sentinel ret :
  reader_wf buf -> reader_inv buf ->
  exists p,
    rd_pos buf <= p <= rd_len buf /\
    (forall i, rd_pos buf <= i < p -> byte_at (rd_data buf) i <> sentinel) /\
    (p < rd_len buf -> byte_at (rd_data buf) p = sentinel) /\
    ssh_buf_read_until buf sentinel (Some ret)
    = (0, set_pos buf (if p <? rd_len buf then p + 1 else p),
       Some {| str_ptr := drop (Z.to_nat (rd_pos buf)) (rd_data buf);
               str_len := p - rd_pos buf |}) /\
    reader_inv (ssh_buf_read_until buf sentinel (Some ret)).1.2.
Proof.
  intros (Hb & Hl) Hinv. unfold reader_inv in Hinv.
  pose proof (read_until_scan_spec sentinel (rd_data buf) (rd_len buf) (proj2 Hl)
                (Z.to_nat (rd_len buf - rd_pos buf)) (rd_pos buf) Hinv (le_n _)) as Hscan.
  cbv zeta in Hscan. unfold ssh_buf_read_until. cbv zeta.
  set (p := read_until_scan _ _ _ _ _) in *.
  destruct Hscan as (Hr & Hno & Hat).
  exists p. split; [exact Hr |]. split; [exact Hno |]. split; [exact Hat |].
  cbn [fmap option_fmap option_map].
  rewrite (size_wrap_small (p - rd_pos buf)) by lia.
  destruct (Z.ltb_spec p (rd_len buf)) as [Hlt | Hge].
  - rewrite size_wrap_small by lia. split; [reflexivity |].
    unfold reader_inv. cbn [fst snd rd_pos rd_len set_pos]. lia.
  - split; [reflexivity |].
    unfold reader_inv. cbn [fst snd rd_pos rd_len set_pos]. lia.
Qed.

Lemma ssh_buf_read_until_result_witness :
  exists p,
    rd_pos banner_reader <= p <= rd_len banner_reader /\
    (forall i, rd_pos banner_reader <= i < p -> byte_at (rd_data banner_reader) i <> 10) /\
    (p < rd_len banner_reader -> byte_at (rd_data banner_reader) p = 10) /\
    ssh_buf_read_until banner_reader 10 (Some (mkString [] 0))
    = (0, set_pos banner_reader (if p <? rd_len banner_reader then p + 1 else p),
       Some {| str_ptr := drop (Z.to_nat (rd_pos banner_reader)) (rd_data banner_reader);
               str_len := p - rd_pos banner_reader |}) /\
    reader_inv (ssh_buf_read_until banner_reader 10 (Some (mkString [] 0))).1.2.
Proof.
  apply (ssh_buf_read_until_result banner_reader 10 (mkString [] 0)).
  - split; [closed_bytes | vm_compute; split; discriminate].
  - vm_compute. split; discriminate.
Defined.


(** ** Reuse of the storage *)

(** X20. `ssh_buf_clear` empties the buffer and keeps its storage: after it, up
    to `cap` bytes can be appended without any allocation, and the buffer
    then holds exactly these bytes. *)
Theorem ssh_buf_clear_reuses_storage alloc buf data n :
  buffer_ok buf -> 0 <= n <= buf_cap buf ->
  ssh_buf_append_data alloc (ssh_buf_clear buf) data n
  = (0, {| buf_data := take (Z.to_nat n) data; buf_cap := buf_cap buf |}).
Proof.
  intros (Hb & Hl & Hc) Hn.
  assert (Hok : buffer_ok (ssh_buf_clear buf)).
  { split; [apply Forall_nil_2 |]. unfold ssh_buf_clear, buf_len in *.
    cbn [buf_data buf_cap set_buf_data length]. lia. }
  rewrite ssh_buf_append_data_grow by lia. cbv zeta.
  rewrite ssh_buf_grow_cases by (first [exact Hok | lia]). cbv zeta.
  change (buf_len (ssh_buf_clear buf)) with 0.
  change (buf_cap (ssh_buf_clear buf)) with (buf_cap buf).
  destruct (Z.gtb_spec (0 + n) SIZE_MAX); [lia |].
  destruct (Z.geb_spec (buf_cap buf) (0 + n)); [| lia].
  reflexivity.
Qed.

Lemma ssh_buf_clear_reuses_storage_witness :
  ssh_buf_append_data alloc_never (ssh_buf_clear (mkBuffer [1; 2; 3] 4)) [7; 8] 2
  = (0, {| buf_data := take (Z.to_nat 2) [7; 8];
           buf_cap := buf_cap (mkBuffer [1; 2; 3] 4) |}).
Proof.
  apply (ssh_buf_clear_reuses_storage alloc_never (mkBuffer [1; 2; 3] 4) [7; 8] 2).
  - closed_buffer_ok.
  - vm_compute. split; discriminate.
Defined.
